(** * Split-and-share-wise: the ledger of the client pages

    A shallow embedding of the pages that write and read the expense
    ledger:

    - [AddExpense.handleSubmit]           (src/pages/AddExpense.tsx)
    - [Dashboard.fetchDashboardData]      (the dashboard page)
    - [SettleUp.fetchDebtsAndSettlements],
      [SettleUp.handleSettle]             (src/pages/SettleUp.tsx)
    - [Friends.addFriend]                 (the friends page)

    together with the tables of the migration they talk to.

    Conventions of the model.

    - A JavaScript [number] is a rational; every arithmetic operator of
      the source rounds its exact result with a rounding [rnd] that the
      embedding takes as a parameter.  [exact] is the identity (the
      arithmetic in which the ledger identities are stated), [binary64]
      is round-to-nearest-even on 53 significant bits (IEEE 754 doubles
      without overflow, underflow, NaN and signed zero).
    - The store is the record of its tables, each a list of rows in
      insertion order.  It enforces the CHECK, UNIQUE, PRIMARY KEY and
      table-to-table FOREIGN KEY constraints of the migration on the
      columns the pages write.
      Row-level security is left out: under the policies of the migration
      every row selected below for the caller is visible to the caller.
      The scale of the DECIMAL columns is left out as well: the store
      keeps the numbers it is sent.
    - The pages identify a profile with the signed-in identity
      ([profiles.id] is compared with [user.id] everywhere); the model
      does the same.
    - A request to the store can fail for reasons outside the ledger
      (transport, authorization): [serves] says which requests the
      backend serves. *)

From Stdlib Require Import List String Ascii Bool Arith ZArith QArith Qabs Qround Qpower Lia Lra Lqa.
From Stdlib Require Import Floats.
Import ListNotations.
Local Open Scope string_scope.
Local Open Scope Q_scope.

(** ** Numbers *)

(** The type [number]. *)
Abbreviation number := Q (only parsing).

(** The rounding applied to the exact result of an arithmetic operator. *)
Definition arithmetic := Q -> Q.

Definition exact : arithmetic := fun x => x.

(** [ilog2 x], for [0 < x], is the exponent [e] with [2^e <= x < 2^(e+1)]. *)
Definition ilog2 (x : Q) : Z :=
  let e0 := (Z.log2 (Qnum x) - Z.log2 (Zpos (Qden x)) - 1)%Z in
  if Qle_bool (2 ^ (e0 + 1)) x then (e0 + 1)%Z else e0.

(** Nearest integer, ties to even. *)
Definition round_half_even (m : Q) : Z :=
  let f := Qfloor m in
  match Qcompare (m - inject_Z f) (1 # 2) with
  | Lt => f
  | Gt => (f + 1)%Z
  | Eq => if Z.even f then f else (f + 1)%Z
  end.

(** Unit in the last place of a 53-bit significand at the binade of [x]. *)
Definition ulp (x : Q) : Q := 2 ^ (ilog2 (Qabs x) - 52).

Definition binary64 : arithmetic := fun x =>
  if Qeq_bool x 0 then 0
  else
    let r := inject_Z (round_half_even (Qabs x / ulp x)) * ulp x in
    if Qle_bool 0 x then r else - r.

(** Unit roundoff of [binary64]. *)
Definition u64 : Q := 2 ^ (-53).

(** The rational a finite IEEE 754 double stands for; used to compare
    [binary64] with the doubles of the kernel on sample operations. *)
Definition double_value (f : float) : Q :=
  match Prim2SF f with
  | S754_finite s m e => (if s then - inject_Z (Zpos m) else inject_Z (Zpos m)) * 2 ^ e
  | _ => 0
  end.

Section Number.
Variable rnd : arithmetic.

Definition js_add (x y : number) : number := rnd (x + y).
Definition js_sub (x y : number) : number := rnd (x - y).
Definition js_div (x y : number) : number := rnd (x / y).
(** Unary minus is exact. *)
Definition js_neg (x : number) : number := - x.
End Number.

(** [x !== 0] *)
Definition js_neq0 (x : number) : bool := negb (Qeq_bool x 0).
(** Truthiness of a number: [0] is falsy. *)
Definition js_truthy (x : number) : bool := negb (Qeq_bool x 0).
(** [x || 0] *)
Definition js_or0 (x : number) : number := if js_truthy x then x else 0.
(** [x <= 0] *)
Definition js_le0 (x : number) : bool := Qle_bool x 0.
(** [Number(n)] of an array length: lengths are below [2^32], hence exact. *)
Definition of_length (n : nat) : number := inject_Z (Z.of_nat n).

(** ** Strings *)

(** Truthiness of a string: the empty string is falsy. *)
Definition str_truthy (s : string) : bool :=
  match s with EmptyString => false | _ => true end.

Definition is_space (c : ascii) : bool :=
  match nat_of_ascii c with
  | 9%nat | 10%nat | 11%nat | 12%nat | 13%nat | 32%nat => true
  | _ => false
  end.

Fixpoint trim_start (s : string) : string :=
  match s with
  | String c s' => if is_space c then trim_start s' else s
  | EmptyString => EmptyString
  end.

Fixpoint rev_string (s acc : string) : string :=
  match s with
  | String c s' => rev_string s' (String c acc)
  | EmptyString => acc
  end.

(** [s.trim()] *)
Definition trim (s : string) : string :=
  rev_string (trim_start (rev_string (trim_start s) EmptyString)) EmptyString.

(** ** Tables (supabase/migrations) *)

Definition uuid := string.

Module Profile.
Record t := mk { id : uuid; full_name : string; email : string }.
End Profile.

Module Group.
Record t := mk { id : uuid; name : string }.
End Group.

Module Expense.
Record t := mk {
  id : uuid;
  description : string;
  amount : number;
  expense_date : string;
  group_id : option uuid;
  paid_by : uuid
}.
End Expense.

Module ExpenseParticipant.
Record t := mk {
  expense_id : uuid;
  user_id : uuid;
  amount_owed : number;
  is_settled : bool
}.
End ExpenseParticipant.

Module Settlement.
Record t := mk {
  from_user : uuid;
  to_user : uuid;
  amount : number;
  description : string;
  group_id : option uuid
}.
End Settlement.

Inductive friendship_status := pending | accepted | blocked.

Module Friendship.
Record t := mk { user_id : uuid; friend_id : uuid; status : friendship_status }.
End Friendship.

Record store := mk_store {
  profiles : list Profile.t;
  groups : list Group.t;
  expenses : list Expense.t;
  expense_participants : list ExpenseParticipant.t;
  settlements : list Settlement.t;
  friendships : list Friendship.t
}.

Definition empty_store : store := mk_store [] [] [] [] [] [].

(** ** Constraints of the schema *)

Definition mem (x : uuid) (l : list uuid) : bool := existsb (String.eqb x) l.

Definition find_expense (st : store) (i : uuid) : option Expense.t :=
  find (fun e => String.eqb (Expense.id e) i) (expenses st).

Definition same_participant (p q : ExpenseParticipant.t) : bool :=
  String.eqb (ExpenseParticipant.expense_id p) (ExpenseParticipant.expense_id q)
  && String.eqb (ExpenseParticipant.user_id p) (ExpenseParticipant.user_id q).

Fixpoint distinct {A} (same : A -> A -> bool) (l : list A) : bool :=
  match l with
  | [] => true
  | x :: l' => negb (existsb (same x) l') && distinct same l'
  end.

(** expenses: PRIMARY KEY (id), CHECK (amount > 0),
    group_id REFERENCES groups(id). *)
Definition expense_ok (st : store) (e : Expense.t) : bool :=
  negb (mem (Expense.id e) (map Expense.id (expenses st)))
  && negb (Qle_bool (Expense.amount e) 0)
  && match Expense.group_id e with
     | Some g => mem g (map Group.id (groups st))
     | None => true
     end.

(** expense_participants: expense_id REFERENCES expenses(id),
    CHECK (amount_owed >= 0), UNIQUE (expense_id, user_id). *)
Definition participants_ok (st : store) (rows : list ExpenseParticipant.t) : bool :=
  forallb (fun p => mem (ExpenseParticipant.expense_id p) (map Expense.id (expenses st))) rows
  && forallb (fun p => Qle_bool 0 (ExpenseParticipant.amount_owed p)) rows
  && distinct same_participant (expense_participants st ++ rows).

(** settlements: CHECK (amount > 0). *)
Definition settlement_ok (s : Settlement.t) : bool :=
  negb (Qle_bool (Settlement.amount s) 0).

Definition same_friendship (f g : Friendship.t) : bool :=
  String.eqb (Friendship.user_id f) (Friendship.user_id g)
  && String.eqb (Friendship.friend_id f) (Friendship.friend_id g).

(** friendships: UNIQUE (user_id, friend_id). *)
Definition friendship_ok (st : store) (f : Friendship.t) : bool :=
  negb (existsb (same_friendship f) (friendships st)).

(** ** Requests and the backend *)

Inductive query :=
| q_owed (user : uuid)
| q_owing (user : uuid)
| q_debt_rows (user : uuid)
| q_debt_expenses (ids : list uuid) (user : uuid)
| q_profiles (ids : list uuid)
| q_unsettled_rows
| q_paid_expenses (ids : list uuid) (user : uuid)
| q_settlement_history (user : uuid)
| q_profile_by_email (email : string)
| q_friendship_between (user other : uuid)
| q_accepted_friendships (user : uuid).

Inductive request :=
| Select (q : query)
| InsertExpense (description : string) (amount : number) (expense_date : string)
    (group_id : uuid) (paid_by : uuid)
| InsertExpenseParticipants (rows : list ExpenseParticipant.t)
| InsertSettlement (row : Settlement.t)
| InsertFriendship (row : Friendship.t).

Definition is_write (r : request) : bool :=
  match r with Select _ => false | _ => true end.

Record backend := mk_backend {
  (** does the backend serve the request (transport, authorization)? *)
  serves : request -> bool;
  (** the [gen_random_uuid()] drawn for the expense row of an insert *)
  gen_random_uuid : uuid
}.

(** What a call of the client library resolves to: [{ data, error }]. *)
Inductive response (A : Type) :=
| Data (data : A)
| Error.
Arguments Data {A} data.
Arguments Error {A}.

(** ** The client: pages' state and effects *)

Inductive toast :=
| Toast (title description : string)
| Destructive (title description : string).

Record Balance := mk_balance {
  total_owed : number;
  total_owing : number;
  net_balance : number
}.

Record Debt := mk_debt {
  debt_user_id : uuid;
  debt_full_name : string;
  debt_email : string;
  debt_amount : number;
  debt_group_name : option string
}.

Record Friend := mk_friend {
  friend_id : uuid;
  friend_full_name : string;
  friend_email : string;
  friend_balance : number;
  friend_status : friendship_status
}.

Record world := mk_world {
  db : store;
  issued : list request;       (* requests sent to the store, oldest first *)
  toasts : list toast;         (* notices shown, oldest first *)
  location : option string;    (* navigate(...) *)
  balances : Balance;          (* Dashboard state *)
  debts : list Debt;           (* SettleUp state *)
  history : list Settlement.t; (* SettleUp state: settlements *)
  friends : list Friend        (* Friends state *)
}.

Definition initial (st : store) : world :=
  mk_world st [] [] None (mk_balance 0 0 0) [] [] [].

Inductive result (A : Type) :=
| Return (a : A)
| Throw.
Arguments Return {A} a.
Arguments Throw {A}.

(** Computations of a handler: they read and update the world and either
    return or throw. *)
Definition M (A : Type) := world -> result A * world.

Definition ret {A} (a : A) : M A := fun w => (Return a, w).

Definition bind {A B} (m : M A) (k : A -> M B) : M B :=
  fun w => match m w with
           | (Return a, w') => k a w'
           | (Throw, w') => (Throw, w')
           end.

Definition throw {A} : M A := fun w => (Throw, w).

(** [try { body } catch { handler }] *)
Definition try_catch (body handler : M unit) : M unit :=
  fun w => match body w with
           | (Return a, w') => (Return a, w')
           | (Throw, w') => handler w'
           end.

Declare Scope client_scope.
Delimit Scope client_scope with client.
Notation "x <- m ;; k" := (bind m (fun x => k))
  (at level 61, m at next level, right associativity) : client_scope.
Notation "m ;; k" := (bind m (fun _ => k))
  (at level 61, right associativity) : client_scope.
Local Open Scope client_scope.

Definition run {A} (m : M A) (st : store) : result A * world := m (initial st).
Definition exec {A} (m : M A) (w : world) : world := snd (m w).

Definition modify (f : world -> world) : M unit := fun w => (Return tt, f w).

Definition show (t : toast) : M unit :=
  modify (fun w => mk_world (db w) (issued w) (toasts w ++ [t]) (location w)
                     (balances w) (debts w) (history w) (friends w)).

Definition navigate (path : string) : M unit :=
  modify (fun w => mk_world (db w) (issued w) (toasts w) (Some path)
                     (balances w) (debts w) (history w) (friends w)).

Definition setBalances (b : Balance) : M unit :=
  modify (fun w => mk_world (db w) (issued w) (toasts w) (location w)
                     b (debts w) (history w) (friends w)).

Definition setDebts (d : list Debt) : M unit :=
  modify (fun w => mk_world (db w) (issued w) (toasts w) (location w)
                     (balances w) d (history w) (friends w)).

Definition setSettlements (h : list Settlement.t) : M unit :=
  modify (fun w => mk_world (db w) (issued w) (toasts w) (location w)
                     (balances w) (debts w) h (friends w)).

Definition setFriends (f : list Friend) : M unit :=
  modify (fun w => mk_world (db w) (issued w) (toasts w) (location w)
                     (balances w) (debts w) (history w) f).

Definition send (r : request) (w : world) : world :=
  mk_world (db w) (issued w ++ [r]) (toasts w) (location w)
    (balances w) (debts w) (history w) (friends w).

Definition commit (st : store) (w : world) : world :=
  mk_world st (issued w) (toasts w) (location w)
    (balances w) (debts w) (history w) (friends w).

Section Client.
Variable be : backend.

(** A read: the request is sent; when served, the rows the store holds. *)
Definition select {A} (q : query) (rows : store -> A) : M (response A) :=
  fun w =>
    let w1 := send (Select q) w in
    if serves be (Select q) then (Return (Data (rows (db w))), w1)
    else (Return Error, w1).

(** A write: the request is sent; the store applies it when the backend
    serves it and the constraints hold, and answers with an error
    otherwise. *)
Definition insert {A} (r : request) (apply : store -> option (A * store)) : M (response A) :=
  fun w =>
    let w1 := send r w in
    if serves be r then
      match apply (db w) with
      | Some (a, st') => (Return (Data a), commit st' w1)
      | None => (Return Error, w1)
      end
    else (Return Error, w1).

(** [.from('expenses').insert({...}).select().single()] *)
Definition insert_expense (description : string) (amount : number)
    (expense_date : string) (group_id paid_by : uuid) : M (response Expense.t) :=
  insert (InsertExpense description amount expense_date group_id paid_by)
    (fun st =>
       let e := Expense.mk (gen_random_uuid be) description amount expense_date
                  (Some group_id) paid_by in
       if expense_ok st e then
         Some (e, mk_store (profiles st) (groups st) (expenses st ++ [e])
                    (expense_participants st) (settlements st) (friendships st))
       else None).

(** [.from('expense_participants').insert(rows)] *)
Definition insert_expense_participants (rows : list ExpenseParticipant.t) : M (response unit) :=
  insert (InsertExpenseParticipants rows)
    (fun st =>
       if participants_ok st rows then
         Some (tt, mk_store (profiles st) (groups st) (expenses st)
                     (expense_participants st ++ rows) (settlements st) (friendships st))
       else None).

(** [.from('settlements').insert(row)] *)
Definition insert_settlement (row : Settlement.t) : M (response unit) :=
  insert (InsertSettlement row)
    (fun st =>
       if settlement_ok row then
         Some (tt, mk_store (profiles st) (groups st) (expenses st)
                     (expense_participants st) (settlements st ++ [row]) (friendships st))
       else None).

(** [.from('friendships').insert(row)] *)
Definition insert_friendship (row : Friendship.t) : M (response unit) :=
  insert (InsertFriendship row)
    (fun st =>
       if friendship_ok st row then
         Some (tt, mk_store (profiles st) (groups st) (expenses st)
                     (expense_participants st) (settlements st) (friendships st ++ [row]))
       else None).
End Client.

(** The value of an [<input type="number">]: empty, or a numeral. *)
Definition number_input := option number.

(** Truthiness of the input's string value. *)
Definition input_truthy (v : number_input) : bool :=
  match v with Some _ => true | None => false end.

(** [parseFloat] of the input's string value ([None]: nothing to read). *)
Definition parseFloat (v : number_input) : option number := v.

(** ** src/pages/AddExpense.tsx *)

Module AddExpense.
Record formData := mk_form {
  description : string;
  amount : number_input;
  expenseDate : string;
  groupId : string
}.

Definition validation_error : toast :=
  Destructive "Validation Error"
    "Please fill in all required fields and select participants".
Definition success : toast := Toast "Success" "Expense added successfully!".
Definition failure : toast :=
  Destructive "Error" "Failed to add expense. Please try again.".

Section Page.
Variable rnd : arithmetic.
Variable be : backend.
Variable user : uuid.

(** [const amountPerPerson = amount / participantCount] *)
Definition amountPerPerson (amount : number) (selectedParticipants : list uuid) : number :=
  let participantCount := List.length selectedParticipants in
  js_div rnd amount (of_length participantCount).

(** [const participants = selectedParticipants.map(...)] *)
Definition participants (expense_id : uuid) (amount : number)
    (selectedParticipants : list uuid) : list ExpenseParticipant.t :=
  map (fun participantId =>
         ExpenseParticipant.mk expense_id participantId
           (amountPerPerson amount selectedParticipants) false)
      selectedParticipants.

Definition handleSubmit (selectedGroup : string) (selectedParticipants : list uuid)
    (form : formData) : M unit :=
  if negb (str_truthy selectedGroup)
     || (List.length selectedParticipants =? 0)%nat
     || negb (str_truthy (description form))
     || negb (input_truthy (amount form))
  then show validation_error
  else
    match parseFloat (amount form) with
    | None => ret tt
    | Some amount =>
      try_catch
        (r <- insert_expense be (description form) amount (expenseDate form)
                selectedGroup user ;;
         match r with
         | Error => throw
         | Data expense =>
           r' <- insert_expense_participants be
                   (participants (Expense.id expense) amount selectedParticipants) ;;
           match r' with
           | Error => throw
           | Data _ => show success ;; navigate "/"
           end
         end)
        (show failure)
    end.

(** [toggleParticipant] *)
Definition toggleParticipant (prev : list uuid) (participantId : uuid) : list uuid :=
  if mem participantId prev
  then filter (fun id => negb (String.eqb id participantId)) prev
  else prev ++ [participantId].
End Page.
End AddExpense.

(** ** The dashboard page *)

Module Dashboard.
Import ExpenseParticipant.

(** [.eq('user_id', user.id).eq('is_settled', false)] *)
Definition owed_rows (user : uuid) (st : store) : list ExpenseParticipant.t :=
  filter (fun p => String.eqb (user_id p) user && Bool.eqb (is_settled p) false)
    (expense_participants st).

(** [expenses!inner(paid_by)] with [.neq('expenses.paid_by', user.id)]:
    the row is kept when its expense exists and was paid by another. *)
Definition paid_by_other (user : uuid) (st : store) (p : ExpenseParticipant.t) : bool :=
  match find_expense st (expense_id p) with
  | Some e => negb (String.eqb (Expense.paid_by e) user)
  | None => false
  end.

Definition owing_rows (user : uuid) (st : store) : list ExpenseParticipant.t :=
  filter (fun p => paid_by_other user st p
                   && String.eqb (user_id p) user
                   && Bool.eqb (is_settled p) false)
    (expense_participants st).

Section Page.
Variable rnd : arithmetic.
Variable be : backend.
Variable user : uuid.

(** [data?.reduce((sum, item) => sum + Number(item.amount_owed), 0) || 0] *)
Definition total (data : response (list ExpenseParticipant.t)) : number :=
  match data with
  | Data items =>
      js_or0 (fold_left (fun sum item => js_add rnd sum (amount_owed item)) items 0)
  | Error => 0
  end.

(** The balances of [fetchDashboardData]; the rest of the function
    reads the recent expenses and the group count into other state. *)
Definition fetchDashboardData : M unit :=
  owedData <- select be (q_owed user) (owed_rows user) ;;
  owingData <- select be (q_owing user) (owing_rows user) ;;
  let totalOwed := total owedData in
  let totalOwing := total owingData in
  setBalances (mk_balance totalOwed totalOwing (js_sub rnd totalOwed totalOwing)).
End Page.
End Dashboard.

(** ** src/pages/SettleUp.tsx *)

Module SettleUp.
Import ExpenseParticipant.

(** An expense row with its embedded [groups(name)]. *)
Definition expense_row := (Expense.t * option string)%type.

Definition group_name_of (st : store) (e : Expense.t) : option string :=
  match Expense.group_id e with
  | Some g => option_map Group.name
                (find (fun gr => String.eqb (Group.id gr) g) (groups st))
  | None => None
  end.

(** [.eq('user_id', user.id).eq('is_settled', false)] *)
Definition debt_rows (user : uuid) (st : store) : list ExpenseParticipant.t :=
  filter (fun p => String.eqb (user_id p) user && Bool.eqb (is_settled p) false)
    (expense_participants st).

(** [.in('id', expenseIds).neq('paid_by', user.id)] *)
Definition debt_expenses (ids : list uuid) (user : uuid) (st : store) : list expense_row :=
  map (fun e => (e, group_name_of st e))
    (filter (fun e => mem (Expense.id e) ids && negb (String.eqb (Expense.paid_by e) user))
       (expenses st)).

(** [.in('id', ids)] on profiles *)
Definition profiles_in (ids : list uuid) (st : store) : list Profile.t :=
  filter (fun p => mem (Profile.id p) ids) (profiles st).

(** [.eq('is_settled', false)] *)
Definition unsettled_rows (st : store) : list ExpenseParticipant.t :=
  filter (fun p => Bool.eqb (is_settled p) false) (expense_participants st).

(** [.in('id', userExpenseIds).eq('paid_by', user.id)] *)
Definition paid_expenses (ids : list uuid) (user : uuid) (st : store) : list expense_row :=
  map (fun e => (e, group_name_of st e))
    (filter (fun e => mem (Expense.id e) ids && String.eqb (Expense.paid_by e) user)
       (expenses st)).

(** [.or(from_user.eq.user, to_user.eq.user)], newest first, [.limit(20)] *)
Definition settlement_history (user : uuid) (st : store) : list Settlement.t :=
  firstn 20
    (rev (filter (fun s => String.eqb (Settlement.from_user s) user
                           || String.eqb (Settlement.to_user s) user)
            (settlements st))).

(** [Map<string, Debt>], in insertion order. *)
Definition debt_map := list (uuid * Debt).

Definition has (k : uuid) (m : debt_map) : bool :=
  existsb (fun kv => String.eqb (fst kv) k) m.

Definition set (k : uuid) (d : Debt) (m : debt_map) : debt_map := (m ++ [(k, d)])%list.

Definition values (m : debt_map) : list Debt := map snd m.

Definition failure_load : toast :=
  Destructive "Error" "Failed to load debt information".
Definition validation_error : toast :=
  Destructive "Validation Error" "Please fill in all required fields".
Definition invalid_amount : toast :=
  Destructive "Invalid Amount" "Amount must be greater than 0".
(** The notice also names the amount. *)
Definition payment_recorded : toast :=
  Toast "Payment Recorded" "Payment recorded successfully".
Definition failure_record : toast :=
  Destructive "Error" "Failed to record payment. Please try again.".

Section Page.
Variable rnd : arithmetic.
Variable be : backend.
Variable user : uuid.

(** [debtMap.get(k)!.amount += amount] *)
Fixpoint add_amount (k : uuid) (amount : number) (m : debt_map) : debt_map :=
  match m with
  | [] => []
  | (k', d) :: m' =>
      if String.eqb k' k
      then (k', mk_debt (debt_user_id d) (debt_full_name d) (debt_email d)
                  (js_add rnd (debt_amount d) amount) (debt_group_name d)) :: m'
      else (k', d) :: add_amount k amount m'
  end.

(** The merge shared by the two passes. *)
Definition merge (who : Profile.t) (amount : number) (groupName : option string)
    (debtMap : debt_map) : debt_map :=
  if has (Profile.id who) debtMap
  then add_amount (Profile.id who) amount debtMap
  else set (Profile.id who)
         (mk_debt (Profile.id who) (Profile.full_name who) (Profile.email who)
            amount groupName)
         debtMap.

(** Body of [debtData.forEach]: debts the user owes to payers. *)
Definition owes_step (expenseData : list expense_row) (payerData : list Profile.t)
    (debtMap : debt_map) (debtItem : ExpenseParticipant.t) : debt_map :=
  match find (fun e => String.eqb (Expense.id (fst e)) (expense_id debtItem)) expenseData with
  | None => debtMap
  | Some expense =>
    match find (fun p => String.eqb (Profile.id p) (Expense.paid_by (fst expense))) payerData with
    | None => debtMap
    | Some payer =>
        let groupName := snd expense in
        let amount := amount_owed debtItem in
        merge payer amount groupName debtMap
    end
  end.

(** Body of [owedData.forEach]: debts owed to the user by participants. *)
Definition owed_step (userExpenseData : list expense_row) (participantData : list Profile.t)
    (debtMap : debt_map) (owedItem : ExpenseParticipant.t) : debt_map :=
  match find (fun e => String.eqb (Expense.id (fst e)) (expense_id owedItem)) userExpenseData with
  | None => debtMap
  | Some expense =>
    match find (fun p => String.eqb (Profile.id p) (user_id owedItem)) participantData with
    | None => debtMap
    | Some participant =>
        let groupName := snd expense in
        let amount := js_neg (amount_owed owedItem) in
        merge participant amount groupName debtMap
    end
  end.

(** [Array.from(debtMap.values()).filter(debt => debt.amount !== 0)] *)
Definition debtsList (debtMap : debt_map) : list Debt :=
  filter (fun debt => js_neq0 (debt_amount debt)) (values debtMap).

Definition expect {A} (r : response A) : M A :=
  match r with Data a => ret a | Error => throw end.

(** The first request of the function reads the user's group ids into
    a variable that is never used, without looking at the error; it is
    left out. *)
Definition fetchDebtsAndSettlements : M unit :=
  try_catch
    (debtData <- (r <- select be (q_debt_rows user) (debt_rows user) ;; expect r) ;;
     let expenseIds := map expense_id debtData in
     expenseData <- (r <- select be (q_debt_expenses expenseIds user)
                            (debt_expenses expenseIds user) ;; expect r) ;;
     let payerIds := map (fun item => Expense.paid_by (fst item)) expenseData in
     payerData <- (r <- select be (q_profiles payerIds) (profiles_in payerIds) ;; expect r) ;;
     let debtMap := fold_left (owes_step expenseData payerData) debtData [] in
     owedData <- (r <- select be q_unsettled_rows unsettled_rows ;; expect r) ;;
     let userExpenseIds := map expense_id owedData in
     userExpenseData <- (r <- select be (q_paid_expenses userExpenseIds user)
                                (paid_expenses userExpenseIds user) ;; expect r) ;;
     let participantIds := map user_id owedData in
     participantData <- (r <- select be (q_profiles participantIds)
                                (profiles_in participantIds) ;; expect r) ;;
     let debtMap := fold_left (owed_step userExpenseData participantData) owedData debtMap in
     setDebts (debtsList debtMap) ;;
     settlementData <- (r <- select be (q_settlement_history user)
                               (settlement_history user) ;; expect r) ;;
     setSettlements settlementData)
    (show failure_load).

(** [group_id: selectedDebt.group_name ? undefined : null]: an
    undefined key is dropped and the column defaults to NULL. *)
Definition settlement_group_id (d : Debt) : option uuid :=
  match debt_group_name d with
  | Some n => if str_truthy n then None else None
  | None => None
  end.

Definition handleSettle (selectedDebt : option Debt) (settleAmount : number_input)
    (settleDescription : string) : M unit :=
  match selectedDebt with
  | None => show validation_error
  | Some selected =>
    if negb (input_truthy settleAmount) || negb (str_truthy (trim settleDescription))
    then show validation_error
    else
      match parseFloat settleAmount with
      | None => ret tt
      | Some amount =>
        if js_le0 amount then show invalid_amount
        else
          try_catch
            (r <- insert_settlement be
                    (Settlement.mk user (debt_user_id selected) amount
                       (trim settleDescription) (settlement_group_id selected)) ;;
             match r with
             | Error => throw
             | Data _ => show payment_recorded ;; fetchDebtsAndSettlements
             end)
            (show failure_record)
      end
  end.
End Page.
End SettleUp.

(** ** The friends page *)

Module Friends.
(** [.single()]: exactly one row, an error otherwise. *)
Definition single {A} (rows : list A) : response A :=
  match rows with
  | [row] => Data row
  | _ => Error
  end.

(** [.eq('email', email)] *)
Definition profile_by_email (email : string) (st : store) : list Profile.t :=
  filter (fun p => String.eqb (Profile.email p) email) (profiles st).

(** [.or(and(user_id.eq.a, friend_id.eq.b), and(user_id.eq.b, friend_id.eq.a))] *)
Definition between (a b : uuid) (f : Friendship.t) : bool :=
  (String.eqb (Friendship.user_id f) a && String.eqb (Friendship.friend_id f) b)
  || (String.eqb (Friendship.user_id f) b && String.eqb (Friendship.friend_id f) a).

Definition friendship_between (a b : uuid) (st : store) : list Friendship.t :=
  filter (between a b) (friendships st).

Definition is_accepted (s : friendship_status) : bool :=
  match s with accepted => true | _ => false end.

(** [.or(user_id.eq.user, friend_id.eq.user).eq('status', 'accepted')] *)
Definition accepted_friendships (user : uuid) (st : store) : list Friendship.t :=
  filter (fun f => (String.eqb (Friendship.user_id f) user
                    || String.eqb (Friendship.friend_id f) user)
                   && is_accepted (Friendship.status f))
    (friendships st).

(** [Set.add] *)
Definition set_add (x : uuid) (s : list uuid) : list uuid :=
  if mem x s then s else (s ++ [x])%list.

(** [value || 'Unknown'] *)
Definition or_unknown (v : option string) : string :=
  match v with
  | Some s => if str_truthy s then s else "Unknown"
  | None => "Unknown"
  end.

Definition validation_error : toast :=
  Destructive "Validation Error" "Please enter a valid email address".
Definition not_found : toast :=
  Destructive "User Not Found" "No user found with this email address".
Definition invalid_action : toast :=
  Destructive "Invalid Action" "You cannot add yourself as a friend".
Definition already_friends : toast :=
  Destructive "Already Friends" "You are already friends with this user".
(** The notice also names the email. *)
Definition request_sent : toast :=
  Toast "Friend Request Sent" "Friend request sent".
Definition failure_add : toast :=
  Destructive "Error" "Failed to add friend. Please try again.".
Definition failure_load : toast :=
  Destructive "Error" "Failed to load friends".

Section Page.
Variable be : backend.
Variable user : uuid.

Definition other_side (f : Friendship.t) : uuid :=
  if String.eqb (Friendship.user_id f) user
  then Friendship.friend_id f else Friendship.user_id f.

Definition fetchFriends : M unit :=
  try_catch
    (r <- select be (q_accepted_friendships user) (accepted_friendships user) ;;
     match r with
     | Error => throw
     | Data [] => setFriends []
     | Data friendships =>
       let userIds :=
         fold_left (fun ids f =>
                      let ids := if negb (String.eqb (Friendship.user_id f) user)
                                 then set_add (Friendship.user_id f) ids else ids in
                      if negb (String.eqb (Friendship.friend_id f) user)
                      then set_add (Friendship.friend_id f) ids else ids)
                   friendships [] in
       r' <- select be (q_profiles userIds) (SettleUp.profiles_in userIds) ;;
       match r' with
       | Error => throw
       | Data profiles =>
         (* new Map(entries): the last entry of a key is the one kept *)
         let get := fun k => find (fun p => String.eqb (Profile.id p) k) (rev profiles) in
         setFriends
           (map (fun f =>
                   let friendId := other_side f in
                   let profile := get friendId in
                   mk_friend friendId
                     (or_unknown (option_map Profile.full_name profile))
                     (or_unknown (option_map Profile.email profile))
                     0 (Friendship.status f))
                friendships)
       end
     end)
    (show failure_load).

Definition addFriend (newFriendEmail : string) : M unit :=
  if negb (str_truthy (trim newFriendEmail)) then show validation_error
  else
    try_catch
      (r <- select be (q_profile_by_email (trim newFriendEmail))
              (profile_by_email (trim newFriendEmail)) ;;
       (* [.single()]; [profileError || !profileData] *)
       match match r with Data rows => single rows | Error => Error end with
       | Error => show not_found
       | Data profileData =>
         if String.eqb (Profile.id profileData) user then show invalid_action
         else
           r' <- select be (q_friendship_between user (Profile.id profileData))
                   (friendship_between user (Profile.id profileData)) ;;
           (* [.single()]; the error is not looked at *)
           match match r' with Data rows => single rows | Error => Error end with
           | Data existingFriendship => show already_friends
           | Error =>
             r'' <- insert_friendship be
                      (Friendship.mk user (Profile.id profileData) pending) ;;
             match r'' with
             | Error => throw
             | Data _ => show request_sent ;; fetchFriends
             end
           end
       end)
      (show failure_add).
End Page.
End Friends.

(** ** Invariants of the schema *)

(** expenses: PRIMARY KEY (id) *)
Definition primary_key (st : store) : Prop :=
  NoDup (map Expense.id (expenses st)).

(** expense_participants: expense_id REFERENCES expenses(id) *)
Definition foreign_key (st : store) : Prop :=
  Forall (fun p => In (ExpenseParticipant.expense_id p) (map Expense.id (expenses st)))
    (expense_participants st).

(** expense_participants: CHECK (amount_owed >= 0) *)
Definition check_amount_owed (st : store) : Prop :=
  Forall (fun p => 0 <= ExpenseParticipant.amount_owed p) (expense_participants st).

(** friendships: UNIQUE (user_id, friend_id) *)
Definition unique_friendship (st : store) : Prop :=
  distinct same_friendship (friendships st) = true.

(** expense_participants: UNIQUE (expense_id, user_id) *)
Definition unique_participant (st : store) : Prop :=
  distinct same_participant (expense_participants st) = true.

(** The invariants together. *)
Definition consistent (st : store) : Prop :=
  primary_key st /\ foreign_key st /\ check_amount_owed st /\ unique_friendship st
  /\ unique_participant st.

(** A computation keeps a property of the store. *)
Definition preserves (P : store -> Prop) {A} (m : M A) : Prop :=
  forall w, P (db w) -> P (db (snd (m w))).

(** ** What the users do *)

Inductive action :=
| Submit (user : uuid) (selectedGroup : string) (selectedParticipants : list uuid)
    (form : AddExpense.formData)
| Settle (user : uuid) (selectedDebt : option Debt) (settleAmount : number_input)
    (settleDescription : string)
| AddFriend (user : uuid) (newFriendEmail : string).

(** The store after an action, for a rounding and a backend. *)
Definition perform (rnd : arithmetic) (be : backend) (a : action) (st : store) : store :=
  match a with
  | Submit user selectedGroup selectedParticipants form =>
      db (exec (AddExpense.handleSubmit rnd be user selectedGroup selectedParticipants form)
            (initial st))
  | Settle user selectedDebt settleAmount settleDescription =>
      db (exec (SettleUp.handleSettle rnd be user selectedDebt settleAmount settleDescription)
            (initial st))
  | AddFriend user newFriendEmail =>
      db (exec (Friends.addFriend be user newFriendEmail) (initial st))
  end.

(** The stores the pages can lead to from [st0]. *)
Inductive reachable (st0 : store) : store -> Prop :=
| reach_start : reachable st0 st0
| reach_step rnd be a st : reachable st0 st -> reachable st0 (perform rnd be a st).

(** ** The sums of the specification *)

Module Spec.
Import ExpenseParticipant.

(** Sum of [amount_owed] over rows, in exact arithmetic. *)
Definition sum_owed (rows : list ExpenseParticipant.t) : Q :=
  fold_right (fun p acc => amount_owed p + acc) 0 rows.

(** Is the parent expense of the row paid by [k]? *)
Definition paid_by (st : store) (p : ExpenseParticipant.t) (k : uuid) : bool :=
  match find_expense st (expense_id p) with
  | Some e => String.eqb (Expense.paid_by e) k
  | None => false
  end.

(** Is the parent expense of the row paid by someone other than [k]? *)
Definition paid_by_not (st : store) (p : ExpenseParticipant.t) (k : uuid) : bool :=
  match find_expense st (expense_id p) with
  | Some e => negb (String.eqb (Expense.paid_by e) k)
  | None => false
  end.

(** Sum of amount_owed where user_id = self and is_settled = false. *)
Definition total_owed (self : uuid) (st : store) : Q :=
  sum_owed (filter (fun p => String.eqb (user_id p) self && negb (is_settled p))
              (expense_participants st)).

(** Sum of amount_owed where user_id = self, the expense's paid_by is not
    self, and is_settled = false. *)
Definition total_owing (self : uuid) (st : store) : Q :=
  sum_owed (filter (fun p => String.eqb (user_id p) self
                             && paid_by_not st p self
                             && negb (is_settled p))
              (expense_participants st)).

(** Sum of the user's own unsettled shares of the expenses the user paid. *)
Definition own_shares (self : uuid) (st : store) : Q :=
  sum_owed (filter (fun p => String.eqb (user_id p) self
                             && paid_by st p self
                             && negb (is_settled p))
              (expense_participants st)).

(** What [self] owes to [k]: unsettled shares of [self] in expenses paid by [k]. *)
Definition owes_to (self k : uuid) (st : store) : Q :=
  sum_owed (filter (fun p => String.eqb (user_id p) self
                             && paid_by st p k
                             && negb (is_settled p))
              (expense_participants st)).

(** What [k] owes to [self]: unsettled shares of [k] in expenses paid by [self]. *)
Definition owed_by (self k : uuid) (st : store) : Q :=
  sum_owed (filter (fun p => String.eqb (user_id p) k
                             && paid_by st p self
                             && negb (is_settled p))
              (expense_participants st)).
End Spec.

(** ** Computations that only read *)

(** A computation is read-only when it leaves the store as it is and sends
    no write. *)
Definition read_only {A} (m : M A) : Prop :=
  forall w, db (snd (m w)) = db w
            /\ filter is_write (issued (snd (m w))) = filter is_write (issued w).

(** What the store answers to a read. *)
Definition answer {A} (be : backend) (q : query) (rows : A) : response A :=
  if serves be (Select q) then Data rows else Error.

(** The store after a settlement row is appended. *)
Definition with_settlement (st : store) (row : Settlement.t) : store :=
  mk_store (profiles st) (groups st) (expenses st) (expense_participants st)
    (settlements st ++ [row]) (friendships st).

(** The look-up of an existing friendship between [user] and [t] did not
    answer with one row. *)
Definition unchecked (be : backend) (user t : uuid) (st : store) : Prop :=
  serves be (Select (q_friendship_between user t)) = false
  \/ forall existing, Friends.friendship_between user t st <> [existing].

(** The log of requests only grows. *)
Definition logs {A} (m : M A) : Prop :=
  forall w, exists l, issued (snd (m w)) = (issued w ++ l)%list.

(** ** The two passes of the settle-up page as contributions *)

(** profiles: is there a profile of [k]? *)
Definition has_profile (st : store) (k : uuid) : bool :=
  existsb (fun p => String.eqb (Profile.id p) k) (profiles st).

(** What one row adds to the map: whose entry, how much, the group shown. *)
Definition contribution := (Profile.t * Q * option string)%type.

Definition who (c : contribution) : uuid := Profile.id (fst (fst c)).
Definition how_much (c : contribution) : Q := snd (fst c).

(** The contributions of a pass, in the order of its rows. *)
Definition contributions {A} (f : A -> option contribution) (items : list A) : list contribution :=
  flat_map (fun item => match f item with Some c => [c] | None => [] end) items.

(** What a row of the first pass contributes: its amount, to the payer. *)
Definition owes_contribution (expenseData : list SettleUp.expense_row)
    (payerData : list Profile.t) (debtItem : ExpenseParticipant.t) : option contribution :=
  match find (fun e => String.eqb (Expense.id (fst e)) (ExpenseParticipant.expense_id debtItem))
          expenseData with
  | None => None
  | Some expense =>
    match find (fun p => String.eqb (Profile.id p) (Expense.paid_by (fst expense))) payerData with
    | None => None
    | Some payer => Some (payer, ExpenseParticipant.amount_owed debtItem, snd expense)
    end
  end.

(** What a row of the second pass contributes: minus its amount, to the
    participant. *)
Definition owed_contribution (userExpenseData : list SettleUp.expense_row)
    (participantData : list Profile.t) (owedItem : ExpenseParticipant.t) : option contribution :=
  match find (fun e => String.eqb (Expense.id (fst e)) (ExpenseParticipant.expense_id owedItem))
          userExpenseData with
  | None => None
  | Some expense =>
    match find (fun p => String.eqb (Profile.id p) (ExpenseParticipant.user_id owedItem))
            participantData with
    | None => None
    | Some participant =>
        Some (participant, js_neg (ExpenseParticipant.amount_owed owedItem), snd expense)
    end
  end.

(** Merging one contribution. *)
Definition contribute (rnd : arithmetic) (m : SettleUp.debt_map) (c : contribution)
    : SettleUp.debt_map :=
  SettleUp.merge rnd (fst (fst c)) (how_much c) (snd c) m.

Definition find_profile (st : store) (k : uuid) : option Profile.t :=
  find (fun p => String.eqb (Profile.id p) k) (profiles st).

(** The contribution of a row of the first pass, read off the store. *)
Definition owes (user : uuid) (st : store) (p : ExpenseParticipant.t) : option contribution :=
  match find_expense st (ExpenseParticipant.expense_id p) with
  | Some e =>
      if negb (String.eqb (Expense.paid_by e) user) then
        match find_profile st (Expense.paid_by e) with
        | Some payer => Some (payer, ExpenseParticipant.amount_owed p, SettleUp.group_name_of st e)
        | None => None
        end
      else None
  | None => None
  end.

(** The contribution of a row of the second pass, read off the store. *)
Definition owed (user : uuid) (st : store) (p : ExpenseParticipant.t) : option contribution :=
  match find_expense st (ExpenseParticipant.expense_id p) with
  | Some e =>
      if String.eqb (Expense.paid_by e) user then
        match find_profile st (ExpenseParticipant.user_id p) with
        | Some participant =>
            Some (participant, js_neg (ExpenseParticipant.amount_owed p),
                  SettleUp.group_name_of st e)
        | None => None
        end
      else None
  | None => None
  end.

(** The map after the two passes. *)
Definition netted (rnd : arithmetic) (user : uuid) (st : store) : SettleUp.debt_map :=
  fold_left (contribute rnd)
    (contributions (owes user st) (SettleUp.debt_rows user st)
     ++ contributions (owed user st) (SettleUp.unsettled_rows st))
    [].

(** Sum of the contributions made to the entry of [k]. *)
Definition sum_for (k : uuid) (cs : list contribution) : Q :=
  fold_right (fun c acc => if String.eqb (who c) k then how_much c + acc else acc) 0 cs.

(** The amount the map holds for [k], [0] without an entry. *)
Definition amount_at (k : uuid) (m : SettleUp.debt_map) : Q :=
  match find (fun kv => String.eqb (fst kv) k) m with
  | Some kv => debt_amount (snd kv)
  | None => 0
  end.

(** Keys are unique and every entry is filed under its own [user_id]. *)
Definition well_keyed (m : SettleUp.debt_map) : Prop :=
  NoDup (map fst m) /\ Forall (fun kv => debt_user_id (snd kv) = fst kv) m.

(** ** Sums of floating-point shares *)

(** The sum as [reduce((sum, item) => sum + item.amount_owed, 0)] computes
    it, every addition rounded. *)
Definition js_sum (rnd : arithmetic) (rows : list ExpenseParticipant.t) : Q :=
  fold_left (fun sum item => js_add rnd sum (ExpenseParticipant.amount_owed item)) rows 0.

(** The rounding has relative error at most [u]. *)
Definition relative_error (rnd : arithmetic) (u : Q) : Prop :=
  0 <= u /\ forall x, Qabs (rnd x - x) <= u * Qabs x.

(** ** Sample data *)

Definition always : backend := mk_backend (fun _ => true) "e1".

(** Two expenses: [e1] paid by v with a share of u, [e2] paid by u with a
    share of v and a share of u. *)
Definition ledger : store :=
  mk_store
    [Profile.mk "u" "Uma" "u@example.org"; Profile.mk "v" "Vik" "v@example.org"]
    []
    [Expense.mk "e1" "Taxi" 50 "2025-01-01" None "v";
     Expense.mk "e2" "Hotel" 70 "2025-01-01" None "u"]
    [ExpenseParticipant.mk "e1" "u" 50 false;
     ExpenseParticipant.mk "e2" "v" 50 false;
     ExpenseParticipant.mk "e2" "u" 20 false]
    [] [].

(** A flat shared by u, v and w, with nothing on the ledger yet. *)
Definition household : store :=
  mk_store
    [Profile.mk "u" "Uma" "u@example.org"; Profile.mk "v" "Vik" "v@example.org";
     Profile.mk "w" "Wen" "w@example.org"]
    [Group.mk "g" "Flat"]
    [] [] [] [].

Definition dinner : AddExpense.formData :=
  AddExpense.mk_form "Dinner" (Some 300) "2025-01-01" "g".

(** A form whose amount field holds [0]. *)
Definition free_lunch : AddExpense.formData :=
  AddExpense.mk_form "Lunch" (Some 0) "2025-01-02" "g".

(** A backend that loses every write to expense_participants. *)
Definition drops_participants : backend :=
  mk_backend (fun r => match r with InsertExpenseParticipants _ => false | _ => true end) "e1".

(** u and v are already linked, from v to u. *)
Definition circle : store :=
  mk_store
    [Profile.mk "u" "Uma" "u@example.org"; Profile.mk "v" "Vik" "v@example.org";
     Profile.mk "w" "Wen" "w@example.org"]
    [] [] [] []
    [Friendship.mk "v" "u" accepted].

(** u owes v 50 for a taxi v paid. *)
Definition taxi : store :=
  mk_store
    [Profile.mk "u" "Uma" "u@example.org"; Profile.mk "v" "Vik" "v@example.org"]
    []
    [Expense.mk "e1" "Taxi" 100 "2025-01-01" None "v"]
    [ExpenseParticipant.mk "e1" "u" 50 false;
     ExpenseParticipant.mk "e1" "v" 50 false]
    [] [].

(** u owes v 50 for the taxi and v owes u 50 for a lunch u paid. *)
Definition taxi_and_lunch : store :=
  mk_store
    [Profile.mk "u" "Uma" "u@example.org"; Profile.mk "v" "Vik" "v@example.org"]
    []
    [Expense.mk "e1" "Taxi" 50 "2025-01-01" None "v";
     Expense.mk "e2" "Lunch" 50 "2025-01-02" None "u"]
    [ExpenseParticipant.mk "e1" "u" 50 false;
     ExpenseParticipant.mk "e2" "v" 50 false]
    [] [].

(** * The rest of the pages

    What the pages above do besides the ledger arithmetic: the selection
    of participants, what the settle-up list offers, and the pages around
    the groups (their members, their creation, the activity feed). *)

(** ** Comparisons of numbers *)

(** [x > 0] *)
Definition js_gt0 (x : number) : bool := negb (Qle_bool x 0).
(** [x < 0] *)
Definition js_lt0 (x : number) : bool := negb (Qle_bool 0 x).
(** [Math.abs(x)] *)
Definition Math_abs (x : number) : number := Qabs x.

(** ** src/pages/SettleUp.tsx: the rows of "Current Balances" *)

Module SettleUpView.
(** The badge of a row: [debt.amount > 0 ? 'You are owed' : 'You owe']. *)
Definition badge (debt : Debt) : string :=
  if js_gt0 (debt_amount debt) then "You are owed" else "You owe".

(** The "Settle Up" button of a row is rendered when [debt.amount < 0]; its
    click selects the debt and fills the amount field with
    [Math.abs(debt.amount)].  [None]: the row has no button. *)
Definition settle_up_click (debt : Debt) : option (Debt * number_input) :=
  if js_lt0 (debt_amount debt)
  then Some (debt, Some (Math_abs (debt_amount debt)))
  else None.
End SettleUpView.

(** ** Invariants of the ledger the pages keep *)

(** No share is marked as settled. *)
Definition all_unsettled (st : store) : Prop :=
  Forall (fun p => ExpenseParticipant.is_settled p = false) (expense_participants st).

(** The shares of one expense are equal. *)
Definition equal_shares (st : store) : Prop :=
  forall p q, In p (expense_participants st) -> In q (expense_participants st) ->
    ExpenseParticipant.expense_id p = ExpenseParticipant.expense_id q ->
    ExpenseParticipant.amount_owed p = ExpenseParticipant.amount_owed q.

(** A string of white space only. *)
Fixpoint blank (s : string) : bool :=
  match s with
  | String c s' => is_space c && blank s'
  | EmptyString => true
  end.

(** ** More sample data *)

(** v owes u 50 for a lunch u paid. *)
Definition lunch : store :=
  mk_store
    [Profile.mk "u" "Uma" "u@example.org"; Profile.mk "v" "Vik" "v@example.org"]
    []
    [Expense.mk "e2" "Lunch" 50 "2025-01-02" None "u"]
    [ExpenseParticipant.mk "e2" "v" 50 false]
    [] [].

(** * The pages around the groups

    The group list and member list of the add-expense page, the groups
    page, the activity page and the rest of the dashboard read and write
    the tables groups, group_members and activities besides the ledger.

    Conventions, besides the ones above.

    - [Site.t] is the whole database; [Site.ledger] is the part of it the
      ledger pages above work on.
    - A page keeps a state of its own (its [useState] variables); a
      handler runs in a [browser] that holds the database, the requests
      sent, the notices shown and that state.
    - [accepts] says which requests the backend serves.  The policies of
      row-level security that refuse a request are part of it; the one
      policy a read relies on to choose its rows (the groups a user may
      see) is applied by the read itself.
    - Rows are kept in insertion order, and [created_at] orders them the
      same way. *)

(** ** Tables (supabase/migrations) *)

Module GroupRow.
Record t := mk { id : uuid; name : string; description : string; created_by : uuid }.
End GroupRow.

Module GroupMember.
Record t := mk { group_id : uuid; user_id : uuid }.
End GroupMember.

Module ActivityRow.
Record t := mk {
  user_id : uuid;
  activity_type : string;
  description : string;
  group_id : option uuid
}.
End ActivityRow.

Module Site.
Record t := mk {
  profiles : list Profile.t;
  groups : list GroupRow.t;
  group_members : list GroupMember.t;
  friendships : list Friendship.t;
  expenses : list Expense.t;
  expense_participants : list ExpenseParticipant.t;
  settlements : list Settlement.t;
  activities : list ActivityRow.t
}.

(** [select('id, name')] of a group. *)
Definition id_name (g : GroupRow.t) : Group.t := Group.mk (GroupRow.id g) (GroupRow.name g).

(** The tables of the ledger pages. *)
Definition ledger (s : t) : store :=
  mk_store (profiles s) (map id_name (groups s)) (expenses s) (expense_participants s)
    (settlements s) (friendships s).
End Site.

(** group_members: group_id REFERENCES groups(id), UNIQUE (group_id, user_id) *)
Definition same_member (m n : GroupMember.t) : bool :=
  String.eqb (GroupMember.group_id m) (GroupMember.group_id n)
  && String.eqb (GroupMember.user_id m) (GroupMember.user_id n).

Definition group_ok (s : Site.t) (g : GroupRow.t) : bool :=
  negb (mem (GroupRow.id g) (map GroupRow.id (Site.groups s))).

Definition member_ok (s : Site.t) (m : GroupMember.t) : bool :=
  mem (GroupMember.group_id m) (map GroupRow.id (Site.groups s))
  && negb (existsb (same_member m) (Site.group_members s)).

(** activities: CHECK (activity_type IN (...)), group_id REFERENCES groups(id) *)
Definition activity_types : list string :=
  ["expense_added"; "expense_updated"; "expense_deleted"; "group_created"; "member_added";
   "settlement_made"].

Definition activity_ok (s : Site.t) (a : ActivityRow.t) : bool :=
  mem (ActivityRow.activity_type a) activity_types
  && match ActivityRow.group_id a with
     | Some g => mem g (map GroupRow.id (Site.groups s))
     | None => true
     end.

(** ** Lists of ids on the wire *)

(** [ids.join(',')] *)
Fixpoint join (ids : list string) : string :=
  match ids with
  | [] => ""
  | [x] => x
  | x :: rest => x ++ "," ++ join rest
  end.

Definition is_comma (c : ascii) : bool := Ascii.eqb c ","%char.

(** The items of [in.(a,b,c)], read from the text between the brackets:
    [cur] is the item being read. *)
Fixpoint items (s : string) (cur : string) : list string :=
  match s with
  | EmptyString => match cur with EmptyString => [] | _ => [cur] end
  | String c s' =>
      if is_comma c then cur :: items s' EmptyString
      else items s' (cur ++ String c EmptyString)
  end.

Definition in_list (text : string) : list string := items text EmptyString.

(** An id that can be listed: not empty, without a comma. *)
Fixpoint no_comma (s : string) : bool :=
  match s with
  | EmptyString => true
  | String c s' => negb (is_comma c) && no_comma s'
  end.

Definition listable (id : string) : Prop := id <> "" /\ no_comma id = true.

(** ** Requests and the backend *)

Inductive call :=
| Ledger (r : request)
| SelectGroupsCount
| SelectGroupIds (user : uuid)
| SelectGroups (ids : list uuid)
| SelectUserIds (group : uuid)
| SelectGroupCards (user : uuid)
| SelectFeed (user : uuid) (groupIds : string) (limit : nat)
| CountGroups (user : uuid)
| InsertGroup (name description : string) (created_by : uuid)
| InsertGroupMember (row : GroupMember.t)
| InsertActivity (row : ActivityRow.t).

Definition is_insert (c : call) : bool :=
  match c with
  | Ledger r => is_write r
  | InsertGroup _ _ _ | InsertGroupMember _ | InsertActivity _ => true
  | _ => false
  end.

Record service := mk_service {
  (** does the backend serve the request (transport, authorization)? *)
  accepts : call -> bool;
  (** the [gen_random_uuid()] drawn for the group row of an insert *)
  group_uuid : uuid
}.

(** ** A page and its state *)

Record browser (S : Type) := mk_browser {
  remote : Site.t;         (* the database *)
  sent : list call;        (* requests, oldest first *)
  notices : list toast;    (* notices shown, oldest first *)
  page : S                 (* the page's useState variables *)
}.
Arguments mk_browser {S} remote sent notices page.
Arguments remote {S} b.
Arguments sent {S} b.
Arguments notices {S} b.
Arguments page {S} b.

Definition open {S} (s : Site.t) (initialState : S) : browser S :=
  mk_browser s [] [] initialState.

(** Computations of a handler of such a page. *)
Definition PageM (S A : Type) := browser S -> result A * browser S.

Module Page.
Section State.
Context {S : Type}.

Definition ret {A} (a : A) : PageM S A := fun b => (Return a, b).

Definition bind {A B} (m : PageM S A) (k : A -> PageM S B) : PageM S B :=
  fun b => match m b with
           | (Return a, b') => k a b'
           | (Throw, b') => (Throw, b')
           end.

Definition throw {A} : PageM S A := fun b => (Throw, b).

(** [try { body } catch { handler }] *)
Definition try_catch (body handler : PageM S unit) : PageM S unit :=
  fun b => match body b with
           | (Return a, b') => (Return a, b')
           | (Throw, b') => handler b'
           end.

Definition exec {A} (m : PageM S A) (b : browser S) : browser S := snd (m b).

(** A [useState] setter. *)
Definition set (f : S -> S) : PageM S unit :=
  fun b => (Return tt, mk_browser (remote b) (sent b) (notices b) (f (page b))).

Definition show (t : toast) : PageM S unit :=
  fun b => (Return tt, mk_browser (remote b) (sent b) (notices b ++ [t]) (page b)).

Definition send (c : call) (b : browser S) : browser S :=
  mk_browser (remote b) (sent b ++ [c]) (notices b) (page b).

(** A read: the request is sent; when served, the rows the database holds. *)
Definition select {A} (sv : service) (c : call) (rows : Site.t -> A) : PageM S (response A) :=
  fun b =>
    let b1 := send c b in
    if accepts sv c then (Return (Data (rows (remote b))), b1)
    else (Return Error, b1).

(** A write: the request is sent; the database applies it when the backend
    serves it and the constraints hold, and answers with an error
    otherwise. *)
Definition insert {A} (sv : service) (c : call) (apply : Site.t -> option (A * Site.t))
    : PageM S (response A) :=
  fun b =>
    let b1 := send c b in
    if accepts sv c then
      match apply (remote b) with
      | Some (a, s') => (Return (Data a), mk_browser s' (sent b1) (notices b1) (page b1))
      | None => (Return Error, b1)
      end
    else (Return Error, b1).
End State.
End Page.

Declare Scope page_scope.
Delimit Scope page_scope with page.
Notation "x <- m ;; k" := (Page.bind m (fun x => k))
  (at level 61, m at next level, right associativity) : page_scope.
Notation "m ;; k" := (Page.bind m (fun _ => k))
  (at level 61, right associativity) : page_scope.

(** ** Reads of the group tables *)

(** group_members: [.eq('user_id', user)] *)
Definition memberships (user : uuid) (s : Site.t) : list GroupMember.t :=
  filter (fun m => String.eqb (GroupMember.user_id m) user) (Site.group_members s).

(** group_members: [.eq('group_id', group)] *)
Definition members_of (group : uuid) (s : Site.t) : list GroupMember.t :=
  filter (fun m => String.eqb (GroupMember.group_id m) group) (Site.group_members s).

(** groups: [.select('id, name').in('id', ids)] *)
Definition groups_in (ids : list uuid) (s : Site.t) : list Group.t :=
  map Site.id_name (filter (fun g => mem (GroupRow.id g) ids) (Site.groups s)).

(** ** src/pages/AddExpense.tsx: the groups and the members *)

Module AddExpensePage.
Record state := mk_state {
  groups : list Group.t;
  selectedGroup : string;
  groupMembers : list Profile.t;
  selectedParticipants : list uuid;
  formData : AddExpense.formData
}.

(** The state of the page when it mounts. *)
Definition mounted (today : string) : state :=
  mk_state [] "" [] [] (AddExpense.mk_form "" None today "").

Definition setGroups (g : list Group.t) (st : state) : state :=
  mk_state g (selectedGroup st) (groupMembers st) (selectedParticipants st) (formData st).
Definition setSelectedGroup (g : string) (st : state) : state :=
  mk_state (groups st) g (groupMembers st) (selectedParticipants st) (formData st).
Definition setGroupMembers (m : list Profile.t) (st : state) : state :=
  mk_state (groups st) (selectedGroup st) m (selectedParticipants st) (formData st).
Definition setSelectedParticipants (f : list uuid -> list uuid) (st : state) : state :=
  mk_state (groups st) (selectedGroup st) (groupMembers st) (f (selectedParticipants st))
    (formData st).
Definition setFormData (f : AddExpense.formData -> AddExpense.formData) (st : state) : state :=
  mk_state (groups st) (selectedGroup st) (groupMembers st) (selectedParticipants st)
    (f (formData st)).

Definition failure_members : toast :=
  Destructive "Error" "Failed to load group members".

Section Page.
Variable sv : service.
Variable user : uuid.
Local Open Scope page_scope.

(** Every failure ends in [setGroups([])], without a notice.  The first
    request only tests the connection; its answer is logged and dropped. *)
Definition fetchUserGroups : PageM state unit :=
  Page.try_catch
    (_ <- Page.select sv SelectGroupsCount (fun _ => tt) ;;
     r <- Page.select sv (SelectGroupIds user) (memberships user) ;;
     match r with
     | Error => Page.set (setGroups [])
     | Data [] => Page.set (setGroups [])
     | Data memberData =>
       let groupIds := map GroupMember.group_id memberData in
       r' <- Page.select sv (SelectGroups groupIds) (groups_in groupIds) ;;
       match r' with
       | Error => Page.set (setGroups [])
       | Data groupData =>
         let userGroups := map (fun group => Group.mk (Group.id group) (Group.name group))
                             groupData in
         Page.set (setGroups userGroups)
       end
     end)
    (Page.set (setGroups [])).

Definition fetchGroupMembers (groupId : string) : PageM state unit :=
  Page.try_catch
    (r <- Page.select sv (SelectUserIds groupId) (members_of groupId) ;;
     match r with
     | Error => Page.throw
     | Data [] => Page.set (setGroupMembers [])
     | Data memberData =>
       let userIds := map GroupMember.user_id memberData in
       r' <- Page.select sv (Ledger (Select (q_profiles userIds)))
               (fun s => SettleUp.profiles_in userIds (Site.ledger s)) ;;
       match r' with
       | Error => Page.throw
       | Data profileData =>
         let members := map (fun profile => Profile.mk (Profile.id profile)
                                              (Profile.full_name profile) (Profile.email profile))
                          profileData in
         Page.set (setGroupMembers members) ;;
         (* Auto-select all members including current user *)
         let memberIds := map Profile.id members in
         Page.set (setSelectedParticipants (fun _ => memberIds))
       end
     end)
    (Page.show failure_members).

(** [handleGroupChange] *)
Definition handleGroupChange (groupId : string) : PageM state unit :=
  Page.set (setSelectedGroup groupId) ;;
  Page.set (setFormData (fun prev =>
              AddExpense.mk_form (AddExpense.description prev) (AddExpense.amount prev)
                (AddExpense.expenseDate prev) groupId)).

(** The effect on [selectedGroup]: it runs after a render in which the
    selected group has changed. *)
Definition selectedGroup_effect : PageM state unit :=
  fun b =>
    if str_truthy (selectedGroup (page b))
    then fetchGroupMembers (selectedGroup (page b)) b
    else Page.ret tt b.

(** Choosing a group in the select box: the handler, then the effect. *)
Definition chooseGroup (groupId : string) : PageM state unit :=
  handleGroupChange groupId ;; selectedGroup_effect.

(** [toggleParticipant], as the update of the state. *)
Definition toggleParticipant (participantId : uuid) : PageM state unit :=
  Page.set (setSelectedParticipants (fun prev => AddExpense.toggleParticipant prev participantId)).
End Page.
End AddExpensePage.

(** ** The groups page *)

Module GroupsPage.
(** A card of the page: [interface Group], without its date. *)
Record Group := mk_group {
  id : uuid;
  name : string;
  description : string;
  member_count : number;
  total_expenses : number
}.

(** A row of the read of [fetchGroups]: the group with its embedded
    [group_members(count)] and [expenses(amount)]. *)
Record card_row := mk_card_row {
  group : GroupRow.t;
  group_members_count : list nat;
  expenses_amount : list number
}.

Record state := mk_state {
  groups : list Group;
  newGroup : string * string;     (* name, description *)
  isCreateDialogOpen : bool
}.

Definition setGroups (g : list Group) (st : state) : state :=
  mk_state g (newGroup st) (isCreateDialogOpen st).
Definition setNewGroup (n : string * string) (st : state) : state :=
  mk_state (groups st) n (isCreateDialogOpen st).
Definition setIsCreateDialogOpen (o : bool) (st : state) : state :=
  mk_state (groups st) (newGroup st) o.

(** groups, policy "Users can view groups they belong to": the rows of a
    group are visible to its members. *)
Definition visible (user : uuid) (s : Site.t) (g : GroupRow.t) : bool :=
  existsb (fun m => String.eqb (GroupMember.group_id m) (GroupRow.id g)
                    && String.eqb (GroupMember.user_id m) user)
    (Site.group_members s).

(** [.select('..., group_members(count), expenses(amount)')
     .eq('group_members.user_id', user)]: the filter is on the embedded
    group_members, whose rows are counted. *)
Definition group_cards (user : uuid) (s : Site.t) : list card_row :=
  map (fun g =>
         mk_card_row g
           [List.length
              (filter (fun m => String.eqb (GroupMember.group_id m) (GroupRow.id g)
                                && String.eqb (GroupMember.user_id m) user)
                 (Site.group_members s))]
           (map Expense.amount
              (filter (fun e => match Expense.group_id e with
                                | Some i => String.eqb i (GroupRow.id g)
                                | None => false
                                end)
                 (Site.expenses s))))
    (filter (visible user s) (Site.groups s)).

Definition failure_load : toast := Destructive "Error" "Failed to load groups".
Definition name_required : toast := Destructive "Error" "Group name is required".
Definition success : toast := Toast "Success" "Group created successfully!".
Definition failure_create : toast := Destructive "Error" "Failed to create group".

Section Page.
Variable rnd : arithmetic.
Variable sv : service.
Variable user : uuid.
Local Open Scope page_scope.

(** [(group.group_members as any)[0]?.count || 0] *)
Definition member_count_of (row : card_row) : number :=
  match group_members_count row with
  | count :: _ => js_or0 (of_length count)
  | [] => 0
  end.

(** [group.expenses?.reduce((sum, expense) => sum + Number(expense.amount), 0) || 0] *)
Definition total_expenses_of (row : card_row) : number :=
  js_or0 (fold_left (fun sum amount => js_add rnd sum amount) (expenses_amount row) 0).

(** [group.description || ''] is the description. *)
Definition fetchGroups : PageM state unit :=
  Page.try_catch
    (r <- Page.select sv (SelectGroupCards user) (group_cards user) ;;
     match r with
     | Error => Page.throw
     | Data data =>
       let formattedGroups :=
         map (fun row => mk_group (GroupRow.id (group row)) (GroupRow.name (group row))
                           (GroupRow.description (group row))
                           (member_count_of row) (total_expenses_of row))
           data in
       Page.set (setGroups formattedGroups)
     end)
    (Page.show failure_load).

(** [.from('groups').insert({...}).select().single()] *)
Definition insert_group (name description : string) (created_by : uuid)
    : PageM state (response GroupRow.t) :=
  Page.insert sv (InsertGroup name description created_by)
    (fun s =>
       let g := GroupRow.mk (group_uuid sv) name description created_by in
       if group_ok s g then
         Some (g, Site.mk (Site.profiles s) (Site.groups s ++ [g]) (Site.group_members s)
                    (Site.friendships s) (Site.expenses s) (Site.expense_participants s)
                    (Site.settlements s) (Site.activities s))
       else None).

(** [.from('group_members').insert(row)] *)
Definition insert_group_member (row : GroupMember.t) : PageM state (response unit) :=
  Page.insert sv (InsertGroupMember row)
    (fun s =>
       if member_ok s row then
         Some (tt, Site.mk (Site.profiles s) (Site.groups s) (Site.group_members s ++ [row])
                     (Site.friendships s) (Site.expenses s) (Site.expense_participants s)
                     (Site.settlements s) (Site.activities s))
       else None).

(** [.from('activities').insert(row)] *)
Definition insert_activity (row : ActivityRow.t) : PageM state (response unit) :=
  Page.insert sv (InsertActivity row)
    (fun s =>
       if activity_ok s row then
         Some (tt, Site.mk (Site.profiles s) (Site.groups s) (Site.group_members s)
                     (Site.friendships s) (Site.expenses s) (Site.expense_participants s)
                     (Site.settlements s) (Site.activities s ++ [row]))
       else None).

(** [`Created group "${newGroup.name}"`] *)
Definition created_group (name : string) : string :=
  let quote := ascii_of_nat 34 in
  "Created group " ++ String quote (name ++ String quote "").

Definition handleCreateGroup (name description : string) : PageM state unit :=
  if negb (str_truthy (trim name)) then Page.show name_required
  else
    Page.try_catch
      (r <- insert_group (trim name) (trim description) user ;;
       match r with
       | Error => Page.throw
       | Data groupData =>
         (* Add creator as first member *)
         r' <- insert_group_member (GroupMember.mk (GroupRow.id groupData) user) ;;
         match r' with
         | Error => Page.throw
         | Data _ =>
           (* Create activity log: the answer is not looked at *)
           _ <- insert_activity
                  (ActivityRow.mk user "group_created" (created_group name)
                     (Some (GroupRow.id groupData))) ;;
           Page.show success ;;
           Page.set (setNewGroup ("", "")) ;;
           Page.set (setIsCreateDialogOpen false) ;;
           fetchGroups
         end
       end)
      (Page.show failure_create).
End Page.
End GroupsPage.

(** ** The feed of expenses (activity page, dashboard) *)

(** A row of the feed: the expense with its embedded [groups(name)] and
    [profiles(full_name)]. *)
Record feed_row := mk_feed_row {
  feed_expense : Expense.t;
  feed_group_name : option string;
  feed_payer_name : option string
}.

Definition group_name_in (s : Site.t) (e : Expense.t) : option string :=
  match Expense.group_id e with
  | Some g => option_map GroupRow.name
                (find (fun gr => String.eqb (GroupRow.id gr) g) (Site.groups s))
  | None => None
  end.

Definition payer_name_in (s : Site.t) (e : Expense.t) : option string :=
  option_map Profile.full_name
    (find (fun p => String.eqb (Profile.id p) (Expense.paid_by e)) (Site.profiles s)).

(** [.or(paid_by.eq.user, group_id.in.(groupIds))] *)
Definition in_feed (user : uuid) (groupIds : string) (e : Expense.t) : bool :=
  String.eqb (Expense.paid_by e) user
  || match Expense.group_id e with
     | Some g => mem g (in_list groupIds)
     | None => false
     end.

(** [.order('created_at', { ascending: false }).limit(limit)] *)
Definition feed (user : uuid) (groupIds : string) (limit : nat) (s : Site.t) : list feed_row :=
  map (fun e => mk_feed_row e (group_name_in s e) (payer_name_in s e))
    (firstn limit (rev (filter (in_feed user groupIds) (Site.expenses s)))).

(** What the pages keep of a row; [paid_by_name] is
    [expense.profiles?.full_name || 'Unknown']. *)
Record FeedItem := mk_feed_item {
  item_id : uuid;
  item_description : string;
  item_amount : number;
  item_expense_date : string;
  item_group_name : option string;
  item_paid_by_name : string
}.

Definition format_feed (expenses : list feed_row) : list FeedItem :=
  map (fun expense =>
         mk_feed_item (Expense.id (feed_expense expense))
           (Expense.description (feed_expense expense))
           (Expense.amount (feed_expense expense))
           (Expense.expense_date (feed_expense expense))
           (feed_group_name expense)
           (Friends.or_unknown (feed_payer_name expense)))
    expenses.

(** ** The activity page *)

Module ActivityPage.
(** [activities]; every item has [activity_type: 'expense_added']. *)
Definition state := list FeedItem.

Definition failure_load : toast := Destructive "Error" "Failed to load activity data".

Section Page.
Variable sv : service.
Variable user : uuid.
Local Open Scope page_scope.

Definition fetchActivities : PageM state unit :=
  Page.try_catch
    ((* Get user's group IDs: the error is not looked at *)
     groupData <- Page.select sv (SelectGroupIds user) (memberships user) ;;
     let groupIds := match groupData with
                     | Data rows => map GroupMember.group_id rows
                     | Error => []
                     end in
     r <- Page.select sv (SelectFeed user (join groupIds) 50) (feed user (join groupIds) 50) ;;
     match r with
     | Error => Page.throw
     | Data expenses => Page.set (fun _ => format_feed expenses)
     end)
    (Page.show failure_load).
End Page.
End ActivityPage.

(** ** The dashboard page, in full *)

Module DashboardPage.
Record state := mk_state {
  balances : Balance;
  recentExpenses : list FeedItem;
  groupCount : nat
}.

(** The state of the page when it mounts. *)
Definition mounted : state := mk_state (mk_balance 0 0 0) [] 0.

Definition setBalances (b : Balance) (st : state) : state :=
  mk_state b (recentExpenses st) (groupCount st).
Definition setRecentExpenses (r : list FeedItem) (st : state) : state :=
  mk_state (balances st) r (groupCount st).
Definition setGroupCount (n : nat) (st : state) : state :=
  mk_state (balances st) (recentExpenses st) n.

Definition failure_load : toast := Destructive "Error" "Failed to load dashboard data".

(** [.select('*', { count: 'exact', head: true }).eq('user_id', user)] *)
Definition group_count (user : uuid) (s : Site.t) : nat :=
  List.length (memberships user s).

Section Page.
Variable rnd : arithmetic.
Variable sv : service.
Variable user : uuid.
Local Open Scope page_scope.

(** [data?.map(item => item.group_id).join(',') || ''] *)
Definition getUserGroupIds : PageM state string :=
  data <- Page.select sv (SelectGroupIds user) (memberships user) ;;
  Page.ret match data with
           | Data rows => join (map GroupMember.group_id rows)
           | Error => ""
           end.

(** No answer is looked at for its error: a read that fails counts as
    no rows. *)
Definition fetchDashboardData : PageM state unit :=
  Page.try_catch
    (owedData <- Page.select sv (Ledger (Select (q_owed user)))
                   (fun s => Dashboard.owed_rows user (Site.ledger s)) ;;
     owingData <- Page.select sv (Ledger (Select (q_owing user)))
                    (fun s => Dashboard.owing_rows user (Site.ledger s)) ;;
     let totalOwed := Dashboard.total rnd owedData in
     let totalOwing := Dashboard.total rnd owingData in
     Page.set (setBalances (mk_balance totalOwed totalOwing (js_sub rnd totalOwed totalOwing))) ;;
     userGroupIds <- getUserGroupIds ;;
     expenses <- Page.select sv (SelectFeed user userGroupIds 5) (feed user userGroupIds 5) ;;
     let formattedExpenses := match expenses with
                              | Data rows => format_feed rows
                              | Error => []
                              end in
     Page.set (setRecentExpenses formattedExpenses) ;;
     count <- Page.select sv (CountGroups user) (group_count user) ;;
     Page.set (setGroupCount match count with Data n => n | Error => 0 end))
    (Page.show failure_load).
End Page.
End DashboardPage.

(** ** Sample data of the group pages *)

Definition serving : service := mk_service (fun _ => true) "g1".

(** A backend that serves no read of group_members. *)
Definition no_memberships : service :=
  mk_service (fun c => match c with
                       | SelectGroupIds _ | SelectUserIds _ | CountGroups _ => false
                       | _ => true
                       end) "g1".

(** u, v and w share the flat [g]; u is alone in the group [h]. *)
Definition flat : Site.t :=
  Site.mk
    [Profile.mk "u" "Uma" "u@example.org"; Profile.mk "v" "Vik" "v@example.org";
     Profile.mk "w" "Wen" "w@example.org"]
    [GroupRow.mk "g" "Flat" "" "u"; GroupRow.mk "h" "Trip" "" "u"]
    [GroupMember.mk "g" "u"; GroupMember.mk "g" "v"; GroupMember.mk "g" "w";
     GroupMember.mk "h" "u"]
    [] [] [] [] [].

(** The backend of the ledger pages behind a service. *)
Definition ledger_backend (sv : service) : backend :=
  mk_backend (fun r => accepts sv (Ledger r)) (group_uuid sv).

(** group_members: group_id REFERENCES groups(id) *)
Definition members_refer (s : Site.t) : Prop :=
  Forall (fun m => In (GroupMember.group_id m) (map GroupRow.id (Site.groups s)))
    (Site.group_members s).

(** group_members: UNIQUE (group_id, user_id) *)
Definition unique_member (s : Site.t) : Prop :=
  distinct same_member (Site.group_members s) = true.

(** A backend that loses every write to group_members. *)
Definition drops_members : service :=
  mk_service (fun c => match c with InsertGroupMember _ => false | _ => true end) "g1".

(** A backend that loses every write to activities. *)
Definition drops_activities : service :=
  mk_service (fun c => match c with InsertActivity _ => false | _ => true end) "g1".

(** The groups page when it mounts. *)
Definition no_groups : GroupsPage.state := GroupsPage.mk_state [] ("", "") false.

(** The flat after a dinner of 100 paid by v and split three ways, and
    a bill of 40 paid by u and split with v. *)
Definition flat_after_dinner : Site.t :=
  Site.mk (Site.profiles flat) (Site.groups flat) (Site.group_members flat) []
    [Expense.mk "e1" "Dinner" 100 "2025-01-01" (Some "g") "v";
     Expense.mk "e2" "Bill" 40 "2025-01-02" (Some "g") "u"]
    [ExpenseParticipant.mk "e1" "u" (100 # 3) false;
     ExpenseParticipant.mk "e1" "v" (100 # 3) false;
     ExpenseParticipant.mk "e1" "w" (100 # 3) false;
     ExpenseParticipant.mk "e2" "u" 20 false;
     ExpenseParticipant.mk "e2" "v" 20 false]
    [] [].

(** A backend that serves every read but the one behind [total_owed]. *)
Definition no_owed_rows : service :=
  mk_service (fun c => match c with
                       | Ledger (Select (q_owed _)) => false
                       | _ => true
                       end) "g1".

(** ** The settle-up page, term by term *)

(** The amounts the two passes merge into the entry of [k]: the user's
    unsettled shares of the expenses [k] paid, then minus the unsettled
    shares of [k] in the expenses the user paid, each in the order of the
    table. *)
Definition terms (user k : uuid) (st : store) : list number :=
  (map ExpenseParticipant.amount_owed
     (filter (fun p => String.eqb (ExpenseParticipant.user_id p) user
                       && Spec.paid_by st p k
                       && negb (ExpenseParticipant.is_settled p))
        (expense_participants st))
   ++ map (fun p => js_neg (ExpenseParticipant.amount_owed p))
        (filter (fun p => String.eqb (ExpenseParticipant.user_id p) k
                          && Spec.paid_by st p user
                          && negb (ExpenseParticipant.is_settled p))
           (expense_participants st)))%list.

(** [debtMap.set(k, { amount })] for the first term, [amount += term] for
    each further one. *)
Definition running (rnd : arithmetic) (ts : list number) : number :=
  match ts with
  | [] => 0
  | t :: ts' => fold_left (js_add rnd) ts' t
  end.

(** The amounts contributed to the entry of [k]. *)
Definition amounts_for (k : uuid) (cs : list contribution) : list number :=
  map how_much (filter (fun c => String.eqb (who c) k) cs).

(** u owes v 0.1 and 0.2 for two rides v paid; v owes u 0.3 for a coffee
    u paid.  The amounts are the doubles the page reads. *)
Definition rides_and_coffee : store :=
  mk_store
    [Profile.mk "u" "Uma" "u@example.org"; Profile.mk "v" "Vik" "v@example.org"]
    []
    [Expense.mk "e1" "Ride" (binary64 (1 # 10)) "2025-01-01" None "v";
     Expense.mk "e2" "Ride" (binary64 (2 # 10)) "2025-01-02" None "v";
     Expense.mk "e3" "Coffee" (binary64 (3 # 10)) "2025-01-03" None "u"]
    [ExpenseParticipant.mk "e1" "u" (binary64 (1 # 10)) false;
     ExpenseParticipant.mk "e2" "u" (binary64 (2 # 10)) false;
     ExpenseParticipant.mk "e3" "v" (binary64 (3 # 10)) false]
    [] [].

(** * Properties *)

(** ** Lists and numbers *)

Lemma expense_ok_fresh st e :
  expense_ok st e = true -> ~ In (Expense.id e) (map Expense.id (expenses st)).
Proof.
  unfold expense_ok, mem. intros H. apply andb_prop in H. destruct H as [H _].
  apply andb_prop in H. destruct H as [H _].
  apply negb_true_iff in H. intros Hin.
  assert (E : existsb (String.eqb (Expense.id e)) (map Expense.id (expenses st)) = true).
  { apply existsb_exists. exists (Expense.id e). split; [exact Hin|apply String.eqb_refl]. }
  congruence.
Qed.

Lemma Forall_filter {A} (P : A -> Prop) f (l : list A) : Forall P l -> Forall P (filter f l).
Proof.
  rewrite !Forall_forall. intros H x Hx. apply filter_In in Hx. apply H, Hx.
Qed.

Lemma find_expense_some st i :
  In i (map Expense.id (expenses st)) -> exists e, find_expense st i = Some e.
Proof.
  unfold find_expense. intros H. apply in_map_iff in H. destruct H as [e [<- He]].
  destruct (find (fun e0 => String.eqb (Expense.id e0) (Expense.id e)) (expenses st)) as [e'|] eqn:F.
  - now exists e'.
  - exfalso. apply (find_none _ _ F) in He. now rewrite String.eqb_refl in He.
Qed.

Lemma find_app_some {A} (f : A -> bool) l l' x :
  find f l = Some x -> find f (l ++ l') = Some x.
Proof.
  induction l as [|y l IH]; cbn [find app]; [discriminate|].
  destruct (f y); auto.
Qed.

Lemma find_app_none {A} (f : A -> bool) l l' :
  find f l = None -> find f (l ++ l') = find f l'.
Proof.
  induction l as [|y l IH]; cbn [find app]; [reflexivity|].
  destruct (f y); [discriminate|auto].
Qed.

Lemma distinct_filter {A} (same : A -> A -> bool) f l :
  distinct same l = true -> distinct same (filter f l) = true.
Proof.
  induction l as [|x l IH]; [reflexivity|]. cbn [distinct filter].
  intros H. apply andb_prop in H. destruct H as [Hx Hl].
  destruct (f x); [|auto]. cbn [distinct]. rewrite (IH Hl), andb_true_r.
  apply negb_true_iff. apply negb_true_iff in Hx.
  destruct (existsb (same x) (filter f l)) eqn:E; [|reflexivity].
  apply existsb_exists in E. destruct E as [y [Hy Hs]]. apply filter_In in Hy.
  rewrite <- Hx. symmetry. apply existsb_exists. exists y. tauto.
Qed.

Lemma find_filter {A} (g f : A -> bool) l :
  (forall x, In x l -> g x = true -> f x = true) ->
  find g (filter f l) = find g l.
Proof.
  induction l as [|x l IH]; intros H; [reflexivity|]. cbn [filter find].
  destruct (g x) eqn:G.
  - rewrite (H x (or_introl eq_refl) G). cbn [find]. now rewrite G.
  - destruct (f x); cbn [find]; rewrite ?G; apply IH; intros y Hy; apply H; now right.
Qed.

Lemma mem_In x l : mem x l = true <-> In x l.
Proof.
  unfold mem. rewrite existsb_exists. split.
  - intros [y [Hy Heq]]. apply String.eqb_eq in Heq. now subst.
  - intros H. exists x. split; [exact H|apply String.eqb_refl].
Qed.

Lemma of_length_S n : of_length (S n) == of_length n + 1.
Proof.
  unfold of_length. rewrite Nat2Z.inj_succ, <- Z.add_1_r, inject_Z_plus. reflexivity.
Qed.

Lemma of_length_nonneg n : 0 <= of_length n.
Proof. unfold of_length. change 0 with (inject_Z 0). rewrite <- Zle_Qle. lia. Qed.

Lemma of_length_le i j : (i <= j)%nat -> of_length i <= of_length j.
Proof. intros H. unfold of_length. rewrite <- Zle_Qle. lia. Qed.

Lemma Qmult_le_nonneg_l (x y z : Q) : 0 <= z -> x <= y -> z * x <= z * y.
Proof. intros Hz Hxy. rewrite !(Qmult_comm z). now apply Qmult_le_compat_r. Qed.

Lemma same_friendship_sym f g : same_friendship f g = same_friendship g f.
Proof. unfold same_friendship. now rewrite (String.eqb_sym (Friendship.user_id f)),
  (String.eqb_sym (Friendship.friend_id f)). Qed.

Lemma distinct_snoc {A} (same : A -> A -> bool) l x :
  (forall a b, same a b = same b a) ->
  distinct same l = true -> existsb (same x) l = false ->
  distinct same (l ++ [x]) = true.
Proof.
  intros Hsym. induction l as [|y l IH]; intros Hd Hx; [reflexivity|].
  cbn [distinct app existsb] in *. apply andb_prop in Hd. destruct Hd as [Hy Hd].
  apply orb_false_iff in Hx. destruct Hx as [Hxy Hx].
  rewrite (IH Hd Hx), andb_true_r. rewrite existsb_app. cbn [existsb].
  apply negb_true_iff in Hy. rewrite Hy, (Hsym y x), Hxy. reflexivity.
Qed.

Lemma distinct_app {A} (same : A -> A -> bool) l l' :
  distinct same l = true -> distinct same l' = true ->
  (forall x y, In x l -> In y l' -> same x y = false) ->
  distinct same (l ++ l') = true.
Proof.
  induction l as [|x l IH]; intros Hl Hl' Hcross; [exact Hl'|].
  cbn [distinct app] in *. apply andb_prop in Hl. destruct Hl as [Hx Hl].
  rewrite IH; [|exact Hl|exact Hl'|intros a b Ha Hb; apply Hcross; [now right|exact Hb]].
  rewrite andb_true_r, existsb_app. apply negb_true_iff in Hx. rewrite Hx. cbn [orb].
  apply negb_true_iff.
  destruct (existsb (same x) l') eqn:E; [|reflexivity].
  apply existsb_exists in E. destruct E as [y [Hy Hs]].
  rewrite (Hcross x y (or_introl eq_refl) Hy) in Hs. discriminate.
Qed.

(** ** Running the client *)

Lemma insert_rejected {A} be r (apply : store -> option (A * store)) w :
  serves be r = false \/ apply (db w) = None ->
  insert be r apply w = (Return Error, send r w).
Proof.
  intros [Hs|Ha]; unfold insert.
  - now rewrite Hs.
  - rewrite Ha. now destruct (serves be r).
Qed.

Lemma select_served {A} be q (rows : store -> A) w :
  serves be (Select q) = true ->
  select be q rows w = (Return (Data (rows (db w))), send (Select q) w).
Proof. intros Hs. unfold select. now rewrite Hs. Qed.

Section Inserts.
Variable be : backend.
Variable w : world.
Let st := db w.

Lemma insert_expense_accepted d a dt g p :
  let e := Expense.mk (gen_random_uuid be) d a dt (Some g) p in
  serves be (InsertExpense d a dt g p) = true -> expense_ok st e = true ->
  insert_expense be d a dt g p w =
  (Return (Data e),
   commit (mk_store (profiles st) (groups st) (expenses st ++ [e])
             (expense_participants st) (settlements st) (friendships st))
     (send (InsertExpense d a dt g p) w)).
Proof.
  intros e Hs Hok. unfold insert_expense, insert. rewrite Hs.
  fold st. fold e. now rewrite Hok.
Qed.

Lemma insert_expense_rejected d a dt g p :
  let e := Expense.mk (gen_random_uuid be) d a dt (Some g) p in
  serves be (InsertExpense d a dt g p) = false \/ expense_ok st e = false ->
  insert_expense be d a dt g p w = (Return Error, send (InsertExpense d a dt g p) w).
Proof.
  intros e H. unfold insert_expense. apply insert_rejected.
  destruct H as [H|H]; [now left|right]. fold st. fold e. now rewrite H.
Qed.

Lemma insert_participants_accepted rows :
  serves be (InsertExpenseParticipants rows) = true -> participants_ok st rows = true ->
  insert_expense_participants be rows w =
  (Return (Data tt),
   commit (mk_store (profiles st) (groups st) (expenses st)
             (expense_participants st ++ rows) (settlements st) (friendships st))
     (send (InsertExpenseParticipants rows) w)).
Proof.
  intros Hs Hok. unfold insert_expense_participants, insert. rewrite Hs.
  fold st. now rewrite Hok.
Qed.

Lemma insert_participants_rejected rows :
  serves be (InsertExpenseParticipants rows) = false \/ participants_ok st rows = false ->
  insert_expense_participants be rows w =
  (Return Error, send (InsertExpenseParticipants rows) w).
Proof.
  intros H. unfold insert_expense_participants. apply insert_rejected.
  destruct H as [H|H]; [now left|right]. fold st. now rewrite H.
Qed.

Lemma insert_settlement_accepted row :
  serves be (InsertSettlement row) = true -> settlement_ok row = true ->
  insert_settlement be row w =
  (Return (Data tt),
   commit (mk_store (profiles st) (groups st) (expenses st)
             (expense_participants st) (settlements st ++ [row]) (friendships st))
     (send (InsertSettlement row) w)).
Proof.
  intros Hs Hok. unfold insert_settlement, insert. now rewrite Hs, Hok.
Qed.

Lemma insert_settlement_rejected row :
  serves be (InsertSettlement row) = false \/ settlement_ok row = false ->
  insert_settlement be row w = (Return Error, send (InsertSettlement row) w).
Proof.
  intros H. unfold insert_settlement. apply insert_rejected.
  destruct H as [H|H]; [now left|right]. now rewrite H.
Qed.

Lemma insert_friendship_accepted row :
  serves be (InsertFriendship row) = true -> friendship_ok st row = true ->
  insert_friendship be row w =
  (Return (Data tt),
   commit (mk_store (profiles st) (groups st) (expenses st)
             (expense_participants st) (settlements st) (friendships st ++ [row]))
     (send (InsertFriendship row) w)).
Proof.
  intros Hs Hok. unfold insert_friendship, insert. rewrite Hs.
  fold st. now rewrite Hok.
Qed.

Lemma insert_friendship_rejected row :
  serves be (InsertFriendship row) = false \/ friendship_ok st row = false ->
  insert_friendship be row w = (Return Error, send (InsertFriendship row) w).
Proof.
  intros H. unfold insert_friendship. apply insert_rejected.
  destruct H as [H|H]; [now left|right]. fold st. now rewrite H.
Qed.
End Inserts.
(** ** Adding an expense *)

Section HandleSubmit.
Variable rnd : arithmetic.
Variable be : backend.
Variable user : uuid.
Variables (selectedGroup : string) (selectedParticipants : list uuid) (form : AddExpense.formData).
Variable A : number.
Variable w : world.

Let e := Expense.mk (gen_random_uuid be) (AddExpense.description form) A
           (AddExpense.expenseDate form) (Some selectedGroup) user.
Let req := InsertExpense (AddExpense.description form) A (AddExpense.expenseDate form) selectedGroup user.
Let rows := AddExpense.participants rnd (gen_random_uuid be) A selectedParticipants.
Let st := db w.
Let st1 := mk_store (profiles st) (groups st) (expenses st ++ [e])
                    (expense_participants st) (settlements st) (friendships st).
Let st2 := mk_store (profiles st) (groups st) (expenses st ++ [e])
                    (expense_participants st ++ rows) (settlements st) (friendships st).

Hypothesis Hgroup : str_truthy selectedGroup = true.
Hypothesis Hsel : selectedParticipants <> [].
Hypothesis Hdesc : str_truthy (AddExpense.description form) = true.
Hypothesis Hamount : AddExpense.amount form = Some A.

Lemma handleSubmit_valid :
  AddExpense.handleSubmit rnd be user selectedGroup selectedParticipants form =
  try_catch
          (r <- insert_expense be (AddExpense.description form) A (AddExpense.expenseDate form)
                  selectedGroup user ;;
           match r with
           | Error => throw
           | Data expense =>
             r' <- insert_expense_participants be
                     (AddExpense.participants rnd (Expense.id expense) A selectedParticipants) ;;
             match r' with
             | Error => throw
             | Data _ => show AddExpense.success ;; navigate "/"
             end
           end)
          (show AddExpense.failure).
Proof.
  unfold AddExpense.handleSubmit.
  rewrite Hgroup, Hdesc, Hamount. 
  destruct selectedParticipants as [|p ps]; [congruence|]. reflexivity.
Qed.

Lemma handleSubmit_success :
  serves be req = true -> expense_ok st e = true ->
  serves be (InsertExpenseParticipants rows) = true -> participants_ok st1 rows = true ->
  exec (AddExpense.handleSubmit rnd be user selectedGroup selectedParticipants form) w
  = mk_world st2 (issued w ++ [req; InsertExpenseParticipants rows]) (toasts w ++ [AddExpense.success]) (Some "/") (balances w) (debts w) (history w) (friends w).
Proof.
  intros H1 H2 H3 H4. rewrite handleSubmit_valid.
  unfold exec, try_catch, bind.
  rewrite insert_expense_accepted by assumption.
  cbn [Expense.id]. rewrite insert_participants_accepted by assumption.
  cbn. rewrite <- app_assoc. reflexivity.
Qed.

Lemma handleSubmit_partial :
  serves be req = true -> expense_ok st e = true ->
  serves be (InsertExpenseParticipants rows) = false \/ participants_ok st1 rows = false ->
  exec (AddExpense.handleSubmit rnd be user selectedGroup selectedParticipants form) w
  = mk_world st1 (issued w ++ [req; InsertExpenseParticipants rows]) (toasts w ++ [AddExpense.failure]) (location w) (balances w) (debts w) (history w) (friends w).
Proof.
  intros H1 H2 H3. rewrite handleSubmit_valid.
  unfold exec, try_catch, bind.
  rewrite insert_expense_accepted by assumption.
  cbn [Expense.id]. rewrite insert_participants_rejected by assumption.
  cbn. rewrite <- app_assoc. reflexivity.
Qed.

Lemma handleSubmit_rejected :
  serves be req = false \/ expense_ok st e = false ->
  exec (AddExpense.handleSubmit rnd be user selectedGroup selectedParticipants form) w
  = mk_world st (issued w ++ [req]) (toasts w ++ [AddExpense.failure]) (location w) (balances w) (debts w) (history w) (friends w).
Proof.
  intros H1. rewrite handleSubmit_valid.
  unfold exec, try_catch, bind.
  rewrite insert_expense_rejected by assumption.
  reflexivity.
Qed.
End HandleSubmit.

(** With a required field missing, nothing is sent to the store. *)
Lemma handleSubmit_missing_field rnd be user selectedGroup selectedParticipants form w :
  str_truthy selectedGroup = false \/ selectedParticipants = [] \/
  str_truthy (AddExpense.description form) = false \/ AddExpense.amount form = None ->
  exec (AddExpense.handleSubmit rnd be user selectedGroup selectedParticipants form) w
  = mk_world (db w) (issued w) (toasts w ++ [AddExpense.validation_error]) (location w)
      (balances w) (debts w) (history w) (friends w).
Proof.
  intros H. unfold AddExpense.handleSubmit.
  assert (E : negb (str_truthy selectedGroup)
         || (List.length selectedParticipants =? 0)%nat
         || negb (str_truthy (AddExpense.description form))
         || negb (input_truthy (AddExpense.amount form)) = true).
  { destruct H as [H|[H|[H|H]]]; rewrite H; cbn; rewrite ?orb_true_r; reflexivity. }
  rewrite E. reflexivity.
Qed.



(** C7: expense creation is not atomic.  When the expense row is taken and
    the participant rows are refused, the expense row stays: the store holds
    the new expense with no participant row, the two inserts are the only
    requests sent (nothing removes the expense, nothing is tried again), and
    the failure is reported. *)
Theorem partial_state_is_kept rnd be user selectedGroup selectedParticipants form A st :
  str_truthy selectedGroup = true ->
  selectedParticipants <> [] ->
  str_truthy (AddExpense.description form) = true ->
  AddExpense.amount form = Some A ->
  foreign_key st ->
  let e := Expense.mk (gen_random_uuid be) (AddExpense.description form) A
             (AddExpense.expenseDate form) (Some selectedGroup) user in
  let rows := AddExpense.participants rnd (Expense.id e) A selectedParticipants in
  let st1 := mk_store (profiles st) (groups st) (expenses st ++ [e])
               (expense_participants st) (settlements st) (friendships st) in
  let request := InsertExpense (AddExpense.description form) A
                   (AddExpense.expenseDate form) selectedGroup user in
  let w := exec (AddExpense.handleSubmit rnd be user selectedGroup selectedParticipants form)
             (initial st) in
  serves be request = true ->
  expense_ok st e = true ->
  serves be (InsertExpenseParticipants rows) = false \/ participants_ok st1 rows = false ->
  db w = st1
  /\ In e (expenses (db w))
  /\ (forall p, In p (expense_participants (db w)) ->
                ExpenseParticipant.expense_id p <> Expense.id e)
  /\ issued w = [request; InsertExpenseParticipants rows]
  /\ toasts w = [AddExpense.failure]
  /\ location w = None.
Proof.
  intros Hg Hs Hd Ha Hfk e rows st1 request w H1 H2 H3.
  assert (Hw : w = mk_world st1 [request; InsertExpenseParticipants rows]
                 [AddExpense.failure] None (mk_balance 0 0 0) [] [] []).
  { unfold w. rewrite (handleSubmit_partial rnd be user _ _ _ A); auto. }
  rewrite Hw. cbn [db issued toasts location expenses expense_participants st1].
  repeat split.
  - apply in_or_app. right. now left.
  - intros p Hp Heq. apply (expense_ok_fresh st e H2).
    unfold foreign_key in Hfk. rewrite Forall_forall in Hfk.
    rewrite <- Heq. now apply Hfk.
Qed.

Lemma partial_state_is_kept_witness :
  db (exec (AddExpense.handleSubmit exact drops_participants "u" "g" ["u"; "v"; "w"] dinner)
        (initial household))
  = mk_store (profiles household) (groups household)
      [Expense.mk "e1" "Dinner" 300 "2025-01-01" (Some "g") "u"] [] [] [].
Proof.
  refine (proj1 (partial_state_is_kept exact drops_participants "u" "g" ["u"; "v"; "w"] dinner
                   300 household _ _ _ _ _ _ _ _)); try reflexivity.
  - discriminate.
  - constructor.
  - left. reflexivity.
Defined.

(** C8 (what the code does): [handleSubmit] has no test on the sign of the
    amount.  With every required field present and an amount [A <= 0], the
    insert of the expense row is sent to the store; it is the CHECK
    constraint of the table that refuses it. *)
Theorem handleSubmit_sends_nonpositive_amount rnd be user selectedGroup selectedParticipants
    form A st :
  str_truthy selectedGroup = true ->
  selectedParticipants <> [] ->
  str_truthy (AddExpense.description form) = true ->
  AddExpense.amount form = Some A ->
  A <= 0 ->
  let w := exec (AddExpense.handleSubmit rnd be user selectedGroup selectedParticipants form)
             (initial st) in
  issued w = [InsertExpense (AddExpense.description form) A (AddExpense.expenseDate form)
                selectedGroup user]
  /\ existsb is_write (issued w) = true
  /\ db w = st
  /\ toasts w = [AddExpense.failure].
Proof.
  intros Hg Hs Hd Ha Hle w.
  assert (Hw : w = mk_world st
                 [InsertExpense (AddExpense.description form) A (AddExpense.expenseDate form)
                    selectedGroup user]
                 [AddExpense.failure] None (mk_balance 0 0 0) [] [] []).
  { unfold w. rewrite (handleSubmit_rejected rnd be user _ _ _ A); auto.
    right. unfold expense_ok. cbn [Expense.amount].
    apply Qle_bool_iff in Hle. rewrite Hle. cbn [negb]. now rewrite andb_false_r. }
  rewrite Hw. cbn. auto.
Qed.

Lemma handleSubmit_sends_nonpositive_amount_witness :
  issued (exec (AddExpense.handleSubmit exact always "u" "g" ["u"; "v"; "w"] free_lunch)
            (initial household))
  = [InsertExpense "Lunch" 0 "2025-01-02" "g" "u"].
Proof.
  refine (proj1 (handleSubmit_sends_nonpositive_amount exact always "u" "g" ["u"; "v"; "w"]
                   free_lunch 0 household _ _ _ _ _)); try reflexivity.
  - discriminate.
  - discriminate.
Defined.

Lemma select_answer {A} be q (rows : store -> A) w :
  select be q rows w = (Return (answer be q (rows (db w))), send (Select q) w).
Proof. unfold select, answer. now destruct (serves be (Select q)). Qed.

Lemma db_send r w : db (send r w) = db w.
Proof. reflexivity. Qed.

Lemma bind_read {A B} be q (rows : store -> A) (k : A -> M B) w :
  serves be (Select q) = true ->
  bind (r <- select be q rows ;; SettleUp.expect r) k w
  = k (rows (db w)) (send (Select q) w).
Proof. intros Hs. unfold bind. now rewrite select_served. Qed.

Lemma bind_modify {B} f (k : unit -> M B) w : bind (modify f) k w = k tt (f w).
Proof. reflexivity. Qed.

(** ** Computations that only read *)

Lemma read_only_ret {A} (a : A) : read_only (ret a).
Proof. intros w. split; reflexivity. Qed.

Lemma read_only_throw {A} : read_only (@throw A).
Proof. intros w. split; reflexivity. Qed.

Lemma read_only_bind {A B} (m : M A) (k : A -> M B) :
  read_only m -> (forall a, read_only (k a)) -> read_only (bind m k).
Proof.
  intros Hm Hk w. unfold bind. specialize (Hm w).
  destruct (m w) as [[a|] w']; cbn [snd] in *.
  - destruct (Hk a w') as [H1 H2]. destruct Hm as [H3 H4]. split; congruence.
  - exact Hm.
Qed.

Lemma read_only_try_catch (body handler : M unit) :
  read_only body -> read_only handler -> read_only (try_catch body handler).
Proof.
  intros Hb Hh w. unfold try_catch. specialize (Hb w).
  destruct (body w) as [[a|] w']; cbn [snd] in *.
  - exact Hb.
  - destruct (Hh w') as [H1 H2]. destruct Hb as [H3 H4]. split; congruence.
Qed.

Lemma read_only_select {A} be q (rows : store -> A) : read_only (select be q rows).
Proof.
  intros w. unfold select.
  destruct (serves be (Select q)); cbn; rewrite filter_app; cbn; rewrite app_nil_r; auto.
Qed.

Lemma read_only_show t : read_only (show t).
Proof. intros w. split; reflexivity. Qed.

Lemma read_only_navigate p : read_only (navigate p).
Proof. intros w. split; reflexivity. Qed.

Lemma read_only_setBalances b : read_only (setBalances b).
Proof. intros w. split; reflexivity. Qed.

Lemma read_only_setDebts d : read_only (setDebts d).
Proof. intros w. split; reflexivity. Qed.

Lemma read_only_setSettlements h : read_only (setSettlements h).
Proof. intros w. split; reflexivity. Qed.

Lemma read_only_setFriends f : read_only (setFriends f).
Proof. intros w. split; reflexivity. Qed.

Lemma read_only_expect {A} (r : response A) : read_only (SettleUp.expect r).
Proof. destruct r; [apply read_only_ret|apply read_only_throw]. Qed.

Create HintDb reads.
#[local] Hint Resolve read_only_ret read_only_throw read_only_select read_only_show
  read_only_navigate read_only_setBalances read_only_setDebts read_only_setSettlements
  read_only_setFriends read_only_expect : reads.

Ltac read_only_steps :=
  repeat first
    [ solve [auto with reads]
    | match goal with |- read_only (try_catch _ _) => apply read_only_try_catch end
    | match goal with |- read_only (bind _ _) => apply read_only_bind; [|intros ?] end
    | match goal with |- read_only (match ?x with _ => _ end) => destruct x end ].

Lemma fetchDebtsAndSettlements_read_only rnd be user :
  read_only (SettleUp.fetchDebtsAndSettlements rnd be user).
Proof. unfold SettleUp.fetchDebtsAndSettlements. read_only_steps. Qed.

Lemma fetchDashboardData_read_only rnd be user :
  read_only (Dashboard.fetchDashboardData rnd be user).
Proof. unfold Dashboard.fetchDashboardData. read_only_steps. Qed.

Lemma fetchFriends_read_only be user : read_only (Friends.fetchFriends be user).
Proof. unfold Friends.fetchFriends. read_only_steps. Qed.

Lemma logs_ret {A} (a : A) : logs (ret a).
Proof. intros w. exists []. cbn. now rewrite app_nil_r. Qed.

Lemma logs_throw {A} : logs (@throw A).
Proof. intros w. exists []. cbn. now rewrite app_nil_r. Qed.

Lemma logs_bind {A B} (m : M A) (k : A -> M B) :
  logs m -> (forall a, logs (k a)) -> logs (bind m k).
Proof.
  intros Hm Hk w. unfold bind. destruct (Hm w) as [l Hl].
  destruct (m w) as [[a|] w']; cbn [snd] in *.
  - destruct (Hk a w') as [l' Hl']. exists (l ++ l')%list. now rewrite Hl', Hl, app_assoc.
  - now exists l.
Qed.

Lemma logs_try_catch (body handler : M unit) :
  logs body -> logs handler -> logs (try_catch body handler).
Proof.
  intros Hb Hh w. unfold try_catch. destruct (Hb w) as [l Hl].
  destruct (body w) as [[a|] w']; cbn [snd] in *.
  - now exists l.
  - destruct (Hh w') as [l' Hl']. exists (l ++ l')%list. now rewrite Hl', Hl, app_assoc.
Qed.

Lemma logs_select {A} be q (rows : store -> A) : logs (select be q rows).
Proof. intros w. rewrite select_answer. now exists [Select q]. Qed.

Lemma logs_insert {A} be r (apply : store -> option (A * store)) : logs (insert be r apply).
Proof.
  intros w. exists [r]. unfold insert.
  destruct (serves be r); [destruct (apply (db w)) as [[a st']|]|]; reflexivity.
Qed.

Lemma logs_modify f : (forall w, issued (f w) = issued w) -> logs (modify f).
Proof. intros H w. exists []. cbn. now rewrite H, app_nil_r. Qed.

#[local] Hint Resolve logs_ret logs_throw logs_select logs_insert : reads.

Ltac logs_steps :=
  repeat first
    [ solve [auto with reads]
    | solve [apply logs_modify; reflexivity]
    | match goal with |- logs (try_catch _ _) => apply logs_try_catch end
    | match goal with |- logs (bind _ _) => apply logs_bind; [|intros ?] end
    | match goal with |- logs (match ?x with _ => _ end) => destruct x end
    | match goal with |- logs (if ?x then _ else _) => destruct x end ].

Lemma fetchFriends_logs be user : logs (Friends.fetchFriends be user).
Proof. unfold Friends.fetchFriends. logs_steps. Qed.

#[local] Hint Resolve fetchFriends_logs : reads.

Section Preserves.
Variable P : store -> Prop.

Lemma preserves_ret {A} (a : A) : preserves P (ret a).
Proof. intros w H. exact H. Qed.

Lemma preserves_throw {A} : preserves P (@throw A).
Proof. intros w H. exact H. Qed.

Lemma preserves_bind {A B} (m : M A) (k : A -> M B) :
  preserves P m -> (forall a, preserves P (k a)) -> preserves P (bind m k).
Proof.
  intros Hm Hk w H. unfold bind. specialize (Hm w H).
  destruct (m w) as [[a|] w']; cbn [snd] in *; [now apply Hk|exact Hm].
Qed.

Lemma preserves_try_catch (body handler : M unit) :
  preserves P body -> preserves P handler -> preserves P (try_catch body handler).
Proof.
  intros Hb Hh w H. unfold try_catch. specialize (Hb w H).
  destruct (body w) as [[a|] w']; cbn [snd] in *; [exact Hb|now apply Hh].
Qed.

Lemma preserves_read_only {A} (m : M A) : read_only m -> preserves P m.
Proof. intros Hro w H. destruct (Hro w) as [Hdb _]. now rewrite Hdb. Qed.

Lemma preserves_insert {A} be r (apply : store -> option (A * store)) :
  (forall st a st', P st -> apply st = Some (a, st') -> P st') ->
  preserves P (insert be r apply).
Proof.
  intros Happly w H. unfold insert.
  destruct (serves be r); [|exact H].
  destruct (apply (db w)) as [[a st']|] eqn:E; [|exact H].
  cbn. exact (Happly _ _ _ H E).
Qed.
End Preserves.

(** ** The handlers keep the invariants of the schema *)

Lemma insert_expense_consistent be d a dt g p :
  preserves consistent (insert_expense be d a dt g p).
Proof.
  unfold insert_expense. apply preserves_insert. intros st e st' [Hpk [Hfk [Hck [Hu Hup]]]] H.
  destruct (expense_ok st _) eqn:Hok; [|discriminate]. inversion H; subst e st'. clear H.
  pose proof (expense_ok_fresh _ _ Hok) as Hfresh. cbn [Expense.id] in Hfresh.
  repeat split.
  - unfold primary_key. cbn [expenses]. rewrite map_app. cbn [map Expense.id].
    apply NoDup_app; [exact Hpk|repeat constructor; auto|].
    intros x Hx [<-|[]]. contradiction.
  - unfold foreign_key in *. cbn [expenses expense_participants].
    eapply Forall_impl; [|exact Hfk]. intros r Hr. rewrite map_app. apply in_or_app. now left.
  - exact Hck.
  - exact Hu.
  - exact Hup.
Qed.

Lemma insert_participants_consistent be rows :
  preserves consistent (insert_expense_participants be rows).
Proof.
  unfold insert_expense_participants. apply preserves_insert.
  intros st e st' [Hpk [Hfk [Hck [Hu Hup]]]] H.
  destruct (participants_ok st rows) eqn:Hok; [|discriminate]. inversion H; subst st'. clear H.
  unfold participants_ok in Hok. apply andb_prop in Hok. destruct Hok as [Hok Hd].
  apply andb_prop in Hok. destruct Hok as [Hf Hc].
  rewrite forallb_forall in Hf, Hc.
  repeat split.
  - exact Hpk.
  - unfold foreign_key in *. cbn [expenses expense_participants].
    apply Forall_app. split; [exact Hfk|]. apply Forall_forall. intros r Hr.
    apply mem_In. now apply Hf.
  - unfold check_amount_owed in *. cbn [expense_participants].
    apply Forall_app. split; [exact Hck|]. apply Forall_forall. intros r Hr.
    apply Qle_bool_iff. now apply Hc.
  - exact Hu.
  - exact Hd.
Qed.

Lemma insert_settlement_consistent be row : preserves consistent (insert_settlement be row).
Proof.
  unfold insert_settlement. apply preserves_insert. intros st e st' Hc H.
  destruct (settlement_ok row); [|discriminate]. inversion H; subst st'. exact Hc.
Qed.

Lemma insert_friendship_consistent be row : preserves consistent (insert_friendship be row).
Proof.
  unfold insert_friendship. apply preserves_insert. intros st e st' [Hpk [Hfk [Hck [Hu Hup]]]] H.
  destruct (friendship_ok st row) eqn:Hok; [|discriminate]. inversion H; subst st'. clear H.
  repeat split; auto. unfold unique_friendship in *. cbn [friendships].
  apply distinct_snoc; [apply same_friendship_sym|exact Hu|].
  unfold friendship_ok in Hok. now apply negb_true_iff in Hok.
Qed.

#[local] Hint Resolve preserves_ret preserves_throw insert_expense_consistent
  insert_participants_consistent insert_settlement_consistent insert_friendship_consistent
  : reads.

Ltac preserves_steps :=
  repeat first
    [ solve [auto with reads]
    | solve [apply preserves_read_only; auto with reads]
    | match goal with |- preserves _ (try_catch _ _) => apply preserves_try_catch end
    | match goal with |- preserves _ (bind _ _) => apply preserves_bind; [|intros ?] end
    | match goal with |- preserves _ (match ?x with _ => _ end) => destruct x end
    | match goal with |- preserves _ (if ?x then _ else _) => destruct x end ].

(** Every handler keeps the invariants of the schema. *)
Lemma handleSubmit_consistent rnd be user selectedGroup selectedParticipants form :
  preserves consistent
    (AddExpense.handleSubmit rnd be user selectedGroup selectedParticipants form).
Proof. unfold AddExpense.handleSubmit. preserves_steps. Qed.

Lemma handleSettle_consistent rnd be user selectedDebt settleAmount settleDescription :
  preserves consistent
    (SettleUp.handleSettle rnd be user selectedDebt settleAmount settleDescription).
Proof.
  unfold SettleUp.handleSettle. preserves_steps.
  apply preserves_read_only, fetchDebtsAndSettlements_read_only.
Qed.

Lemma addFriend_consistent be user newFriendEmail :
  preserves consistent (Friends.addFriend be user newFriendEmail).
Proof.
  unfold Friends.addFriend. preserves_steps.
  apply preserves_read_only, fetchFriends_read_only.
Qed.

Lemma empty_store_consistent : consistent empty_store.
Proof. repeat split; constructor. Qed.

(** The invariants of the schema hold in every store the pages lead to. *)
Lemma reachable_consistent st0 st : consistent st0 -> reachable st0 st -> consistent st.
Proof.
  intros H0. induction 1 as [|rnd be a st _ IH]; [exact H0|].
  destruct a; cbn [perform].
  - exact (handleSubmit_consistent _ _ _ _ _ _ (initial st) IH).
  - exact (handleSettle_consistent _ _ _ _ _ _ (initial st) IH).
  - exact (addFriend_consistent _ _ _ (initial st) IH).
Qed.

(** In exact arithmetic, on a consistent store, the rows of a fresh
    expense with a non-negative amount, one per distinct participant, are
    taken by the store. *)
Lemma participants_accepted st e (A : Q) selectedParticipants :
  foreign_key st -> unique_participant st ->
  expense_ok st e = true ->
  NoDup selectedParticipants ->
  0 <= A ->
  participants_ok
    (mk_store (profiles st) (groups st) (expenses st ++ [e])
       (expense_participants st) (settlements st) (friendships st))
    (AddExpense.participants exact (Expense.id e) A selectedParticipants) = true.
Proof.
  intros Hfk Hup Hok Hnd HA. pose proof (expense_ok_fresh st e Hok) as Hfresh.
  unfold participants_ok. cbn [expenses expense_participants].
  unfold AddExpense.participants.
  set (s := AddExpense.amountPerPerson exact A selectedParticipants).
  assert (Hs : 0 <= s).
  { unfold s, AddExpense.amountPerPerson, js_div, exact.
    pose proof (of_length_nonneg (List.length selectedParticipants)) as Hn.
    unfold Qdiv. apply Qmult_le_0_compat; [exact HA|]. now apply Qinv_le_0_compat. }
  clearbody s.
  apply andb_true_intro. split; [apply andb_true_intro; split|].
  - apply forallb_forall. intros r Hr. apply in_map_iff in Hr. destruct Hr as [i [<- _]].
    cbn [ExpenseParticipant.expense_id]. apply mem_In. rewrite map_app. apply in_or_app.
    right. now left.
  - apply forallb_forall. intros r Hr. apply in_map_iff in Hr. destruct Hr as [i [<- _]].
    cbn [ExpenseParticipant.amount_owed]. now apply Qle_bool_iff.
  - apply distinct_app; [exact Hup| |].
    + clear Hs. induction Hnd as [|x l Hx Hnd IH]; [reflexivity|].
      cbn [map distinct]. rewrite IH, andb_true_r. apply negb_true_iff.
      destruct (existsb _ _) eqn:E; [|reflexivity].
      apply existsb_exists in E. destruct E as [r [Hr Hsame]].
      apply in_map_iff in Hr. destruct Hr as [i [<- Hi]].
      unfold same_participant in Hsame. cbn in Hsame.
      apply andb_prop in Hsame. destruct Hsame as [_ Hsame].
      apply String.eqb_eq in Hsame. subst i. contradiction.
    + intros p r Hp Hr. apply in_map_iff in Hr. destruct Hr as [i [<- _]].
      unfold same_participant. cbn [ExpenseParticipant.expense_id].
      destruct (String.eqb (ExpenseParticipant.expense_id p) (Expense.id e)) eqn:E;
        [|reflexivity].
      apply String.eqb_eq in E. exfalso. apply Hfresh. rewrite <- E.
      unfold foreign_key in Hfk. rewrite Forall_forall in Hfk. now apply Hfk.
Qed.

(** ** The dashboard *)

Lemma fetchDashboardData_balances rnd be user w :
  balances (exec (Dashboard.fetchDashboardData rnd be user) w) =
  let totalOwed := Dashboard.total rnd (answer be (q_owed user) (Dashboard.owed_rows user (db w))) in
  let totalOwing := Dashboard.total rnd (answer be (q_owing user) (Dashboard.owing_rows user (db w))) in
  mk_balance totalOwed totalOwing (js_sub rnd totalOwed totalOwing).
Proof.
  unfold Dashboard.fetchDashboardData, exec, bind, select, answer.
  destruct (serves be (Select (q_owed user))), (serves be (Select (q_owing user))); reflexivity.
Qed.

Lemma owed_rows_ext user st st' :
  expense_participants st = expense_participants st' ->
  Dashboard.owed_rows user st = Dashboard.owed_rows user st'.
Proof. unfold Dashboard.owed_rows. now intros ->. Qed.

Lemma owing_rows_ext user st st' :
  expenses st = expenses st' ->
  expense_participants st = expense_participants st' ->
  Dashboard.owing_rows user st = Dashboard.owing_rows user st'.
Proof.
  unfold Dashboard.owing_rows, Dashboard.paid_by_other, find_expense.
  now intros -> ->.
Qed.

(** ** The dashboard totals in exact arithmetic *)

Lemma reduce_exact items (s : Q) :
  fold_left (fun sum item => js_add exact sum (ExpenseParticipant.amount_owed item)) items s
  == s + Spec.sum_owed items.
Proof.
  revert s. induction items as [|p items IH]; intros s; cbn [fold_left Spec.sum_owed fold_right].
  - ring.
  - rewrite IH. unfold js_add, exact. fold (Spec.sum_owed items). ring.
Qed.

Lemma js_or0_exact (x : Q) : js_or0 x == x.
Proof.
  unfold js_or0, js_truthy. destruct (Qeq_bool x 0) eqn:E; cbn [negb].
  - apply Qeq_bool_iff in E. now rewrite E.
  - reflexivity.
Qed.

Lemma total_exact items : Dashboard.total exact (Data items) == Spec.sum_owed items.
Proof. unfold Dashboard.total. rewrite js_or0_exact, reduce_exact. ring. Qed.

Lemma sum_owed_nonneg rows :
  Forall (fun p => 0 <= ExpenseParticipant.amount_owed p) rows -> 0 <= Spec.sum_owed rows.
Proof.
  induction 1 as [|p rows Hp _ IH]; cbn [Spec.sum_owed fold_right].
  - apply Qle_refl.
  - fold (Spec.sum_owed rows). lra.
Qed.

Lemma owed_rows_spec self st :
  Spec.sum_owed (Dashboard.owed_rows self st) = Spec.total_owed self st.
Proof.
  reflexivity.
Qed.

Lemma owing_rows_spec self st :
  Spec.sum_owed (Dashboard.owing_rows self st) = Spec.total_owing self st.
Proof.
  unfold Dashboard.owing_rows, Spec.total_owing. f_equal. apply filter_ext.
  intros p. unfold Dashboard.paid_by_other, Spec.paid_by_not.
  destruct (find_expense st (ExpenseParticipant.expense_id p)) as [e|];
    destruct (ExpenseParticipant.is_settled p);
    destruct (String.eqb (ExpenseParticipant.user_id p) self); cbn;
    rewrite ?andb_true_r, ?andb_false_r; reflexivity.
Qed.

Lemma dashboard_sums be self st :
  serves be (Select (q_owed self)) = true ->
  serves be (Select (q_owing self)) = true ->
  let b := balances (exec (Dashboard.fetchDashboardData exact be self) (initial st)) in
  total_owed b == Spec.total_owed self st
  /\ total_owing b == Spec.total_owing self st
  /\ net_balance b == total_owed b - total_owing b.
Proof.
  intros H1 H2 b. unfold b. rewrite fetchDashboardData_balances.
  unfold answer. rewrite H1, H2. cbn [db initial total_owed total_owing net_balance].
  split; [|split].
  - rewrite total_exact. now rewrite owed_rows_spec.
  - rewrite total_exact. now rewrite owing_rows_spec.
  - reflexivity.
Qed.



(** Under the foreign key, a user's unsettled rows split into the shares
    of expenses paid by others and the shares of expenses paid by the user. *)
Lemma owed_splits self st rows :
  Forall (fun p => In (ExpenseParticipant.expense_id p) (map Expense.id (expenses st))) rows ->
  Spec.sum_owed (filter (fun p => String.eqb (ExpenseParticipant.user_id p) self
                                  && negb (ExpenseParticipant.is_settled p)) rows)
  == Spec.sum_owed (filter (fun p => String.eqb (ExpenseParticipant.user_id p) self
                                     && Spec.paid_by_not st p self
                                     && negb (ExpenseParticipant.is_settled p)) rows)
     + Spec.sum_owed (filter (fun p => String.eqb (ExpenseParticipant.user_id p) self
                                       && Spec.paid_by st p self
                                       && negb (ExpenseParticipant.is_settled p)) rows).
Proof.
  induction 1 as [|p rows Hp _ IH]; cbn [filter Spec.sum_owed fold_right].
  - ring.
  - destruct (find_expense_some st _ Hp) as [e He].
    unfold Spec.paid_by_not, Spec.paid_by. rewrite He.
    fold (Spec.paid_by_not st) in *. 
    destruct (String.eqb (ExpenseParticipant.user_id p) self),
             (ExpenseParticipant.is_settled p),
             (String.eqb (Expense.paid_by e) self);
      cbn [andb negb filter Spec.sum_owed fold_right];
      unfold Spec.sum_owed, Spec.paid_by_not, Spec.paid_by in *; rewrite ?IH; ring.
Qed.

Lemma owing_in_owed self st : incl (Dashboard.owing_rows self st) (Dashboard.owed_rows self st).
Proof.
  intros p Hp. unfold Dashboard.owing_rows, Dashboard.owed_rows in *.
  apply filter_In in Hp. destruct Hp as [Hin Hp]. apply filter_In. split; [exact Hin|].
  apply andb_prop in Hp. destruct Hp as [Hp Hs]. apply andb_prop in Hp. destruct Hp as [_ Hu].
  now rewrite Hu, Hs.
Qed.



(** ** The scenario: 300 split three ways *)

Lemma sum_owed_app rows rows' :
  Spec.sum_owed (rows ++ rows') == Spec.sum_owed rows + Spec.sum_owed rows'.
Proof.
  induction rows as [|p rows IH]; cbn [app Spec.sum_owed fold_right].
  - unfold Spec.sum_owed. ring.
  - fold (Spec.sum_owed (rows ++ rows')). fold (Spec.sum_owed rows). rewrite IH. ring.
Qed.

Section NewExpense.
Variable st : store.
Variable e : Expense.t.
Variable rows : list ExpenseParticipant.t.
Let st2 := mk_store (profiles st) (groups st) (expenses st ++ [e])
             (expense_participants st ++ rows) (settlements st) (friendships st).

Lemma find_expense_old i :
  In i (map Expense.id (expenses st)) -> find_expense st2 i = find_expense st i.
Proof.
  intros H. destruct (find_expense_some st i H) as [e' He']. rewrite He'.
  unfold find_expense in *. cbn [expenses st2]. now apply find_app_some.
Qed.

Lemma find_expense_new :
  ~ In (Expense.id e) (map Expense.id (expenses st)) ->
  find_expense st2 (Expense.id e) = Some e.
Proof.
  intros H. unfold find_expense. cbn [expenses st2].
  rewrite find_app_none.
  - cbn. now rewrite String.eqb_refl.
  - destruct (find (fun e0 => String.eqb (Expense.id e0) (Expense.id e)) (expenses st))
      as [x|] eqn:F; [|reflexivity].
    exfalso. apply H. apply find_some in F. destruct F as [Hin Heq].
    apply String.eqb_eq in Heq. rewrite <- Heq. now apply in_map.
Qed.
End NewExpense.

(** The payer's own row is the only new row of the payer. *)
Lemma own_new_row i (A : Q) payer sel :
  NoDup sel -> In payer sel ->
  Spec.sum_owed
    (filter (fun p => String.eqb (ExpenseParticipant.user_id p) payer
                      && negb (ExpenseParticipant.is_settled p))
       (map (fun identity => ExpenseParticipant.mk i identity A false) sel))
  == A.
Proof.
  intros Hnd. induction Hnd as [|x sel Hx Hnd IH]; intros Hin; [destruct Hin|].
  cbn [map filter ExpenseParticipant.user_id ExpenseParticipant.is_settled negb].
  destruct (String.eqb x payer) eqn:E; cbn [andb].
  - apply String.eqb_eq in E. subst x.
    cbn [Spec.sum_owed fold_right ExpenseParticipant.amount_owed].
    assert (Hnone : filter (fun p => String.eqb (ExpenseParticipant.user_id p) payer
                                     && negb (ExpenseParticipant.is_settled p))
                      (map (fun identity => ExpenseParticipant.mk i identity A false) sel) = []).
    { clear IH Hin Hnd. induction sel as [|y sel IH]; [reflexivity|].
      cbn [map filter ExpenseParticipant.user_id].
      destruct (String.eqb y payer) eqn:E.
      - apply String.eqb_eq in E. subst y. exfalso. apply Hx. now left.
      - cbn [andb]. apply IH. intros H. apply Hx. now right. }
    rewrite Hnone. cbn. ring.
  - apply IH. destruct Hin as [->|Hin]; [|exact Hin].
    now rewrite String.eqb_refl in E.
Qed.

(** Rows of an expense the user paid are not counted as owing. *)
Lemma own_expense_not_owing st payer e rows :
  find_expense st (Expense.id e) = Some e ->
  Expense.paid_by e = payer ->
  Forall (fun p => ExpenseParticipant.expense_id p = Expense.id e) rows ->
  filter (fun p => String.eqb (ExpenseParticipant.user_id p) payer
                   && Spec.paid_by_not st p payer
                   && negb (ExpenseParticipant.is_settled p)) rows = [].
Proof.
  intros Hfind Hpaid. induction 1 as [|p rows Hp _ IH]; [reflexivity|].
  cbn [filter]. unfold Spec.paid_by_not at 1. rewrite Hp, Hfind, Hpaid, String.eqb_refl.
  cbn [negb]. rewrite andb_false_r. exact IH.
Qed.

(** C3 (what the code does): an expense of 300 split equally among three
    participants that include the payer gives each participant an
    [amount_owed] of 100 and leaves the payer's [total_owing] as it was; the
    payer's [total_owed] grows by 100, the payer's own share, and not by the
    200 of the two other shares: the dashboard sums the rows whose
    [user_id] is the user. *)
Theorem payer_total_owed_grows_by_own_share be payer selectedGroup selectedParticipants form st :
  (forall r, serves be r = true) ->
  str_truthy selectedGroup = true ->
  str_truthy (AddExpense.description form) = true ->
  AddExpense.amount form = Some 300 ->
  List.length selectedParticipants = 3%nat ->
  NoDup selectedParticipants ->
  In payer selectedParticipants ->
  foreign_key st ->
  unique_participant st ->
  let e := Expense.mk (gen_random_uuid be) (AddExpense.description form) 300
             (AddExpense.expenseDate form) (Some selectedGroup) payer in
  let rows := AddExpense.participants exact (Expense.id e) 300 selectedParticipants in
  expense_ok st e = true ->
  let w := exec (AddExpense.handleSubmit exact be payer selectedGroup selectedParticipants form)
             (initial st) in
  let before := balances (exec (Dashboard.fetchDashboardData exact be payer) (initial st)) in
  let after := balances (exec (Dashboard.fetchDashboardData exact be payer) (initial (db w))) in
  expense_participants (db w) = (expense_participants st ++ rows)%list
  /\ Forall (fun r => ExpenseParticipant.amount_owed r == 100) rows
  /\ total_owed after == total_owed before + 100
  /\ ~ total_owed after == total_owed before + 200
  /\ total_owing after == total_owing before.
Proof.
  intros Hbe Hg Hd Ha Hlen Hnd Hin Hfk Hup e rows Hok w before after.
  assert (Hrows := participants_accepted st e 300 selectedParticipants Hfk Hup Hok Hnd
                     ltac:(discriminate)).
  assert (Hsel : selectedParticipants <> []) by (intros ->; discriminate).
  assert (Hw : db w = mk_store (profiles st) (groups st) (expenses st ++ [e])
                        (expense_participants st ++ rows) (settlements st) (friendships st)).
  { unfold w. rewrite (handleSubmit_success exact be payer _ _ _ 300); auto. }
  assert (Hshare : AddExpense.amountPerPerson exact 300 selectedParticipants == 100).
  { unfold AddExpense.amountPerPerson, js_div, exact, of_length. rewrite Hlen. reflexivity. }
  destruct (dashboard_sums be payer st (Hbe _) (Hbe _)) as [Ho [Hg' _]].
  destruct (dashboard_sums be payer (db w) (Hbe _) (Hbe _)) as [Ho' [Hg'' _]].
  fold before in Ho, Hg'. fold after in Ho', Hg''.
  assert (Hfresh := expense_ok_fresh st e Hok).
  assert (Howed : Spec.total_owed payer (db w) == Spec.total_owed payer st + 100).
  { unfold Spec.total_owed. rewrite Hw. cbn [expense_participants].
    rewrite filter_app, sum_owed_app. unfold rows, AddExpense.participants.
    rewrite own_new_row by assumption. now rewrite Hshare. }
  assert (Howing : Spec.total_owing payer (db w) = Spec.total_owing payer st).
  { unfold Spec.total_owing. rewrite Hw. cbn [expense_participants].
    rewrite filter_app.
    assert (Hnew : filter (fun p => String.eqb (ExpenseParticipant.user_id p) payer
                      && Spec.paid_by_not (mk_store (profiles st) (groups st) (expenses st ++ [e])
                           (expense_participants st ++ rows) (settlements st) (friendships st))
                           p payer
                      && negb (ExpenseParticipant.is_settled p)) rows = []).
    { apply (own_expense_not_owing _ payer e).
      - apply (find_expense_new st e rows Hfresh).
      - reflexivity.
      - unfold rows, AddExpense.participants. apply Forall_forall. intros r Hr.
        apply in_map_iff in Hr. destruct Hr as [i [<- _]]. reflexivity. }
    rewrite Hnew, app_nil_r. f_equal. apply filter_ext_in. intros p Hp.
    unfold Spec.paid_by_not. rewrite find_expense_old; [reflexivity|].
    unfold foreign_key in Hfk. rewrite Forall_forall in Hfk. now apply Hfk. }
  split; [now rewrite Hw|]. split; [|split; [|split]].
  - unfold rows, AddExpense.participants. apply Forall_forall. intros r Hr.
    apply in_map_iff in Hr. destruct Hr as [i [<- _]]. exact Hshare.
  - rewrite Ho', Ho. exact Howed.
  - rewrite Ho', Ho, Howed. intros H. lra.
  - rewrite Hg'', Hg', Howing. reflexivity.
Qed.

Lemma payer_total_owed_grows_by_own_share_witness :
  let w := exec (AddExpense.handleSubmit exact always "u" "g" ["u"; "v"; "w"] dinner)
             (initial household) in
  total_owed (balances (exec (Dashboard.fetchDashboardData exact always "u") (initial (db w))))
  == total_owed (balances (exec (Dashboard.fetchDashboardData exact always "u")
                             (initial household))) + 100.
Proof.
  refine (proj1 (proj2 (proj2
            (payer_total_owed_grows_by_own_share always "u" "g" ["u"; "v"; "w"] dinner
               household _ _ _ _ _ _ _ _ _ _)))); try reflexivity.
  - repeat (apply NoDup_cons; [cbn; intuition discriminate|]). apply NoDup_nil.
  - now left.
  - apply Forall_nil.
Defined.

(** The scenario on the empty ledger: the payer's dashboard shows 100. *)
Example payer_dashboard_after_dinner :
  let w := exec (AddExpense.handleSubmit exact always "u" "g" ["u"; "v"; "w"] dinner)
             (initial household) in
  let b := balances (exec (Dashboard.fetchDashboardData exact always "u") (initial (db w))) in
  total_owed b == 100 /\ total_owing b == 0 /\ net_balance b == 100.
Proof. cbn. repeat split; reflexivity. Qed.

(** ** Recording a settlement *)

Section HandleSettle.
Variable rnd : arithmetic.
Variable be : backend.
Variable user : uuid.
Variable w : world.

Lemma handleSettle_missing_field selectedDebt settleAmount settleDescription :
  selectedDebt = None \/ settleAmount = None \/ str_truthy (trim settleDescription) = false ->
  exec (SettleUp.handleSettle rnd be user selectedDebt settleAmount settleDescription) w
  = mk_world (db w) (issued w) (toasts w ++ [SettleUp.validation_error]) (location w)
      (balances w) (debts w) (history w) (friends w).
Proof.
  intros H. unfold SettleUp.handleSettle.
  destruct selectedDebt as [d|]; [|reflexivity].
  destruct H as [H|[H|H]]; [discriminate| |].
  - rewrite H. reflexivity.
  - rewrite H. rewrite orb_true_r. reflexivity.
Qed.

Lemma handleSettle_nonpositive selected amount settleDescription :
  str_truthy (trim settleDescription) = true ->
  amount <= 0 ->
  exec (SettleUp.handleSettle rnd be user (Some selected) (Some amount) settleDescription) w
  = mk_world (db w) (issued w) (toasts w ++ [SettleUp.invalid_amount]) (location w)
      (balances w) (debts w) (history w) (friends w).
Proof.
  intros Hd Hle. unfold SettleUp.handleSettle. rewrite Hd. cbn [input_truthy negb orb parseFloat].
  unfold js_le0. apply Qle_bool_iff in Hle. rewrite Hle. reflexivity.
Qed.

Lemma handleSettle_valid selected amount settleDescription :
  str_truthy (trim settleDescription) = true ->
  0 < amount ->
  SettleUp.handleSettle rnd be user (Some selected) (Some amount) settleDescription =
  try_catch
    (r <- insert_settlement be
            (Settlement.mk user (debt_user_id selected) amount
               (trim settleDescription) (SettleUp.settlement_group_id selected)) ;;
     match r with
     | Error => throw
     | Data _ => show SettleUp.payment_recorded ;; SettleUp.fetchDebtsAndSettlements rnd be user
     end)
    (show SettleUp.failure_record).
Proof.
  intros Hd Hlt. unfold SettleUp.handleSettle. rewrite Hd. cbn [input_truthy negb orb parseFloat].
  unfold js_le0. destruct (Qle_bool amount 0) eqn:E; [|reflexivity].
  apply Qle_bool_iff in E. lra.
Qed.
End HandleSettle.

Lemma settlement_group_id_null d : SettleUp.settlement_group_id d = None.
Proof.
  unfold SettleUp.settlement_group_id.
  destruct (debt_group_name d) as [n|]; [destruct (str_truthy n)|]; reflexivity.
Qed.

Lemma handleSettle_recorded rnd be user selected amount settleDescription w :
  str_truthy (trim settleDescription) = true ->
  0 < amount ->
  let row := Settlement.mk user (debt_user_id selected) amount (trim settleDescription) None in
  serves be (InsertSettlement row) = true ->
  db (exec (SettleUp.handleSettle rnd be user (Some selected) (Some amount) settleDescription) w)
  = with_settlement (db w) row.
Proof.
  intros Hd Hpos row Hs.
  rewrite handleSettle_valid by assumption.
  rewrite settlement_group_id_null. fold row.
  unfold exec, try_catch, bind.
  assert (Hok : settlement_ok row = true).
  { unfold settlement_ok, row. cbn. apply negb_true_iff.
    destruct (Qle_bool amount 0) eqn:E; [|reflexivity].
    apply Qle_bool_iff in E. lra. }
  rewrite insert_settlement_accepted by assumption.
  cbn [show modify].
  match goal with
  | |- context [SettleUp.fetchDebtsAndSettlements rnd be user ?x] =>
      pose proof (fetchDebtsAndSettlements_read_only rnd be user x) as [Hdb _];
      destruct (SettleUp.fetchDebtsAndSettlements rnd be user x) as [[a|] w'']
  end; cbn [snd db commit send show modify] in *; rewrite Hdb; reflexivity.
Qed.

Lemma handleSettle_store rnd be user selectedDebt settleAmount settleDescription w :
  let w' := exec (SettleUp.handleSettle rnd be user selectedDebt settleAmount settleDescription) w in
  db w' = db w
  \/ exists selected amount,
       selectedDebt = Some selected /\ settleAmount = Some amount
       /\ db w' = with_settlement (db w)
                    (Settlement.mk user (debt_user_id selected) amount
                       (trim settleDescription) None).
Proof.
  intros w'. subst w'.
  destruct selectedDebt as [selected|];
    [|left; rewrite handleSettle_missing_field; auto].
  destruct settleAmount as [amount|];
    [|left; rewrite handleSettle_missing_field; auto].
  destruct (str_truthy (trim settleDescription)) eqn:Hd;
    [|left; rewrite handleSettle_missing_field; auto].
  destruct (Qlt_le_dec 0 amount) as [Hpos|Hle];
    [|left; rewrite handleSettle_nonpositive; auto].
  set (row := Settlement.mk user (debt_user_id selected) amount (trim settleDescription) None).
  destruct (serves be (InsertSettlement row)) eqn:Hs.
  - right. exists selected, amount. repeat split. now apply handleSettle_recorded.
  - left. rewrite handleSettle_valid by assumption.
    rewrite settlement_group_id_null. fold row.
    unfold exec, try_catch, bind.
    rewrite insert_settlement_rejected by auto. reflexivity.
Qed.

(** C5: recording a settlement only appends a row to settlements.  Every
    other table, expense_participants with its [is_settled] flags included,
    is what it was, so the totals the dashboard derives from the unsettled
    rows are the same before and after. *)
Theorem settlement_leaves_ledger rnd be user selectedDebt settleAmount settleDescription st :
  let w := exec (SettleUp.handleSettle rnd be user selectedDebt settleAmount settleDescription)
             (initial st) in
  expense_participants (db w) = expense_participants st
  /\ expenses (db w) = expenses st
  /\ profiles (db w) = profiles st
  /\ groups (db w) = groups st
  /\ friendships (db w) = friendships st
  /\ (settlements (db w) = settlements st
      \/ exists row, settlements (db w) = (settlements st ++ [row])%list
                     /\ Settlement.from_user row = user)
  /\ (forall selected amount,
        selectedDebt = Some selected -> settleAmount = Some amount ->
        str_truthy (trim settleDescription) = true -> 0 < amount ->
        let row := Settlement.mk user (debt_user_id selected) amount
                     (trim settleDescription) None in
        serves be (InsertSettlement row) = true ->
        settlements (db w) = (settlements st ++ [row])%list)
  /\ (forall rnd' be' self,
        balances (exec (Dashboard.fetchDashboardData rnd' be' self) (initial (db w)))
        = balances (exec (Dashboard.fetchDashboardData rnd' be' self) (initial st))).
Proof.
  intros w.
  assert (Hframe : expense_participants (db w) = expense_participants st
                   /\ expenses (db w) = expenses st
                   /\ profiles (db w) = profiles st
                   /\ groups (db w) = groups st
                   /\ friendships (db w) = friendships st
                   /\ (settlements (db w) = settlements st
                       \/ exists row, settlements (db w) = (settlements st ++ [row])%list
                                      /\ Settlement.from_user row = user)).
  { destruct (handleSettle_store rnd be user selectedDebt settleAmount settleDescription
                (initial st)) as [H|[selected [amount [_ [_ H]]]]];
      fold w in H; rewrite H; cbn; repeat split; auto.
    right. eexists. split; reflexivity. }
  destruct Hframe as [Hp [He [Hpr [Hg [Hf Hs]]]]].
  repeat split; auto.
  - intros selected amount -> -> Hd Hpos row Hserves.
    unfold w. rewrite handleSettle_recorded by assumption. reflexivity.
  - intros rnd' be' self. rewrite !fetchDashboardData_balances. cbn [db initial].
    rewrite (owed_rows_ext self (db w) st Hp), (owing_rows_ext self (db w) st He Hp).
    reflexivity.
Qed.

(** ** Adding a friend *)

Lemma unchecked_single be user t st :
  unchecked be user t st ->
  match answer be (q_friendship_between user t) (Friends.friendship_between user t st) with
  | Data rows => Friends.single rows
  | Error => Error
  end = Error.
Proof.
  unfold answer. intros [Hs|Hne]; [now rewrite Hs|].
  destruct (serves be (Select (q_friendship_between user t))); [|reflexivity].
  destruct (Friends.friendship_between user t st) as [|x [|y l]]; try reflexivity.
  now destruct (Hne x).
Qed.

Section AddFriend.
Variable be : backend.
Variable user : uuid.
Variable newFriendEmail : string.
Variable w : world.
Variable target : Profile.t.

Let email := trim newFriendEmail.
Let t := Profile.id target.
Let row := Friendship.mk user t pending.

Hypothesis Hemail : str_truthy email = true.
Hypothesis Hlookup : serves be (Select (q_profile_by_email email)) = true.
Hypothesis Hfound : Friends.profile_by_email email (db w) = [target].

Lemma addFriend_self :
  t = user ->
  exec (Friends.addFriend be user newFriendEmail) w
  = mk_world (db w) (issued w ++ [Select (q_profile_by_email email)])
      (toasts w ++ [Friends.invalid_action]) (location w)
      (balances w) (debts w) (history w) (friends w).
Proof.
  intros Hself. unfold Friends.addFriend. fold email. rewrite Hemail. cbn [negb].
  unfold exec, try_catch, bind. rewrite select_served by assumption.
  rewrite Hfound. cbn [Friends.single]. fold t. rewrite Hself, String.eqb_refl.
  reflexivity.
Qed.

Lemma addFriend_existing existing :
  t <> user ->
  serves be (Select (q_friendship_between user t)) = true ->
  Friends.friendship_between user t (db w) = [existing] ->
  exec (Friends.addFriend be user newFriendEmail) w
  = mk_world (db w)
      (issued w ++ [Select (q_profile_by_email email); Select (q_friendship_between user t)])
      (toasts w ++ [Friends.already_friends]) (location w)
      (balances w) (debts w) (history w) (friends w).
Proof.
  intros Hother Hs Hex. unfold Friends.addFriend. fold email. rewrite Hemail. cbn [negb].
  unfold exec, try_catch, bind. rewrite select_served by assumption.
  rewrite Hfound. cbn [Friends.single]. fold t.
  destruct (String.eqb t user) eqn:E; [apply String.eqb_eq in E; contradiction|].
  rewrite select_served by assumption. cbn [db send]. rewrite Hex. cbn.
  rewrite <- app_assoc. reflexivity.
Qed.

Lemma addFriend_refused :
  t <> user -> unchecked be user t (db w) ->
  serves be (InsertFriendship row) = false \/ friendship_ok (db w) row = false ->
  db (exec (Friends.addFriend be user newFriendEmail) w) = db w.
Proof.
  intros Hother Hun Hrej. unfold Friends.addFriend. fold email. rewrite Hemail. cbn [negb].
  unfold exec, try_catch, bind. rewrite select_served by assumption.
  rewrite Hfound. cbn [Friends.single]. fold t.
  destruct (String.eqb t user) eqn:E; [apply String.eqb_eq in E; contradiction|].
  rewrite select_answer. cbn [db send]. rewrite (unchecked_single be user t (db w) Hun).
  fold row.
  rewrite insert_friendship_rejected by exact Hrej.
  reflexivity.
Qed.

Lemma addFriend_inserted :
  t <> user -> unchecked be user t (db w) ->
  serves be (InsertFriendship row) = true -> friendship_ok (db w) row = true ->
  db (exec (Friends.addFriend be user newFriendEmail) w)
  = mk_store (profiles (db w)) (groups (db w)) (expenses (db w))
      (expense_participants (db w)) (settlements (db w)) (friendships (db w) ++ [row]).
Proof.
  intros Hother Hun Hs Hok. unfold Friends.addFriend. fold email. rewrite Hemail. cbn [negb].
  unfold exec, try_catch, bind. rewrite select_served by assumption.
  rewrite Hfound. cbn [Friends.single]. fold t.
  destruct (String.eqb t user) eqn:E; [apply String.eqb_eq in E; contradiction|].
  rewrite select_answer. cbn [db send]. rewrite (unchecked_single be user t (db w) Hun).
  fold row.
  rewrite insert_friendship_accepted by assumption.
  cbn [show modify].
  match goal with
  | |- context [Friends.fetchFriends be user ?x] =>
      pose proof (fetchFriends_read_only be user x) as [Hro _];
      destruct (Friends.fetchFriends be user x) as [[a|] w'']
  end; cbn [snd db commit send show modify] in *; rewrite Hro; reflexivity.
Qed.
End AddFriend.

Lemma addFriend_not_found be user newFriendEmail w :
  str_truthy (trim newFriendEmail) = false
  \/ serves be (Select (q_profile_by_email (trim newFriendEmail))) = false
  \/ (forall target, Friends.profile_by_email (trim newFriendEmail) (db w) <> [target]) ->
  db (exec (Friends.addFriend be user newFriendEmail) w) = db w
  /\ filter is_write (issued (exec (Friends.addFriend be user newFriendEmail) w))
     = filter is_write (issued w).
Proof.
  intros H. unfold Friends.addFriend.
  destruct (str_truthy (trim newFriendEmail)) eqn:He; cbn [negb]; [|split; reflexivity].
  destruct H as [H|H]; [discriminate|].
  unfold exec, try_catch, bind, select.
  destruct (serves be (Select (q_profile_by_email (trim newFriendEmail)))) eqn:Hs.
  - destruct H as [H|H]; [discriminate|].
    destruct (Friends.profile_by_email (trim newFriendEmail) (db w)) as [|x [|y l]] eqn:Hp;
      cbn; rewrite ?filter_app; cbn; rewrite ?app_nil_r; auto.
    now destruct (H x).
  - cbn. rewrite ?filter_app; cbn; rewrite ?app_nil_r; auto.
Qed.

Lemma between_cases user t f :
  Friends.between user t f = true ->
  (Friendship.user_id f = user /\ Friendship.friend_id f = t)
  \/ (Friendship.user_id f = t /\ Friendship.friend_id f = user).
Proof.
  unfold Friends.between. intros H. apply orb_prop in H.
  destruct H as [H|H]; apply andb_prop in H; destruct H as [H1 H2];
    apply String.eqb_eq in H1, H2; auto.
Qed.

Lemma same_friendship_ends f g :
  Friendship.user_id f = Friendship.user_id g ->
  Friendship.friend_id f = Friendship.friend_id g ->
  same_friendship f g = true.
Proof. unfold same_friendship. intros -> ->. now rewrite !String.eqb_refl. Qed.

(** Under the UNIQUE constraint, when several rows link the two users the
    row from [user] to [t] is one of them. *)
Lemma both_directions st user t :
  unique_friendship st ->
  existsb (Friends.between user t) (friendships st) = true ->
  (forall existing, Friends.friendship_between user t st <> [existing]) ->
  friendship_ok st (Friendship.mk user t pending) = false.
Proof.
  intros Hu Hex Hne. unfold friendship_ok. apply negb_false_iff.
  pose proof (distinct_filter same_friendship (Friends.between user t) _ Hu) as Hd.
  fold (Friends.friendship_between user t st) in Hd.
  assert (Hin : forall x, In x (Friends.friendship_between user t st) ->
                  In x (friendships st) /\ Friends.between user t x = true)
    by (intros x Hx; now apply filter_In in Hx).
  destruct (Friends.friendship_between user t st) as [|x [|y l]] eqn:E.
  - apply existsb_exists in Hex. destruct Hex as [x [Hx Hb]].
    assert (H : In x (Friends.friendship_between user t st))
      by (apply filter_In; split; assumption).
    rewrite E in H. destruct H.
  - now destruct (Hne x).
  - destruct (Hin x (or_introl eq_refl)) as [Hx Hbx].
    destruct (Hin y (or_intror (or_introl eq_refl))) as [Hy Hby].
    cbn [distinct existsb] in Hd. apply andb_prop in Hd. destruct Hd as [Hxy _].
    apply negb_true_iff in Hxy. apply orb_false_iff in Hxy. destruct Hxy as [Hxy _].
    apply existsb_exists.
    destruct (between_cases _ _ _ Hbx) as [[X1 X2]|[X1 X2]].
    + exists x. split; [exact Hx|]. apply same_friendship_ends; cbn; congruence.
    + destruct (between_cases _ _ _ Hby) as [[Y1 Y2]|[Y1 Y2]].
      * exists y. split; [exact Hy|]. apply same_friendship_ends; cbn; congruence.
      * rewrite same_friendship_ends in Hxy by congruence. discriminate.
Qed.

(** A request with an email starts with the look-up of the profile. *)
Lemma addFriend_looks_up be user newFriendEmail w :
  str_truthy (trim newFriendEmail) = true ->
  exists rest,
    issued (exec (Friends.addFriend be user newFriendEmail) w)
    = (issued w ++ Select (q_profile_by_email (trim newFriendEmail)) :: rest)%list.
Proof.
  intros He. unfold Friends.addFriend. rewrite He. cbn [negb].
  match goal with
  | |- context [try_catch (bind ?m ?k) ?h] =>
      assert (Hk : forall a, logs (k a));
      [intros a; cbv beta; unfold insert_friendship; logs_steps|];
      assert (Hh : logs h) by (apply logs_modify; reflexivity);
      set (K := k) in *; set (H := h) in *
  end.
  unfold exec, try_catch, bind. rewrite select_answer.
  destruct (Hk (answer be (q_profile_by_email (trim newFriendEmail))
                  (Friends.profile_by_email (trim newFriendEmail) (db w)))
               (send (Select (q_profile_by_email (trim newFriendEmail))) w)) as [l Hl].
  destruct (K _ _) as [[a|] w'] eqn:E; cbn [snd] in *.
  - exists l. rewrite Hl. cbn [issued send]. now rewrite <- app_assoc.
  - destruct (Hh w') as [l' Hl']. exists (l ++ l')%list. rewrite Hl', Hl. cbn [issued send].
    now rewrite <- !app_assoc.
Qed.

Lemma no_link_is_fresh st user t :
  existsb (Friends.between user t) (friendships st) = false ->
  friendship_ok st (Friendship.mk user t pending) = true
  /\ Friends.friendship_between user t st = [].
Proof.
  intros H. split.
  - unfold friendship_ok. apply negb_true_iff.
    destruct (existsb (same_friendship (Friendship.mk user t pending)) (friendships st)) eqn:E;
      [|reflexivity].
    apply existsb_exists in E. destruct E as [f [Hf Hs]].
    rewrite <- H. symmetry. apply existsb_exists. exists f. split; [exact Hf|].
    unfold same_friendship in Hs. cbn in Hs. apply andb_prop in Hs. destruct Hs as [H1 H2].
    apply String.eqb_eq in H1, H2. unfold Friends.between.
    rewrite <- H1, <- H2, !String.eqb_refl. reflexivity.
  - unfold Friends.friendship_between.
    destruct (filter (Friends.between user t) (friendships st)) as [|f l] eqn:E; [reflexivity|].
    assert (Hin : In f (filter (Friends.between user t) (friendships st)))
      by (rewrite E; now left).
    apply filter_In in Hin.
    assert (Hex : existsb (Friends.between user t) (friendships st) = true)
      by (apply existsb_exists; now exists f).
    congruence.
Qed.

(** C9: an add-friend request looks the target up by email.  When the
    target is the requesting user, or a friendship row links the two users
    in either direction, the store is left as it is; otherwise exactly one
    row, from the user to the target with status [pending], is inserted. *)
Theorem friend_request be user newFriendEmail target st :
  let email := trim newFriendEmail in
  let t := Profile.id target in
  let row := Friendship.mk user t pending in
  let w := exec (Friends.addFriend be user newFriendEmail) (initial st) in
  str_truthy email = true ->
  serves be (Select (q_profile_by_email email)) = true ->
  serves be (Select (q_friendship_between user t)) = true ->
  Friends.profile_by_email email st = [target] ->
  unique_friendship st ->
  (exists rest, issued w = Select (q_profile_by_email email) :: rest)
  /\ (t = user -> db w = st /\ existsb is_write (issued w) = false)
  /\ (existsb (Friends.between user t) (friendships st) = true -> db w = st)
  /\ (t <> user ->
      existsb (Friends.between user t) (friendships st) = false ->
      serves be (InsertFriendship row) = true ->
      db w = mk_store (profiles st) (groups st) (expenses st) (expense_participants st)
               (settlements st) (friendships st ++ [row])).
Proof.
  intros email t row w He Hl Hc Hfound Hu.
  split; [|split; [|split]].
  - destruct (addFriend_looks_up be user newFriendEmail (initial st) He) as [rest Hr].
    exists rest. exact Hr.
  - intros Hself. unfold w.
    rewrite (addFriend_self be user newFriendEmail (initial st) target) by assumption.
    split; reflexivity.
  - intros Hex. destruct (String.eqb t user) eqn:Et.
    + apply String.eqb_eq in Et. unfold w.
      rewrite (addFriend_self be user newFriendEmail (initial st) target) by assumption.
      reflexivity.
    + apply String.eqb_neq in Et.
      destruct (Friends.friendship_between user t st) as [|x [|y l]] eqn:E.
      * apply (addFriend_refused be user newFriendEmail (initial st) target); auto.
        -- right. intros existing. cbn [db initial]. fold t. congruence.
        -- right. apply both_directions; [exact Hu|exact Hex|]. intros existing.
           cbn [db initial]. fold t. congruence.
      * unfold w.
        rewrite (addFriend_existing be user newFriendEmail (initial st) target He Hl Hfound x);
          auto.
      * apply (addFriend_refused be user newFriendEmail (initial st) target); auto.
        -- right. intros existing. cbn [db initial]. fold t. congruence.
        -- right. apply both_directions; [exact Hu|exact Hex|]. intros existing.
           cbn [db initial]. fold t. congruence.
  - intros Hother Hnone Hs. destruct (no_link_is_fresh st user t Hnone) as [Hok Hempty].
    apply (addFriend_inserted be user newFriendEmail (initial st) target); auto.
    right. intros existing. cbn [db initial]. fold t. congruence.
Qed.

Lemma friend_request_witness :
  db (exec (Friends.addFriend always "u" " w@example.org ") (initial circle))
  = mk_store (profiles circle) [] [] [] []
      [Friendship.mk "v" "u" accepted; Friendship.mk "u" "w" pending].
Proof.
  refine (proj2 (proj2 (proj2
            (friend_request always "u" " w@example.org " (Profile.mk "w" "Wen" "w@example.org")
               circle _ _ _ _ _))) _ _ _); try reflexivity.
  discriminate.
Defined.

(** The row from v to u keeps u from sending a request to v. *)
Example reverse_request_is_refused :
  let w := exec (Friends.addFriend always "u" "v@example.org") (initial circle) in
  db w = circle /\ toasts w = [Friends.already_friends].
Proof. split; reflexivity. Qed.

(** ** The settle-up map *)

Section DebtMap.
Variable rnd : arithmetic.

Lemma has_keys k (m : SettleUp.debt_map) : SettleUp.has k m = true <-> In k (map fst m).
Proof.
  unfold SettleUp.has. rewrite existsb_exists. split.
  - intros [kv [Hin Heq]]. apply String.eqb_eq in Heq. subst k. now apply in_map.
  - intros H. apply in_map_iff in H. destruct H as [kv [<- Hin]].
    exists kv. split; [exact Hin|apply String.eqb_refl].
Qed.

Lemma add_amount_keys k a m : map fst (SettleUp.add_amount rnd k a m) = map fst m.
Proof.
  induction m as [|[k' d] m IH]; [reflexivity|]. cbn [SettleUp.add_amount].
  destruct (String.eqb k' k); cbn [map fst]; [reflexivity|now rewrite IH].
Qed.

Lemma add_amount_filed k a m :
  Forall (fun kv => debt_user_id (snd kv) = fst kv) m ->
  Forall (fun kv => debt_user_id (snd kv) = fst kv) (SettleUp.add_amount rnd k a m).
Proof.
  induction 1 as [|[k' d] m Hd Hm IH]; [constructor|]. cbn [SettleUp.add_amount].
  destruct (String.eqb k' k); constructor; auto.
Qed.

Lemma merge_well_keyed who a g m :
  well_keyed m -> well_keyed (SettleUp.merge rnd who a g m).
Proof.
  intros [Hnd Hf]. unfold SettleUp.merge.
  destruct (SettleUp.has (Profile.id who) m) eqn:E.
  - split; [now rewrite add_amount_keys|now apply add_amount_filed].
  - unfold SettleUp.set. split.
    + rewrite map_app. cbn [map fst]. apply NoDup_app; [exact Hnd|repeat constructor; auto|].
      intros x Hx [<-|[]]. apply has_keys in Hx. congruence.
    + apply Forall_app. split; [exact Hf|]. repeat constructor.
Qed.

Lemma merge_keys who a g m k :
  In k (map fst (SettleUp.merge rnd who a g m)) <-> In k (map fst m) \/ k = Profile.id who.
Proof.
  unfold SettleUp.merge. destruct (SettleUp.has (Profile.id who) m) eqn:E.
  - rewrite add_amount_keys. apply has_keys in E. split; [auto|]. intros [H| ->]; auto.
  - unfold SettleUp.set. rewrite map_app, in_app_iff. cbn. intuition.
Qed.
End DebtMap.

Lemma owes_step_contributes rnd expenseData payerData m item :
  SettleUp.owes_step rnd expenseData payerData m item
  = match owes_contribution expenseData payerData item with
    | Some c => contribute rnd m c
    | None => m
    end.
Proof.
  unfold SettleUp.owes_step, owes_contribution.
  repeat match goal with
         | |- context [match find ?f ?l with _ => _ end] => destruct (find f l)
         end; reflexivity.
Qed.

Lemma owed_step_contributes rnd userExpenseData participantData m item :
  SettleUp.owed_step rnd userExpenseData participantData m item
  = match owed_contribution userExpenseData participantData item with
    | Some c => contribute rnd m c
    | None => m
    end.
Proof.
  unfold SettleUp.owed_step, owed_contribution.
  repeat match goal with
         | |- context [match find ?f ?l with _ => _ end] => destruct (find f l)
         end; reflexivity.
Qed.

Lemma fold_contributions {A} rnd (step : SettleUp.debt_map -> A -> SettleUp.debt_map)
    (f : A -> option contribution) items m :
  (forall m item, step m item = match f item with Some c => contribute rnd m c | None => m end) ->
  fold_left step items m = fold_left (contribute rnd) (contributions f items) m.
Proof.
  intros Hstep. revert m. induction items as [|item items IH]; intros m; [reflexivity|].
  cbn [fold_left contributions flat_map]. rewrite Hstep, IH.
  destruct (f item) as [c|]; reflexivity.
Qed.

Lemma contribute_all_well_keyed rnd cs m :
  well_keyed m -> well_keyed (fold_left (contribute rnd) cs m).
Proof.
  revert m. induction cs as [|c cs IH]; intros m Hm; [exact Hm|].
  cbn [fold_left]. apply IH. now apply merge_well_keyed.
Qed.

Lemma contribute_all_keys rnd cs m k :
  In k (map fst (fold_left (contribute rnd) cs m))
  <-> In k (map fst m) \/ In k (map who cs).
Proof.
  revert m. induction cs as [|c cs IH]; intros m; cbn [fold_left map In].
  - tauto.
  - rewrite IH. unfold contribute at 1. rewrite merge_keys. unfold who. intuition.
Qed.

(** *** Amounts, in exact arithmetic *)

Lemma amount_at_add k a m k' :
  SettleUp.has k m = true ->
  amount_at k' (SettleUp.add_amount exact k a m)
  == amount_at k' m + (if String.eqb k k' then a else 0).
Proof.
  induction m as [|[k0 d] m IH]; [discriminate|].
  unfold SettleUp.has. cbn [existsb fst SettleUp.add_amount]. intros H.
  destruct (String.eqb k0 k) eqn:E0.
  - apply String.eqb_eq in E0. subst k0.
    unfold amount_at. cbn [find fst]. destruct (String.eqb k k') eqn:E1; cbn [snd debt_amount].
    + unfold js_add, exact. reflexivity.
    + ring.
  - cbn [orb] in H. unfold amount_at. cbn [find fst].
    destruct (String.eqb k0 k') eqn:E1; cbn [snd debt_amount].
    + destruct (String.eqb k k') eqn:E2; [|ring].
      apply String.eqb_eq in E1, E2. subst. now rewrite String.eqb_refl in E0.
    + apply IH. exact H.
Qed.

Lemma amount_at_set k d m k' :
  SettleUp.has k m = false ->
  amount_at k' (SettleUp.set k d m)
  == amount_at k' m + (if String.eqb k k' then debt_amount d else 0).
Proof.
  unfold SettleUp.set, amount_at, SettleUp.has. intros H.
  destruct (find (fun kv => String.eqb (fst kv) k') m) as [kv|] eqn:F.
  - rewrite (find_app_some _ _ _ _ F).
    destruct (String.eqb k k') eqn:E; [|ring].
    apply String.eqb_eq in E. subst k'. apply find_some in F.
    assert (Hex : existsb (fun kv => String.eqb (fst kv) k) m = true)
      by (apply existsb_exists; now exists kv).
    congruence.
  - rewrite (find_app_none _ _ _ F). cbn [find fst].
    destruct (String.eqb k k'); cbn [snd]; ring.
Qed.

Lemma amount_at_contribute c m k :
  amount_at k (contribute exact m c)
  == amount_at k m + (if String.eqb (who c) k then how_much c else 0).
Proof.
  unfold contribute, SettleUp.merge, who.
  destruct (SettleUp.has (Profile.id (fst (fst c))) m) eqn:E.
  - now apply amount_at_add.
  - rewrite amount_at_set by exact E. reflexivity.
Qed.

Lemma amount_at_contribute_all cs m k :
  amount_at k (fold_left (contribute exact) cs m) == amount_at k m + sum_for k cs.
Proof.
  revert m. induction cs as [|c cs IH]; intros m; cbn [fold_left sum_for fold_right].
  - ring.
  - rewrite IH, amount_at_contribute. fold (sum_for k cs).
    destruct (String.eqb (who c) k); ring.
Qed.

(** An entry of a well-keyed map holds the amount of its key. *)
Lemma amount_at_entry m k d :
  well_keyed m -> In (k, d) m -> amount_at k m = debt_amount d /\ debt_user_id d = k.
Proof.
  intros [Hnd Hf] Hin. split.
  - unfold amount_at. induction m as [|[k0 d0] m IH]; [destruct Hin|].
    cbn [find fst map] in *. inversion Hnd as [|? ? Hk0 Hnd']; subst.
    inversion Hf as [|? ? _ Hf']; subst.
    destruct Hin as [Heq|Hin].
    + inversion Heq; subst. now rewrite String.eqb_refl.
    + destruct (String.eqb k0 k) eqn:E; [|now apply IH].
      apply String.eqb_eq in E. subst k0. exfalso. apply Hk0.
      change k with (fst (k, d)). now apply in_map.
  - rewrite Forall_forall in Hf. exact (Hf _ Hin).
Qed.

(** *** The look-ups of the two passes *)

Lemma find_unique_filter (f : Expense.t -> bool) (g : Expense.t -> option string) es i :
  NoDup (map Expense.id es) ->
  find (fun e => String.eqb (Expense.id (fst e)) i) (map (fun e => (e, g e)) (filter f es))
  = match find (fun e => String.eqb (Expense.id e) i) es with
    | Some e => if f e then Some (e, g e) else None
    | None => None
    end.
Proof.
  induction es as [|x es IH]; intros Hnd; [reflexivity|].
  inversion Hnd as [|? ? Hx Hnd']; subst. cbn [filter find].
  destruct (String.eqb (Expense.id x) i) eqn:E.
  - destruct (f x); cbn [map find fst]; [now rewrite E|].
    rewrite (IH Hnd').
    destruct (find (fun e => String.eqb (Expense.id e) i) es) as [e|] eqn:F; [|reflexivity].
    exfalso. apply find_some in F. destruct F as [Hin Heq].
    apply String.eqb_eq in E, Heq. apply Hx. rewrite E, <- Heq. now apply in_map.
  - destruct (f x); cbn [map find fst]; rewrite ?E; apply (IH Hnd').
Qed.

Section Passes.
Variable user : uuid.
Variable st : store.
Hypothesis Hpk : primary_key st.

Let debtData := SettleUp.debt_rows user st.
Let expenseIds := map ExpenseParticipant.expense_id debtData.
Let expenseData := SettleUp.debt_expenses expenseIds user st.
Let payerIds := map (fun item : Expense.t * option string => Expense.paid_by (fst item))
                  expenseData.
Let payerData := SettleUp.profiles_in payerIds st.
Let owedData := SettleUp.unsettled_rows st.
Let userExpenseIds := map ExpenseParticipant.expense_id owedData.
Let userExpenseData := SettleUp.paid_expenses userExpenseIds user st.
Let participantIds := map ExpenseParticipant.user_id owedData.
Let participantData := SettleUp.profiles_in participantIds st.

Lemma first_pass_reads p :
  In p debtData -> owes_contribution expenseData payerData p = owes user st p.
Proof.
  intros Hp. unfold owes_contribution, owes, expenseData, SettleUp.debt_expenses.
  rewrite find_unique_filter by exact Hpk. fold (find_expense st (ExpenseParticipant.expense_id p)).
  destruct (find_expense st (ExpenseParticipant.expense_id p)) as [e|] eqn:F; [|reflexivity].
  assert (Hid : Expense.id e = ExpenseParticipant.expense_id p).
  { apply find_some in F. destruct F as [_ F]. now apply String.eqb_eq in F. }
  assert (Hmem : mem (Expense.id e) expenseIds = true).
  { apply mem_In. rewrite Hid. unfold expenseIds. now apply in_map. }
  rewrite Hmem. cbn [andb].
  destruct (negb (String.eqb (Expense.paid_by e) user)) eqn:En; [|reflexivity].
  cbn [fst snd]. unfold payerData, SettleUp.profiles_in, find_profile.
  rewrite find_filter; [reflexivity|].
  intros pr _ Hpr. apply String.eqb_eq in Hpr. apply mem_In. rewrite Hpr.
  unfold payerIds, expenseData, SettleUp.debt_expenses. rewrite map_map. cbn [fst].
  apply in_map. apply filter_In. split.
  - apply find_some in F. tauto.
  - now rewrite Hmem, En.
Qed.

Lemma second_pass_reads p :
  In p owedData -> owed_contribution userExpenseData participantData p = owed user st p.
Proof.
  intros Hp. unfold owed_contribution, owed, userExpenseData, SettleUp.paid_expenses.
  rewrite find_unique_filter by exact Hpk. fold (find_expense st (ExpenseParticipant.expense_id p)).
  destruct (find_expense st (ExpenseParticipant.expense_id p)) as [e|] eqn:F; [|reflexivity].
  assert (Hid : Expense.id e = ExpenseParticipant.expense_id p).
  { apply find_some in F. destruct F as [_ F]. now apply String.eqb_eq in F. }
  assert (Hmem : mem (Expense.id e) userExpenseIds = true).
  { apply mem_In. rewrite Hid. unfold userExpenseIds. now apply in_map. }
  rewrite Hmem. cbn [andb].
  destruct (String.eqb (Expense.paid_by e) user) eqn:En; [|reflexivity].
  cbn [fst snd]. unfold participantData, SettleUp.profiles_in, find_profile.
  rewrite find_filter; [reflexivity|].
  intros pr _ Hpr. apply String.eqb_eq in Hpr. apply mem_In. rewrite Hpr.
  unfold participantIds. now apply in_map.
Qed.
End Passes.

Lemma contributions_ext {A} (f g : A -> option contribution) items :
  (forall item, In item items -> f item = g item) ->
  contributions f items = contributions g items.
Proof.
  induction items as [|x items IH]; intros H; [reflexivity|].
  cbn [contributions flat_map]. rewrite (H x (or_introl eq_refl)). f_equal.
  apply IH. intros y Hy. apply H. now right.
Qed.

(** With its reads served, the page shows the non-zero entries of the map
    after the two passes. *)
Lemma fetchDebtsAndSettlements_debts rnd be user st :
  (forall q, serves be (Select q) = true) ->
  primary_key st ->
  debts (exec (SettleUp.fetchDebtsAndSettlements rnd be user) (initial st))
  = SettleUp.debtsList (netted rnd user st).
Proof.
  intros Hs Hpk. unfold SettleUp.fetchDebtsAndSettlements, exec, try_catch.
  do 6 (rewrite bind_read by apply Hs; cbv beta zeta; rewrite ?db_send).
  unfold setDebts. rewrite bind_modify. rewrite bind_read by apply Hs.
  unfold setSettlements, modify. cbn [snd debts]. unfold send at 1. cbn [debts].
  change (db (initial st)) with st. f_equal.
  unfold netted. rewrite fold_left_app.
  rewrite (fold_contributions rnd _ _ _ _ (owes_step_contributes rnd _ _)).
  rewrite (fold_contributions rnd _ _ _ _ (owed_step_contributes rnd _ _)).
  rewrite (contributions_ext _ _ _ (first_pass_reads user st Hpk)).
  rewrite (contributions_ext _ _ _ (second_pass_reads user st Hpk)).
  reflexivity.
Qed.

(** *** The sums of the two passes *)

Lemma find_profile_id st k pr : find_profile st k = Some pr -> Profile.id pr = k.
Proof.
  unfold find_profile. intros H. apply find_some in H. destruct H as [_ H].
  now apply String.eqb_eq in H.
Qed.

Lemma has_profile_find st k :
  has_profile st k = true <-> exists pr, find_profile st k = Some pr.
Proof.
  unfold has_profile, find_profile. split.
  - intros H. apply existsb_exists in H. destruct H as [pr [Hin Heq]].
    destruct (find (fun p => String.eqb (Profile.id p) k) (profiles st)) as [pr'|] eqn:F.
    + now exists pr'.
    + apply (find_none _ _ F) in Hin. congruence.
  - intros [pr H]. apply find_some in H. apply existsb_exists. now exists pr.
Qed.

Lemma sum_for_app k cs cs' : sum_for k (cs ++ cs') == sum_for k cs + sum_for k cs'.
Proof.
  induction cs as [|c cs IH]; cbn [app sum_for fold_right].
  - unfold sum_for. ring.
  - fold (sum_for k (cs ++ cs')). fold (sum_for k cs).
    destruct (String.eqb (who c) k); rewrite IH; ring.
Qed.

Lemma sum_for_absent k cs : ~ In k (map who cs) -> sum_for k cs == 0.
Proof.
  induction cs as [|c cs IH]; intros H; cbn [sum_for fold_right]; [reflexivity|].
  fold (sum_for k cs). cbn [map In] in H.
  destruct (String.eqb (who c) k) eqn:E.
  - apply String.eqb_eq in E. tauto.
  - apply IH. tauto.
Qed.

Lemma sum_for_cons k c cs :
  sum_for k (c :: cs) = if String.eqb (who c) k then how_much c + sum_for k cs else sum_for k cs.
Proof. reflexivity. Qed.

Lemma sum_owed_cons p rows :
  Spec.sum_owed (p :: rows) = ExpenseParticipant.amount_owed p + Spec.sum_owed rows.
Proof. reflexivity. Qed.

Lemma contributions_cons {A} (f : A -> option contribution) x items :
  contributions f (x :: items)
  = match f x with Some c => c :: contributions f items | None => contributions f items end.
Proof. unfold contributions. cbn [flat_map]. now destruct (f x). Qed.

Section Sums.
Variable user : uuid.
Variable st : store.
Variable k : uuid.

(** Whoever the first pass contributes to has a profile and is not the user. *)
Lemma owes_who p c :
  owes user st p = Some c -> has_profile st (who c) = true /\ who c <> user
                             /\ Spec.paid_by st p (who c) = true
                             /\ how_much c = ExpenseParticipant.amount_owed p.
Proof.
  unfold owes, Spec.paid_by.
  destruct (find_expense st (ExpenseParticipant.expense_id p)) as [e|]; [|discriminate].
  destruct (String.eqb (Expense.paid_by e) user) eqn:E; [discriminate|]. cbn [negb].
  destruct (find_profile st (Expense.paid_by e)) as [pr|] eqn:F; [|discriminate].
  intros H. inversion H; subst c. unfold who, how_much. cbn [fst snd].
  rewrite (find_profile_id _ _ _ F). repeat split.
  - apply has_profile_find. now exists pr.
  - intros Hu. rewrite Hu, String.eqb_refl in E. discriminate.
  - apply String.eqb_refl.
Qed.

Lemma owes_none p :
  owes user st p = None -> has_profile st k = true -> k <> user ->
  Spec.paid_by st p k = false.
Proof.
  unfold owes, Spec.paid_by. intros H Hk Hne.
  destruct (find_expense st (ExpenseParticipant.expense_id p)) as [e|]; [|reflexivity].
  destruct (String.eqb (Expense.paid_by e) k) eqn:E; [|reflexivity].
  apply String.eqb_eq in E. rewrite E in H.
  apply String.eqb_neq in Hne. rewrite Hne in H. cbn [negb] in H.
  apply has_profile_find in Hk. destruct Hk as [pr Hpr]. rewrite Hpr in H. discriminate.
Qed.

Lemma paid_by_functional p k1 k2 :
  Spec.paid_by st p k1 = true -> Spec.paid_by st p k2 = true -> k1 = k2.
Proof.
  unfold Spec.paid_by.
  destruct (find_expense st (ExpenseParticipant.expense_id p)) as [e|]; [|discriminate].
  intros H1 H2. apply String.eqb_eq in H1, H2. congruence.
Qed.

Lemma first_pass_sum rows :
  has_profile st k = true -> k <> user ->
  sum_for k (contributions (owes user st)
               (filter (fun p => String.eqb (ExpenseParticipant.user_id p) user
                                 && Bool.eqb (ExpenseParticipant.is_settled p) false) rows))
  == Spec.sum_owed
       (filter (fun p => String.eqb (ExpenseParticipant.user_id p) user
                         && Spec.paid_by st p k
                         && negb (ExpenseParticipant.is_settled p)) rows).
Proof.
  intros Hk Hne. induction rows as [|p rows IH]; [reflexivity|]. cbn [filter].
  destruct (String.eqb (ExpenseParticipant.user_id p) user); cbn [andb]; [|exact IH].
  destruct (ExpenseParticipant.is_settled p); cbn [Bool.eqb negb];
    [rewrite andb_false_r; exact IH|].
  rewrite andb_true_r, contributions_cons.
  destruct (owes user st p) as [c|] eqn:Ho.
  - destruct (owes_who p c Ho) as [_ [_ [Hpaid Hamt]]]. rewrite sum_for_cons.
    destruct (String.eqb (who c) k) eqn:E.
    + apply String.eqb_eq in E. rewrite E in Hpaid.
      rewrite Hpaid, sum_owed_cons, IH, Hamt. reflexivity.
    + destruct (Spec.paid_by st p k) eqn:Ek; [|exact IH].
      rewrite (paid_by_functional p _ _ Hpaid Ek), String.eqb_refl in E. discriminate.
  - rewrite (owes_none p Ho Hk Hne). exact IH.
Qed.

(** Whoever the second pass contributes to has a profile. *)
Lemma owed_who p c :
  owed user st p = Some c -> who c = ExpenseParticipant.user_id p
                             /\ Spec.paid_by st p user = true
                             /\ how_much c = - ExpenseParticipant.amount_owed p.
Proof.
  unfold owed, Spec.paid_by.
  destruct (find_expense st (ExpenseParticipant.expense_id p)) as [e|]; [|discriminate].
  destruct (String.eqb (Expense.paid_by e) user) eqn:E; [|discriminate].
  destruct (find_profile st (ExpenseParticipant.user_id p)) as [pr|] eqn:F; [|discriminate].
  intros H. inversion H; subst c. unfold who, how_much. cbn [fst snd].
  rewrite (find_profile_id _ _ _ F). auto.
Qed.

Lemma owed_none p :
  owed user st p = None -> has_profile st (ExpenseParticipant.user_id p) = true ->
  Spec.paid_by st p user = false.
Proof.
  unfold owed, Spec.paid_by. intros H Hk.
  destruct (find_expense st (ExpenseParticipant.expense_id p)) as [e|]; [|reflexivity].
  destruct (String.eqb (Expense.paid_by e) user); [|reflexivity].
  apply has_profile_find in Hk. destruct Hk as [pr Hpr]. rewrite Hpr in H. discriminate.
Qed.

Lemma second_pass_sum rows :
  has_profile st k = true ->
  sum_for k (contributions (owed user st)
               (filter (fun p => Bool.eqb (ExpenseParticipant.is_settled p) false) rows))
  == - Spec.sum_owed
         (filter (fun p => String.eqb (ExpenseParticipant.user_id p) k
                           && Spec.paid_by st p user
                           && negb (ExpenseParticipant.is_settled p)) rows).
Proof.
  intros Hk. induction rows as [|p rows IH]; [reflexivity|]. cbn [filter].
  destruct (ExpenseParticipant.is_settled p); cbn [Bool.eqb negb];
    [rewrite andb_false_r; exact IH|].
  rewrite andb_true_r, contributions_cons.
  destruct (owed user st p) as [c|] eqn:Ho.
  - destruct (owed_who p c Ho) as [Hw [Hpaid Hamt]].
    rewrite sum_for_cons, Hw, Hpaid, andb_true_r.
    destruct (String.eqb (ExpenseParticipant.user_id p) k); [|exact IH].
    rewrite sum_owed_cons, IH, Hamt. ring.
  - destruct (String.eqb (ExpenseParticipant.user_id p) k) eqn:E; cbn [andb]; [|exact IH].
    apply String.eqb_eq in E. rewrite <- E in Hk. rewrite (owed_none p Ho Hk). exact IH.
Qed.
End Sums.

Lemma contributions_who {A} (f : A -> option contribution) items k :
  In k (map who (contributions f items)) ->
  exists item c, In item items /\ f item = Some c /\ who c = k.
Proof.
  induction items as [|x items IH]; [intros []|]. rewrite contributions_cons.
  destruct (f x) as [c|] eqn:E.
  - cbn [map In]. intros [H|H].
    + exists x, c. split; [now left|auto].
    + destruct (IH H) as [item [c' [Hin Hc]]]. exists item, c'. split; [now right|exact Hc].
  - intros H. destruct (IH H) as [item [c' [Hin Hc]]]. exists item, c'.
    split; [now right|exact Hc].
Qed.

Lemma netted_well_keyed rnd user st : well_keyed (netted rnd user st).
Proof.
  apply contribute_all_well_keyed. split; constructor.
Qed.

Lemma netted_key_has_profile rnd user st k :
  In k (map fst (netted rnd user st)) -> has_profile st k = true.
Proof.
  unfold netted. rewrite contribute_all_keys. cbn [map In].
  rewrite map_app, in_app_iff. intros [[]|[H|H]];
    apply contributions_who in H; destruct H as [p [c [_ [Hc <-]]]].
  - now destruct (owes_who user st p c Hc).
  - unfold owed in Hc.
    destruct (find_expense st (ExpenseParticipant.expense_id p)) as [e|]; [|discriminate].
    destruct (String.eqb (Expense.paid_by e) user); [|discriminate].
    destruct (find_profile st (ExpenseParticipant.user_id p)) as [pr|] eqn:F; [|discriminate].
    inversion Hc; subst c. unfold who. cbn [fst].
    rewrite (find_profile_id _ _ _ F). apply has_profile_find. now exists pr.
Qed.

(** In exact arithmetic the entry of a counterparty with a profile holds
    what the user owes them minus what they owe the user. *)
Lemma netted_amount user st k :
  has_profile st k = true -> k <> user ->
  amount_at k (netted exact user st) == Spec.owes_to user k st - Spec.owed_by user k st.
Proof.
  intros Hk Hne. unfold netted. rewrite amount_at_contribute_all, sum_for_app.
  unfold SettleUp.debt_rows, SettleUp.unsettled_rows.
  rewrite first_pass_sum, second_pass_sum by assumption.
  unfold amount_at, Spec.owes_to, Spec.owed_by. cbn [find]. ring.
Qed.

Lemma amount_at_absent k (m : SettleUp.debt_map) : ~ In k (map fst m) -> amount_at k m = 0.
Proof.
  intros H. unfold amount_at.
  destruct (find (fun kv => String.eqb (fst kv) k) m) as [kv|] eqn:F; [|reflexivity].
  exfalso. apply H. apply find_some in F. destruct F as [Hin Heq].
  apply String.eqb_eq in Heq. rewrite <- Heq. now apply in_map.
Qed.

Lemma debtsList_In m d :
  In d (SettleUp.debtsList m) <-> In d (SettleUp.values m) /\ ~ debt_amount d == 0.
Proof.
  unfold SettleUp.debtsList. rewrite filter_In. unfold js_neq0.
  rewrite negb_true_iff. split; intros [H1 H2]; split; auto.
  - intros H. apply Qeq_bool_iff in H. congruence.
  - destruct (Qeq_bool (debt_amount d) 0) eqn:E; [|reflexivity].
    apply Qeq_bool_iff in E. contradiction.
Qed.




Example taxi_debts :
  debts (exec (SettleUp.fetchDebtsAndSettlements exact always "u") (initial taxi))
  = [mk_debt "v" "Vik" "v@example.org" 50 None].
Proof. reflexivity. Qed.

(** The user's own share of an expense the user paid is netted as well:
    on [ledger] the page lists u under u's own name, with minus u's share
    of the hotel, while v, even with u, is not listed. *)
Example own_share_is_listed :
  debts (exec (SettleUp.fetchDebtsAndSettlements exact always "u") (initial ledger))
  = [mk_debt "u" "Uma" "u@example.org" (-20) None].
Proof. vm_compute. reflexivity. Qed.

Example taxi_and_lunch_debts :
  debts (exec (SettleUp.fetchDebtsAndSettlements exact always "u") (initial taxi_and_lunch))
  = [].
Proof. reflexivity. Qed.

(** ** Rounding to binary64 *)

Lemma two_power_pos (e : Z) : 0 < 2 ^ e.
Proof. apply Qpower_0_lt. reflexivity. Qed.

Lemma two_power_plus (a b : Z) : 2 ^ (a + b) == 2 ^ a * 2 ^ b.
Proof. apply Qpower_plus. discriminate. Qed.

Lemma two_power_Z (n : Z) : (0 <= n)%Z -> inject_Z (2 ^ n) == 2 ^ n.
Proof. intros H. now rewrite Zpower_Qpower. Qed.

Lemma ilog2_below (x : Q) : 0 < x -> 2 ^ ilog2 x <= x.
Proof.
  intros Hx. unfold ilog2.
  set (e0 := (Z.log2 (Qnum x) - Z.log2 (Z.pos (Qden x)) - 1)%Z).
  destruct (Qle_bool (2 ^ (e0 + 1)) x) eqn:E; [now apply Qle_bool_iff in E|].
  destruct x as [n d]. cbn [Qnum Qden] in *.
  assert (Hn : (0 < n)%Z) by (unfold Qlt in Hx; cbn in Hx; lia).
  pose proof (Z.log2_spec n Hn) as [Hn1 _].
  pose proof (Z.log2_spec (Z.pos d) (Pos2Z.is_pos d)) as [_ Hd2].
  pose proof (Z.log2_nonneg n) as Hn0.
  pose proof (Z.log2_nonneg (Z.pos d)) as Hd0.
  (* 2^e0 * 2^(ld+1) == 2^ln <= n and d < 2^(ld+1) *)
  assert (Hsplit : 2 ^ Z.log2 n == 2 ^ e0 * 2 ^ (Z.log2 (Z.pos d) + 1)).
  { rewrite <- two_power_plus. unfold e0.
    replace (Z.log2 n - Z.log2 (Z.pos d) - 1 + (Z.log2 (Z.pos d) + 1))%Z with (Z.log2 n) by lia.
    reflexivity. }
  assert (HnQ : 2 ^ Z.log2 n <= inject_Z n).
  { rewrite <- two_power_Z by exact Hn0. rewrite <- Zle_Qle. exact Hn1. }
  assert (HdQ : inject_Z (Z.pos d) <= 2 ^ (Z.log2 (Z.pos d) + 1)).
  { rewrite <- two_power_Z by lia. rewrite <- Zle_Qle.
    replace (Z.log2 (Z.pos d) + 1)%Z with (Z.succ (Z.log2 (Z.pos d))) by lia. lia. }
  assert (Hxd : n # d == inject_Z n / inject_Z (Z.pos d)) by apply Qmake_Qdiv.
  rewrite Hxd. apply Qle_shift_div_l; [reflexivity|].
  pose proof (two_power_pos e0) as He0.
  apply Qle_trans with (2 ^ e0 * 2 ^ (Z.log2 (Z.pos d) + 1)).
  - apply Qmult_le_l; [exact He0|exact HdQ].
  - rewrite <- Hsplit. exact HnQ.
Qed.

Lemma round_half_even_error (m : Q) : Qabs (inject_Z (round_half_even m) - m) <= 1 # 2.
Proof.
  unfold round_half_even.
  pose proof (Qfloor_le m) as Hlo. pose proof (Qlt_floor m) as Hhi.
  rewrite inject_Z_plus in Hhi. change (inject_Z 1) with 1 in Hhi.
  apply Qabs_Qle_condition.
  destruct (Qcompare (m - inject_Z (Qfloor m)) (1 # 2)) eqn:C.
  - apply Qeq_alt in C.
    destruct (Z.even (Qfloor m)); rewrite ?inject_Z_plus; change (inject_Z 1) with 1;
      split; lra.
  - apply Qlt_alt in C. split; lra.
  - apply Qgt_alt in C. rewrite inject_Z_plus. change (inject_Z 1) with 1. split; lra.
Qed.

Lemma ulp_pos x : 0 < ulp x.
Proof. apply two_power_pos. Qed.

(** Half a unit in the last place is at most [u64] times the magnitude. *)
Lemma half_ulp x : ~ x == 0 -> (1 # 2) * ulp x <= u64 * Qabs x.
Proof.
  intros Hx. unfold ulp, u64.
  assert (Hpos : 0 < Qabs x).
  { destruct (Qlt_le_dec 0 (Qabs x)) as [H|H]; [exact H|].
    exfalso. apply Hx. pose proof (Qabs_nonneg x) as H0.
    apply Qabs_Qle_condition in H. lra. }
  pose proof (ilog2_below (Qabs x) Hpos) as He.
  replace (ilog2 (Qabs x) - 52)%Z with (ilog2 (Qabs x) + (-52))%Z by lia.
  rewrite two_power_plus.
  assert (H52 : (1 # 2) * 2 ^ (-52) == 2 ^ (-53)) by reflexivity.
  set (p := 2 ^ ilog2 (Qabs x)) in *.
  assert (Hu : 0 < 2 ^ (-53)) by apply two_power_pos.
  setoid_replace ((1 # 2) * (p * 2 ^ (-52))) with (2 ^ (-53) * p) by (rewrite <- H52; ring).
  apply Qmult_le_l; assumption.
Qed.

(** [binary64] rounds with a relative error of at most [u64]. *)
Lemma binary64_error (x : Q) : Qabs (binary64 x - x) <= u64 * Qabs x.
Proof.
  unfold binary64. destruct (Qeq_bool x 0) eqn:E0.
  - apply Qeq_bool_iff in E0. rewrite E0. discriminate.
  - assert (Hx : ~ x == 0) by (intros H; apply Qeq_bool_iff in H; congruence).
    pose proof (half_ulp x Hx) as Hhalf. pose proof (ulp_pos x) as Hulp.
    set (m := Qabs x / ulp x).
    pose proof (round_half_even_error m) as Hr.
    set (r := inject_Z (round_half_even m)) in *.
    assert (Hm : m * ulp x == Qabs x) by (unfold m; field; lra).
    assert (Hmag : Qabs (r * ulp x - Qabs x) <= u64 * Qabs x).
    { apply Qle_trans with ((1 # 2) * ulp x); [|exact Hhalf].
      setoid_replace (r * ulp x - Qabs x) with ((r - m) * ulp x) by (rewrite <- Hm; ring).
      rewrite Qabs_Qmult, (Qabs_pos (ulp x)) by lra.
      apply Qmult_le_compat_r; [exact Hr|lra]. }
    destruct (Qle_bool 0 x) eqn:Es.
    + apply Qle_bool_iff in Es. rewrite (Qabs_pos x Es) in Hmag at 1. exact Hmag.
    + assert (Hneg : x <= 0).
      { destruct (Qlt_le_dec 0 x) as [H|H]; [|exact H].
        apply Qlt_le_weak, Qle_bool_iff in H. congruence. }
      rewrite (Qabs_neg x Hneg) in Hmag at 1.
      setoid_replace (- (r * ulp x) - x) with (- (r * ulp x - - x)) by ring.
      rewrite Qabs_opp. exact Hmag.
Qed.

(** ** Error of an equal split under a rounding of relative error [u] *)

Section Rounding.
Variable rnd : arithmetic.
Variable u : Q.
Hypothesis Hrnd : relative_error rnd u.

(** One more rounded addition of [s] to a partial sum. *)
Lemma partial_sum_step (s acc : Q) (i : nat) :
  of_length i * u <= 1 ->
  Qabs (acc - of_length i * s) <= of_length i * (of_length i + 1) * u * Qabs s ->
  Qabs (rnd (acc + s) - (of_length i + 1) * s)
  <= (of_length i + 1) * (of_length i + 2) * u * Qabs s.
Proof.
  intros Hi He. destruct Hrnd as [Hu Hrel].
  pose proof (of_length_nonneg i) as Hn. set (n := of_length i) in *.
  pose proof (Qabs_nonneg s) as Ht. set (t := Qabs s) in *.
  pose proof (Hrel (acc + s)) as Hr.
  pose proof (Qabs_nonneg (acc - n * s)) as He0. set (e := Qabs (acc - n * s)) in *.
  assert (Hsum : Qabs (acc + s) <= e + (n + 1) * t).
  { setoid_replace (acc + s) with ((acc - n * s) + (n + 1) * s) by ring.
    eapply Qle_trans; [apply Qabs_triangle|]. fold e.
    rewrite Qabs_Qmult, (Qabs_pos (n + 1)) by lra. fold t. lra. }
  assert (Hstep : Qabs (rnd (acc + s) - (n + 1) * s) <= u * (e + (n + 1) * t) + e).
  { setoid_replace (rnd (acc + s) - (n + 1) * s)
      with ((rnd (acc + s) - (acc + s)) + (acc - n * s)) by ring.
    eapply Qle_trans; [apply Qabs_triangle|]. fold e.
    apply Qplus_le_compat; [|lra].
    eapply Qle_trans; [exact Hr|]. apply Qmult_le_nonneg_l; assumption. }
  eapply Qle_trans; [exact Hstep|].
  (* u (e + (n+1) t) + e <= (n+1)(n+2) u t, from e <= n(n+1) u t and n u <= 1 *)
  assert (H1 : (1 + u) * e <= (1 + u) * (n * (n + 1) * u * t))
    by (apply Qmult_le_nonneg_l; lra).
  assert (H2 : 0 <= (n + 1) * u * t).
  { apply Qmult_le_0_compat; [apply Qmult_le_0_compat; lra|lra]. }
  assert (H3 : (n * u) * ((n + 1) * u * t) <= 1 * ((n + 1) * u * t))
    by (apply Qmult_le_compat_r; assumption).
  lra.
Qed.
End Rounding.

Section EqualSplit.
Variable rnd : arithmetic.
Variable u : Q.
Hypothesis Hrnd : relative_error rnd u.
Variable expense_id : uuid.
Variable s : Q.

Let row (identity : uuid) := ExpenseParticipant.mk expense_id identity s false.

(** The rounded sum of [n] equal shares is within [n (n + 1) u |s|] of [n s]. *)
Lemma js_sum_shares sel (acc : Q) (i : nat) :
  of_length (i + List.length sel) * u <= 1 ->
  Qabs (acc - of_length i * s) <= of_length i * (of_length i + 1) * u * Qabs s ->
  Qabs (fold_left (fun sum item => js_add rnd sum (ExpenseParticipant.amount_owed item))
          (map row sel) acc
        - of_length (i + List.length sel) * s)
  <= of_length (i + List.length sel) * (of_length (i + List.length sel) + 1) * u * Qabs s.
Proof.
  revert acc i. induction sel as [|x sel IH]; intros acc i Hn Hacc.
  - cbn [List.length map fold_left]. rewrite Nat.add_0_r in *. exact Hacc.
  - cbn [List.length] in Hn.
    cbn [List.length map fold_left row ExpenseParticipant.amount_owed].
    replace (i + S (List.length sel))%nat with (S i + List.length sel)%nat in * by lia.
    apply IH; [exact Hn|]. unfold js_add.
    assert (Hi : of_length i * u <= 1).
    { eapply Qle_trans; [|exact Hn]. destruct Hrnd as [Hu _].
      apply Qmult_le_compat_r; [apply of_length_le; lia|exact Hu]. }
    pose proof (partial_sum_step rnd u Hrnd s acc i Hi Hacc) as Hstep.
    rewrite of_length_S.
    setoid_replace (of_length i + 1 + 1) with (of_length i + 2) by ring.
    exact Hstep.
Qed.

Lemma sum_owed_shares sel :
  Spec.sum_owed (map row sel) == of_length (List.length sel) * s.
Proof.
  induction sel as [|x sel IH].
  - cbn [map List.length]. unfold Spec.sum_owed, of_length. cbn [fold_right Z.of_nat].
    change (inject_Z 0) with 0. ring.
  - cbn [map List.length]. rewrite sum_owed_cons, IH, of_length_S.
    cbn [row ExpenseParticipant.amount_owed]. ring.
Qed.
End EqualSplit.

(** The split of [A] into [N] shares [rnd (A / N)] under a rounding of
    relative error [u]: the exact sum of the shares is within [u |A|] of
    [A], their rounded sum within [4 N u |A|]. *)
Lemma split_error rnd u expense_id (A : Q) selectedParticipants :
  relative_error rnd u ->
  let N := List.length selectedParticipants in
  (1 <= N)%nat ->
  (of_length N + 1) * u <= 1 ->
  let rows := AddExpense.participants rnd expense_id A selectedParticipants in
  Qabs (Spec.sum_owed rows - A) <= u * Qabs A
  /\ Qabs (js_sum rnd rows - A) <= of_length N * (4 * u) * Qabs A.
Proof.
  intros Hrnd N HN Hu rows. pose proof Hrnd as [Hu0 Hrel].
  set (n := of_length N).
  assert (Hn1 : 1 <= n).
  { unfold n, of_length. change 1 with (inject_Z 1). rewrite <- Zle_Qle. lia. }
  set (s := AddExpense.amountPerPerson rnd A selectedParticipants).
  assert (Hs : Qabs (s - A / n) <= u * Qabs (A / n)) by apply Hrel.
  assert (HA : n * (A / n) == A) by (field; lra).
  pose proof (Qabs_nonneg A) as HA0.
  assert (HnA : n * Qabs (A / n) == Qabs A).
  { rewrite <- (Qabs_pos n) at 1 by lra. now rewrite <- Qabs_Qmult, HA. }
  (* the exact sum *)
  assert (Hexact : Qabs (n * s - A) <= u * Qabs A).
  { setoid_replace (n * s - A) with (n * (s - A / n)) by (field; lra).
    rewrite Qabs_Qmult, (Qabs_pos n) by lra.
    apply Qle_trans with (n * (u * Qabs (A / n))).
    - apply Qmult_le_nonneg_l; [lra|exact Hs].
    - rewrite <- HnA. lra. }
  (* the magnitude of a share *)
  assert (Hmag : n * Qabs s <= (1 + u) * Qabs A).
  { assert (H : Qabs s <= Qabs (A / n) + u * Qabs (A / n)).
    { setoid_replace s with ((s - A / n) + A / n) at 1 by ring.
      eapply Qle_trans; [apply Qabs_triangle|]. lra. }
    apply Qle_trans with (n * (Qabs (A / n) + u * Qabs (A / n))).
    - apply Qmult_le_nonneg_l; [lra|exact H].
    - rewrite <- HnA. lra. }
  split.
  - unfold rows, AddExpense.participants. rewrite sum_owed_shares. exact Hexact.
  - assert (Hsum : Qabs (js_sum rnd rows - n * s) <= n * (n + 1) * u * Qabs s).
    { unfold js_sum, rows, AddExpense.participants.
      apply (js_sum_shares rnd u Hrnd expense_id s selectedParticipants 0 0%nat).
      - cbn [Nat.add]. fold N. fold n. apply Qle_trans with ((n + 1) * u); [|exact Hu].
        apply Qmult_le_compat_r; lra.
      - cbn. discriminate. }
    setoid_replace (js_sum rnd rows - A) with ((js_sum rnd rows - n * s) + (n * s - A)) by ring.
    eapply Qle_trans; [apply Qabs_triangle|].
    pose proof (Qabs_nonneg s) as Hs0.
    assert (H1 : n * (n + 1) * u * Qabs s <= (n + 1) * u * ((1 + u) * Qabs A)).
    { setoid_replace (n * (n + 1) * u * Qabs s) with ((n + 1) * u * (n * Qabs s)) by ring.
      apply Qmult_le_nonneg_l; [|exact Hmag]. apply Qmult_le_0_compat; lra. }
    assert (H2 : ((n + 1) * u) * (u * Qabs A) <= 1 * (u * Qabs A)).
    { apply Qmult_le_compat_r; [exact Hu|]. apply Qmult_le_0_compat; lra. }
    assert (H3 : 0 <= u * Qabs A) by (apply Qmult_le_0_compat; lra).
    assert (H4 : 1 * (u * Qabs A) <= n * (u * Qabs A))
      by (apply Qmult_le_compat_r; lra).
    lra.
Qed.

(** ** The split in binary64 *)

Lemma binary64_relative_error : relative_error binary64 u64.
Proof. split; [discriminate|exact binary64_error]. Qed.



(** 10 split three ways: each share is the double 3.3333333333333335; the
    three doubles add up to 10 + 2^-51 exactly, and to 10 when every
    addition is rounded. *)
Example ten_split_three_ways :
  let rows := AddExpense.participants binary64 "e1" 10 ["u"; "v"; "w"] in
  js_div binary64 10 (of_length 3) == 7505999378950827 # 2251799813685248
  /\ Spec.sum_owed rows == 10 + 2 ^ (-51)
  /\ js_sum binary64 rows == 10.
Proof. repeat split; vm_compute; reflexivity. Qed.

(** [binary64] against the doubles of the kernel. *)
Example binary64_division : js_div binary64 10 3 == double_value (10 / 3)%float.
Proof. vm_compute. reflexivity. Qed.

Example binary64_addition :
  js_add binary64 (js_div binary64 1 10) (js_div binary64 2 10)
  == double_value (1 / 10 + 2 / 10)%float.
Proof. vm_compute. reflexivity. Qed.

Example binary64_subtraction :
  js_sub binary64 (js_add binary64 (js_div binary64 1 10) (js_div binary64 2 10))
    (js_div binary64 1 10)
  == double_value (1 / 10 + 2 / 10 - 1 / 10)%float.
Proof. vm_compute. reflexivity. Qed.

(** The scenario of 300 split three ways, in binary64. *)
Example dinner_in_binary64 :
  let w := exec (AddExpense.handleSubmit binary64 always "u" "g" ["u"; "v"; "w"] dinner)
             (initial household) in
  let b := balances (exec (Dashboard.fetchDashboardData binary64 always "u") (initial (db w))) in
  Forall (fun r => ExpenseParticipant.amount_owed r == 100) (expense_participants (db w))
  /\ total_owed b == 100 /\ total_owing b == 0.
Proof.
  vm_compute. repeat split; try reflexivity. repeat constructor.
Qed.

(** Opposite debts of equal magnitude cancel in binary64 as well. *)
Example taxi_and_lunch_in_binary64 :
  debts (exec (SettleUp.fetchDebtsAndSettlements binary64 always "u") (initial taxi_and_lunch))
  = [].
Proof. vm_compute. reflexivity. Qed.

(** * More properties of the pages *)

(** ** Selecting participants *)

Lemma mem_app x l l' : mem x (l ++ l') = mem x l || mem x l'.
Proof. unfold mem. apply existsb_app. Qed.

Lemma mem_filter x f l :
  mem x (filter f l) = mem x l && f x.
Proof.
  induction l as [|y l IH]; [reflexivity|]. cbn [filter].
  destruct (f y) eqn:Ey; cbn [mem existsb]; fold (mem x (filter f l)); fold (mem x l);
    rewrite IH; destruct (String.eqb x y) eqn:E; cbn [orb]; try reflexivity.
  - apply String.eqb_eq in E. subst y. now rewrite Ey, andb_true_r.
  - apply String.eqb_eq in E. subst y. now rewrite Ey, andb_false_r.
Qed.

Lemma filter_absent (x : uuid) l :
  ~ In x l -> filter (fun id => negb (String.eqb id x)) l = l.
Proof.
  induction l as [|y l IH]; intros H; [reflexivity|]. cbn [filter].
  destruct (String.eqb y x) eqn:E.
  - apply String.eqb_eq in E. subst y. exfalso. apply H. now left.
  - cbn [negb]. f_equal. apply IH. intros Hin. apply H. now right.
Qed.

Lemma filter_present_length (x : uuid) l :
  NoDup l -> In x l ->
  S (List.length (filter (fun id => negb (String.eqb id x)) l)) = List.length l.
Proof.
  induction 1 as [|y l Hy Hnd IH]; intros Hin; [destruct Hin|]. cbn [filter].
  destruct (String.eqb y x) eqn:E.
  - apply String.eqb_eq in E. subst y. cbn [negb List.length]. now rewrite filter_absent.
  - cbn [negb List.length]. f_equal. apply IH. destruct Hin as [->|Hin]; [|exact Hin].
    now rewrite String.eqb_refl in E.
Qed.

(** X1: toggling a participant flips the checkbox of that participant and
    of no other: afterwards the selection includes [participantId] exactly
    when it did not before, and includes any other identity exactly when it
    did before. *)
Theorem toggleParticipant_flips prev participantId other :
  mem other (AddExpense.toggleParticipant prev participantId)
  = if String.eqb other participantId then negb (mem other prev) else mem other prev.
Proof.
  unfold AddExpense.toggleParticipant.
  destruct (mem participantId prev) eqn:Em.
  - rewrite mem_filter. destruct (String.eqb other participantId) eqn:E.
    + apply String.eqb_eq in E. subst other. now rewrite Em.
    + now rewrite andb_true_r.
  - rewrite mem_app. cbn [mem existsb]. rewrite orb_false_r.
    destruct (String.eqb other participantId) eqn:E.
    + apply String.eqb_eq in E. subst other. fold (mem participantId prev). now rewrite Em.
    + apply orb_false_r.
Qed.

(** X2: toggling keeps a selection free of duplicates and changes its
    length by exactly one: one less when the participant was selected, one
    more when not. *)
Theorem toggleParticipant_NoDup prev participantId :
  NoDup prev ->
  NoDup (AddExpense.toggleParticipant prev participantId)
  /\ List.length (AddExpense.toggleParticipant prev participantId)
     = if mem participantId prev then Nat.pred (List.length prev) else S (List.length prev).
Proof.
  intros Hnd. unfold AddExpense.toggleParticipant.
  destruct (mem participantId prev) eqn:Em.
  - split; [now apply NoDup_filter|].
    apply mem_In in Em. rewrite <- (filter_present_length participantId prev Hnd Em).
    reflexivity.
  - assert (Hout : ~ In participantId prev).
    { intros H. apply mem_In in H. congruence. }
    split.
    + apply NoDup_app; [exact Hnd|repeat constructor; auto|].
      intros x Hx [<-|[]]. contradiction.
    + rewrite length_app. cbn. lia.
Qed.

Lemma toggleParticipant_NoDup_witness :
  NoDup (AddExpense.toggleParticipant ["u"; "v"; "w"] "v").
Proof.
  refine (proj1 (toggleParticipant_NoDup ["u"; "v"; "w"] "v" _)).
  repeat (apply NoDup_cons; [cbn; intuition discriminate|]). apply NoDup_nil.
Defined.

(** X3: ticking the box of a participant who is not selected and unticking
    it again gives back the selection as it was, order included. *)
Theorem toggleParticipant_undo prev participantId :
  ~ In participantId prev ->
  AddExpense.toggleParticipant (AddExpense.toggleParticipant prev participantId) participantId
  = prev.
Proof.
  intros Hout. unfold AddExpense.toggleParticipant at 2.
  assert (Em : mem participantId prev = false).
  { destruct (mem participantId prev) eqn:E; [|reflexivity]. apply mem_In in E. contradiction. }
  rewrite Em. unfold AddExpense.toggleParticipant.
  rewrite mem_app. cbn [mem existsb]. rewrite String.eqb_refl, orb_true_r.
  rewrite filter_app, filter_absent by exact Hout. cbn [filter].
  rewrite String.eqb_refl. cbn [negb]. apply app_nil_r.
Qed.

Lemma toggleParticipant_undo_witness :
  AddExpense.toggleParticipant (AddExpense.toggleParticipant ["u"; "v"] "w") "w" = ["u"; "v"].
Proof.
  apply (toggleParticipant_undo ["u"; "v"] "w").
  cbn. intuition discriminate.
Defined.

(** ** What [handleSubmit] reports *)

Lemma str_truthy_false s : str_truthy s = false <-> s = "".
Proof. destruct s; cbn; split; congruence. Qed.

(** X4: [handleSubmit] sends nothing to the store exactly when a
    required field is missing: no group selected, no participant selected,
    an empty description or an empty amount. *)
Theorem handleSubmit_sends_unless_field_missing rnd be user selectedGroup selectedParticipants
    form st :
  let w := exec (AddExpense.handleSubmit rnd be user selectedGroup selectedParticipants form)
             (initial st) in
  issued w = []
  <-> (selectedGroup = "" \/ selectedParticipants = []
       \/ AddExpense.description form = "" \/ AddExpense.amount form = None).
Proof.
  intros w. subst w. split.
  - intros H.
    destruct (str_truthy selectedGroup) eqn:Hg; [|left; now apply str_truthy_false].
    destruct selectedParticipants as [|p ps] eqn:Hs; [right; now left|].
    destruct (str_truthy (AddExpense.description form)) eqn:Hd;
      [|right; right; left; now apply str_truthy_false].
    destruct (AddExpense.amount form) as [A|] eqn:Ha; [|right; right; now right].
    exfalso. rewrite <- Hs in *. assert (Hne : selectedParticipants <> []) by (rewrite Hs; discriminate).
    set (e := Expense.mk (gen_random_uuid be) (AddExpense.description form) A
           (AddExpense.expenseDate form) (Some selectedGroup) user).
    set (req := InsertExpense (AddExpense.description form) A (AddExpense.expenseDate form)
                  selectedGroup user).
    destruct (serves be req && expense_ok st e) eqn:E1.
    + apply andb_prop in E1. destruct E1 as [E1 E2].
      set (rows := AddExpense.participants rnd (gen_random_uuid be) A selectedParticipants).
      set (st1 := mk_store (profiles st) (groups st) (expenses st ++ [e])
                    (expense_participants st) (settlements st) (friendships st)).
      destruct (serves be (InsertExpenseParticipants rows) && participants_ok st1 rows) eqn:E3.
      * apply andb_prop in E3. destruct E3 as [E3 E4].
        rewrite (handleSubmit_success rnd be user _ _ _ A) in H by assumption. discriminate.
      * apply andb_false_iff in E3.
        rewrite (handleSubmit_partial rnd be user _ _ _ A) in H by assumption. discriminate.
    + apply andb_false_iff in E1.
      rewrite (handleSubmit_rejected rnd be user _ _ _ A) in H by assumption. discriminate.
  - intros H. rewrite handleSubmit_missing_field; [reflexivity|].
    destruct H as [->|[->|[H|H]]]; auto. right. right. left. now rewrite H.
Qed.

(** The four ways [handleSubmit] can end. *)
Lemma handleSubmit_cases rnd be user selectedGroup selectedParticipants form w :
  let w' := exec (AddExpense.handleSubmit rnd be user selectedGroup selectedParticipants form) w in
  w' = mk_world (db w) (issued w) (toasts w ++ [AddExpense.validation_error]) (location w)
         (balances w) (debts w) (history w) (friends w)
  \/ exists A,
       AddExpense.amount form = Some A /\
       let e := Expense.mk (gen_random_uuid be) (AddExpense.description form) A
                  (AddExpense.expenseDate form) (Some selectedGroup) user in
       let req := InsertExpense (AddExpense.description form) A (AddExpense.expenseDate form)
                    selectedGroup user in
       let rows := AddExpense.participants rnd (gen_random_uuid be) A selectedParticipants in
       let st := db w in
       let st1 := mk_store (profiles st) (groups st) (expenses st ++ [e])
                    (expense_participants st) (settlements st) (friendships st) in
       let st2 := mk_store (profiles st) (groups st) (expenses st ++ [e])
                    (expense_participants st ++ rows) (settlements st) (friendships st) in
       w' = mk_world st (issued w ++ [req]) (toasts w ++ [AddExpense.failure]) (location w)
              (balances w) (debts w) (history w) (friends w)
       \/ (expense_ok st e = true
           /\ w' = mk_world st1 (issued w ++ [req; InsertExpenseParticipants rows])
                     (toasts w ++ [AddExpense.failure]) (location w)
                     (balances w) (debts w) (history w) (friends w))
       \/ (expense_ok st e = true /\ participants_ok st1 rows = true
           /\ w' = mk_world st2 (issued w ++ [req; InsertExpenseParticipants rows])
                     (toasts w ++ [AddExpense.success]) (Some "/")
                     (balances w) (debts w) (history w) (friends w)).
Proof.
  intros w'. subst w'.
  destruct (str_truthy selectedGroup) eqn:Hg;
    [|left; apply handleSubmit_missing_field; auto].
  destruct (list_eq_dec string_dec selectedParticipants []) as [Hs|Hs];
    [left; apply handleSubmit_missing_field; auto|].
  destruct (str_truthy (AddExpense.description form)) eqn:Hd;
    [|left; apply handleSubmit_missing_field; auto].
  destruct (AddExpense.amount form) as [A|] eqn:Ha;
    [|left; apply handleSubmit_missing_field; auto].
  right. exists A. split; [reflexivity|]. intros e req rows st st1 st2.
  destruct (serves be req && expense_ok st e) eqn:E1.
  - apply andb_prop in E1. destruct E1 as [E1 E2].
    destruct (serves be (InsertExpenseParticipants rows) && participants_ok st1 rows) eqn:E3.
    + apply andb_prop in E3. destruct E3 as [E3 E4].
      right. right. split; [exact E2|]. split; [exact E4|]. now apply handleSubmit_success.
    + apply andb_false_iff in E3. right. left. split; [exact E2|].
      now apply handleSubmit_partial.
  - apply andb_false_iff in E1. left. now apply handleSubmit_rejected.
Qed.

(** X5: [handleSubmit] shows exactly one notice, and it reports success
    and leaves for the dashboard only with the expense and every one of its
    participant rows in the store; with any other outcome it stays on the
    page and no participant row has been added. *)
Theorem handleSubmit_reports_success_when_complete rnd be user selectedGroup
    selectedParticipants form st :
  let w := exec (AddExpense.handleSubmit rnd be user selectedGroup selectedParticipants form)
             (initial st) in
  (toasts w = [AddExpense.success] /\ location w = Some "/"
   /\ exists A,
        AddExpense.amount form = Some A
        /\ expenses (db w)
           = (expenses st ++ [Expense.mk (gen_random_uuid be) (AddExpense.description form) A
                                (AddExpense.expenseDate form) (Some selectedGroup) user])%list
        /\ expense_participants (db w)
           = (expense_participants st
              ++ AddExpense.participants rnd (gen_random_uuid be) A selectedParticipants)%list)
  \/ ((toasts w = [AddExpense.failure] \/ toasts w = [AddExpense.validation_error])
      /\ location w = None
      /\ expense_participants (db w) = expense_participants st).
Proof.
  intros w.
  destruct (handleSubmit_cases rnd be user selectedGroup selectedParticipants form (initial st))
    as [H|[A [Ha [H|[[_ H]|[_ [_ H]]]]]]]; fold w in H; rewrite H; cbn.
  - right. auto.
  - right. auto.
  - right. auto.
  - left. repeat split. exists A. auto.
Qed.

(** ** White space *)

Lemma trim_start_blank s : blank (trim_start s) = blank s.
Proof.
  induction s as [|c s IH]; [reflexivity|]. cbn [trim_start blank].
  destruct (is_space c) eqn:E; [exact IH|]. cbn [blank]. now rewrite E.
Qed.

Lemma trim_start_empty s : trim_start s = "" <-> blank s = true.
Proof.
  induction s as [|c s IH]; [split; reflexivity|]. cbn [trim_start blank].
  destruct (is_space c); [exact IH|]. split; discriminate.
Qed.

Lemma rev_string_blank s acc : blank (rev_string s acc) = blank s && blank acc.
Proof.
  revert acc. induction s as [|c s IH]; intros acc; [reflexivity|].
  cbn [rev_string blank]. rewrite IH. cbn [blank].
  destruct (is_space c), (blank s), (blank acc); reflexivity.
Qed.

Lemma rev_string_empty s acc : rev_string s acc = "" <-> s = "" /\ acc = "".
Proof.
  revert acc. induction s as [|c s IH]; intros acc; cbn [rev_string].
  - split; [auto|tauto].
  - rewrite IH. split; [intros [_ H]; discriminate|intros [H _]; discriminate].
Qed.

(** [s.trim()] is empty exactly for a string of white space. *)
Lemma trim_empty s : trim s = "" <-> blank s = true.
Proof.
  unfold trim. rewrite rev_string_empty, trim_start_empty, rev_string_blank, trim_start_blank.
  cbn [blank]. rewrite andb_true_r. tauto.
Qed.

Lemma trim_truthy s : str_truthy (trim s) = negb (blank s).
Proof.
  destruct (blank s) eqn:E.
  - apply trim_empty in E. now rewrite E.
  - destruct (str_truthy (trim s)) eqn:T; [reflexivity|].
    apply str_truthy_false, trim_empty in T. congruence.
Qed.

(** ** What [handleSettle] sends *)

Lemma read_only_writes {A} (m : M A) w :
  read_only m -> filter is_write (issued (snd (m w))) = filter is_write (issued w).
Proof. intros H. now destruct (H w). Qed.


(** ** How [fetchDebtsAndSettlements] ends *)

Lemma bind_unserved {A B} be q (rows : store -> A) (k : A -> M B) w :
  serves be (Select q) = false ->
  bind (r <- select be q rows ;; SettleUp.expect r) k w = (Throw, send (Select q) w).
Proof. intros Hs. unfold bind, select. now rewrite Hs. Qed.

Lemma issued_send r w : issued (send r w) = (issued w ++ [r])%list.
Proof. reflexivity. Qed.

Lemma toasts_send r w : toasts (send r w) = toasts w.
Proof. reflexivity. Qed.

Lemma debts_send r w : debts (send r w) = debts w.
Proof. reflexivity. Qed.

Lemma history_send r w : history (send r w) = history w.
Proof. reflexivity. Qed.

Lemma two_passes rnd expenseData payerData debtData userExpenseData participantData owedData :
  fold_left (SettleUp.owed_step rnd userExpenseData participantData) owedData
    (fold_left (SettleUp.owes_step rnd expenseData payerData) debtData [])
  = fold_left (contribute rnd)
      (contributions (owes_contribution expenseData payerData) debtData
       ++ contributions (owed_contribution userExpenseData participantData) owedData) [].
Proof.
  rewrite fold_left_app.
  rewrite (fold_contributions rnd _ _ _ _ (owes_step_contributes rnd _ _)).
  rewrite (fold_contributions rnd _ _ _ _ (owed_step_contributes rnd _ _)).
  reflexivity.
Qed.

Ltac read_step Hs :=
  match goal with
  | |- context [bind (bind (select ?be ?q ?rows) _) _ _] =>
      destruct (serves be (Select q)) eqn:Hs;
      [rewrite (bind_read be q) by exact Hs; cbv beta zeta; rewrite ?db_send
      |rewrite (bind_unserved be q) by exact Hs]
  end.

Ltac fields :=
  repeat progress
    (cbn [snd show modify db issued toasts debts history];
     rewrite ?db_send, ?issued_send, ?toasts_send, ?debts_send, ?history_send);
  rewrite <- ?app_assoc; cbn [app].

(** The function stops at the first read that fails. *)
Lemma fetchDebtsAndSettlements_cases rnd be user w :
  let w' := exec (SettleUp.fetchDebtsAndSettlements rnd be user) w in
  (exists l cs,
     issued w' = (issued w ++ l)%list /\ List.length l = 7%nat
     /\ Forall (fun r => serves be r = true) l
     /\ toasts w' = toasts w
     /\ debts w' = SettleUp.debtsList (fold_left (contribute rnd) cs [])
     /\ history w' = SettleUp.settlement_history user (db w))
  \/ (exists l r,
        issued w' = (issued w ++ l ++ [r])%list
        /\ Forall (fun r => serves be r = true) l /\ serves be r = false
        /\ toasts w' = (toasts w ++ [SettleUp.failure_load])%list
        /\ history w' = history w
        /\ (debts w' = debts w
            \/ exists cs, debts w' = SettleUp.debtsList (fold_left (contribute rnd) cs []))).
Proof.
  intros w'. subst w'. unfold SettleUp.fetchDebtsAndSettlements, exec, try_catch.
  read_step H1; [|solve [right; exists [], (Select (q_debt_rows user)); fields; repeat split; auto]].
  read_step H2; [|solve [right; eexists [_], _; fields; repeat split; eauto]].
  read_step H3; [|solve [right; eexists [_; _], _; fields; repeat split; eauto]].
  read_step H4; [|solve [right; eexists [_; _; _], _; fields; repeat split; eauto]].
  read_step H5; [|solve [right; eexists [_; _; _; _], _; fields; repeat split; eauto]].
  read_step H6; [|solve [right; eexists [_; _; _; _; _], _; fields; repeat split; eauto 10]].
  unfold setDebts. rewrite bind_modify. rewrite two_passes.
  read_step H7.
  - left. unfold setSettlements. eexists [_; _; _; _; _; _; _], _. fields.
    repeat split; eauto 10.
  - right. eexists [_; _; _; _; _; _], _. fields. repeat split; eauto 10. 
Qed.

(** With every read served, what the page holds afterwards. *)
Lemma fetchDebtsAndSettlements_served rnd be user w :
  (forall q, serves be (Select q) = true) ->
  primary_key (db w) ->
  let w' := exec (SettleUp.fetchDebtsAndSettlements rnd be user) w in
  debts w' = SettleUp.debtsList (netted rnd user (db w))
  /\ history w' = SettleUp.settlement_history user (db w)
  /\ toasts w' = toasts w
  /\ db w' = db w.
Proof.
  intros Hs Hpk w'. subst w'. unfold SettleUp.fetchDebtsAndSettlements, exec, try_catch.
  do 6 (rewrite bind_read by apply Hs; cbv beta zeta; rewrite ?db_send).
  unfold setDebts. rewrite bind_modify. rewrite bind_read by apply Hs.
  unfold setSettlements. fields. repeat split.
  rewrite two_passes. f_equal. unfold netted. f_equal. f_equal.
  - apply (contributions_ext _ _ _ (first_pass_reads user (db w) Hpk)).
  - apply (contributions_ext _ _ _ (second_pass_reads user (db w) Hpk)).
Qed.

Lemma debtsList_NoDup m :
  well_keyed m -> NoDup (map debt_user_id (SettleUp.debtsList m)).
Proof.
  intros [Hnd Hf]. unfold SettleUp.debtsList, SettleUp.values.
  induction m as [|[k d] m IH]; [constructor|].
  cbn [map fst snd] in *. inversion Hnd as [|? ? Hk Hnd']; subst.
  inversion Hf as [|? ? Hd Hf']; subst. cbn [fst snd] in Hd.
  cbn [filter]. destruct (js_neq0 (debt_amount d)); [|now apply IH].
  cbn [map]. constructor; [|now apply IH].
  rewrite Hd. intros Hin. apply Hk. apply in_map_iff in Hin.
  destruct Hin as [d' [Hid Hin]]. apply filter_In in Hin. destruct Hin as [Hin _].
  apply in_map_iff in Hin. destruct Hin as [[k' d''] [Heq Hin]]. cbn [snd] in Heq. subst d''.
  rewrite Forall_forall in Hf'. specialize (Hf' _ Hin). cbn [fst snd] in Hf'.
  apply in_map_iff. exists (k', d'). split; [cbn; congruence|exact Hin].
Qed.

(** X7: whatever the store holds and whichever reads the backend serves,
    the list of "Current Balances" has at most one row per person: no two
    of its entries carry the same user id. *)
Theorem settle_up_list_has_one_row_per_person rnd be user st :
  NoDup (map debt_user_id
           (debts (exec (SettleUp.fetchDebtsAndSettlements rnd be user) (initial st)))).
Proof.
  assert (Hwk : forall cs, NoDup (map debt_user_id
                  (SettleUp.debtsList (fold_left (contribute rnd) cs [])))).
  { intros cs. apply debtsList_NoDup, contribute_all_well_keyed. split; constructor. }
  destruct (fetchDebtsAndSettlements_cases rnd be user (initial st))
    as [[l [cs [_ [_ [_ [_ [Hd _]]]]]]]|[l [r [_ [_ [_ [_ [_ [Hd|[cs Hd]]]]]]]]]];
    rewrite Hd; auto. constructor.
Qed.

(** X8: [fetchDebtsAndSettlements] stops at the first read the backend
    does not serve: either its seven reads are all served and no notice is
    shown, or the last request it sent is the one that failed, every request
    before it was served, the notice of failure is shown once and the list of
    settlements is left as it was. *)
Theorem fetchDebtsAndSettlements_stops_at_first_failure rnd be user st :
  let w := exec (SettleUp.fetchDebtsAndSettlements rnd be user) (initial st) in
  (List.length (issued w) = 7%nat
   /\ Forall (fun r => serves be r = true) (issued w)
   /\ toasts w = []
   /\ history w = SettleUp.settlement_history user st)
  \/ (exists l r,
        issued w = (l ++ [r])%list
        /\ (List.length l < 7)%nat
        /\ Forall (fun r => serves be r = true) l /\ serves be r = false
        /\ toasts w = [SettleUp.failure_load]
        /\ history w = []).
Proof.
  intros w. subst w. unfold SettleUp.fetchDebtsAndSettlements, exec, try_catch.
  read_step H1; [|solve [right; exists [], (Select (q_debt_rows user)); fields; cbn; repeat split; auto; lia]].
  read_step H2; [|solve [right; eexists [_], _; fields; cbn; repeat split; eauto; lia]].
  read_step H3; [|solve [right; eexists [_; _], _; fields; cbn; repeat split; eauto; lia]].
  read_step H4; [|solve [right; eexists [_; _; _], _; fields; cbn; repeat split; eauto; lia]].
  read_step H5; [|solve [right; eexists [_; _; _; _], _; fields; cbn; repeat split; eauto 10; lia]].
  read_step H6; [|solve [right; eexists [_; _; _; _; _], _; fields; cbn; repeat split; eauto 10; lia]].
  unfold setDebts. rewrite bind_modify.
  read_step H7.
  - left. unfold setSettlements. fields. cbn. repeat split; eauto 10.
  - right. eexists [_; _; _; _; _; _], _. fields. cbn. repeat split; eauto 10; lia.
Qed.

(** ** The user's own row *)

(** In exact arithmetic the entry of the user holds minus the user's own
    shares of the expenses the user paid. *)
Lemma netted_own_amount user st :
  has_profile st user = true ->
  amount_at user (netted exact user st) == - Spec.own_shares user st.
Proof.
  intros Hk. unfold netted. rewrite amount_at_contribute_all, sum_for_app.
  rewrite sum_for_absent.
  - unfold SettleUp.unsettled_rows. rewrite second_pass_sum by assumption.
    unfold amount_at, Spec.own_shares. cbn [find]. ring.
  - intros Hin. apply contributions_who in Hin. destruct Hin as [p [c [_ [Hc Hw]]]].
    destruct (owes_who user st p c Hc) as [_ [Hne _]]. contradiction.
Qed.



(** ** After a payment is recorded *)

Lemma netted_with_settlement rnd user st row :
  netted rnd user (with_settlement st row) = netted rnd user st.
Proof. reflexivity. Qed.

Lemma settlement_history_head user st row :
  Settlement.from_user row = user ->
  SettleUp.settlement_history user (with_settlement st row)
  = row :: firstn 19 (rev (filter (fun s => String.eqb (Settlement.from_user s) user
                                            || String.eqb (Settlement.to_user s) user)
                             (settlements st))).
Proof.
  intros Hfrom. unfold SettleUp.settlement_history, with_settlement. cbn [settlements].
  rewrite filter_app. cbn [filter]. rewrite Hfrom, String.eqb_refl. cbn [orb].
  rewrite rev_app_distr. reflexivity.
Qed.

Lemma fetchDebtsAndSettlements_returns rnd be user w :
  fst (SettleUp.fetchDebtsAndSettlements rnd be user w) = Return tt.
Proof.
  unfold SettleUp.fetchDebtsAndSettlements, try_catch.
  match goal with |- context [match ?b w with _ => _ end] => destruct (b w) as [[[]|] w1] end;
    reflexivity.
Qed.

(** X10: a recorded payment changes nothing in "Current Balances".  With
    the reads and the insert served, after [handleSettle] has recorded a
    payment the page shows the list of debts it showed before, amounts
    included; the payment itself is the first entry of "Recent
    Settlements". *)
Theorem recorded_payment_leaves_the_debts rnd be user selected amount settleDescription st :
  (forall q, serves be (Select q) = true) ->
  primary_key st ->
  blank settleDescription = false ->
  0 < amount ->
  let row := Settlement.mk user (debt_user_id selected) amount (trim settleDescription) None in
  serves be (InsertSettlement row) = true ->
  let w := exec (SettleUp.handleSettle rnd be user (Some selected) (Some amount)
                   settleDescription) (initial st) in
  toasts w = [SettleUp.payment_recorded]
  /\ settlements (db w) = (settlements st ++ [row])%list
  /\ debts w = debts (exec (SettleUp.fetchDebtsAndSettlements rnd be user) (initial st))
  /\ hd_error (history w) = Some row.
Proof.
  intros Hs Hpk Hb Hpos row Hi w. subst w.
  destruct (fetchDebtsAndSettlements_served rnd be user (initial st) Hs Hpk) as [H0 _].
  rewrite H0. clear H0. cbn [db initial].
  assert (Hd : str_truthy (trim settleDescription) = true) by now rewrite trim_truthy, Hb.
  rewrite handleSettle_valid by assumption. rewrite settlement_group_id_null. fold row.
  unfold exec, try_catch, bind.
  assert (Hok : settlement_ok row = true).
  { unfold settlement_ok, row. cbn. apply negb_true_iff.
    destruct (Qle_bool amount 0) eqn:E; [|reflexivity].
    apply Qle_bool_iff in E. lra. }
  rewrite insert_settlement_accepted by assumption. cbn [show modify].
  match goal with
  | |- context [SettleUp.fetchDebtsAndSettlements rnd be user ?x] =>
      assert (Hpk' : primary_key (db x)) by exact Hpk;
      pose proof (fetchDebtsAndSettlements_served rnd be user x Hs Hpk') as [H1 [H2 [H3 H4]]];
      pose proof (fetchDebtsAndSettlements_returns rnd be user x) as Hr;
      unfold exec in H1, H2, H3, H4;
      destruct (SettleUp.fetchDebtsAndSettlements rnd be user x) as [[a|] w'']
  end; cbn [fst] in Hr; [|discriminate].
  cbn [snd] in *. rewrite H1, H2, H3, H4.
  cbn [db initial commit send settlements toasts app].
  fold (with_settlement st row).
  rewrite netted_with_settlement, settlement_history_head by reflexivity.
  repeat split.
Qed.

Lemma recorded_payment_leaves_the_debts_witness :
  debts (exec (SettleUp.handleSettle exact always "u"
                 (Some (mk_debt "v" "Vik" "v@example.org" 50 None)) (Some 50) "cash")
           (initial taxi))
  = debts (exec (SettleUp.fetchDebtsAndSettlements exact always "u") (initial taxi)).
Proof.
  refine (proj1 (proj2 (proj2
            (recorded_payment_leaves_the_debts exact always "u"
               (mk_debt "v" "Vik" "v@example.org" 50 None) 50 "cash" taxi _ _ _ _ _)))).
  - reflexivity.
  - repeat (apply NoDup_cons; [cbn; intuition discriminate|]). apply NoDup_nil.
  - reflexivity.
  - reflexivity.
  - reflexivity.
Defined.

(** ** What "Current Balances" offers *)

(** In exact arithmetic, the amount of a listed counterparty. *)
Lemma listed_amount be user st d :
  (forall q, serves be (Select q) = true) ->
  primary_key st ->
  In d (debts (exec (SettleUp.fetchDebtsAndSettlements exact be user) (initial st))) ->
  debt_user_id d <> user ->
  debt_amount d
  == Spec.owes_to user (debt_user_id d) st - Spec.owed_by user (debt_user_id d) st.
Proof.
  intros Hs Hpk Hin Hne.
  destruct (fetchDebtsAndSettlements_served exact be user (initial st) Hs Hpk) as [Hd _].
  rewrite Hd in Hin. cbn [db initial] in Hin.
  pose proof (netted_well_keyed exact user st) as Hwk.
  apply debtsList_In in Hin. destruct Hin as [Hin _].
  unfold SettleUp.values in Hin. apply in_map_iff in Hin.
  destruct Hin as [[k d'] [Heq Hin]]. cbn [snd] in Heq. subst d'.
  destruct (amount_at_entry _ _ _ Hwk Hin) as [Ha Hid]. rewrite Hid in *.
  rewrite <- Ha. apply netted_amount; [|exact Hne].
  apply (netted_key_has_profile exact user). change k with (fst (k, d)). now apply in_map.
Qed.

Lemma Qle_bool_false x y : Qle_bool x y = false <-> y < x.
Proof.
  split.
  - intros H. destruct (Qlt_le_dec y x) as [Hlt|Hle]; [exact Hlt|].
    apply Qle_bool_iff in Hle. congruence.
  - intros H. destruct (Qle_bool x y) eqn:E; [|reflexivity].
    apply Qle_bool_iff in E. lra.
Qed.



(** ** The list of friends *)

(** What [fetchFriends] leaves in the list: the list as it was, or one
    entry per accepted friendship of the user. *)
Lemma fetchFriends_cases be user w :
  let w' := exec (Friends.fetchFriends be user) w in
  db w' = db w
  /\ ((friends w' = friends w
       /\ (toasts w' = (toasts w ++ [Friends.failure_load])%list))
      \/ (toasts w' = toasts w
          /\ exists name email : Friendship.t -> string,
               friends w'
               = map (fun f => mk_friend (Friends.other_side user f) (name f) (email f) 0
                                 (Friendship.status f))
                   (Friends.accepted_friendships user (db w)))).
Proof.
  intros w'. subst w'. unfold Friends.fetchFriends, exec, try_catch, bind.
  rewrite select_answer. unfold answer.
  destruct (serves be (Select (q_accepted_friendships user))); [|split; [reflexivity|now left]].
  destruct (Friends.accepted_friendships user (db w)) as [|f fs] eqn:E.
  - split; [reflexivity|]. right. split; [reflexivity|].
    exists (fun _ => ""), (fun _ => ""). reflexivity.
  - rewrite select_answer. unfold answer.
    match goal with
    | |- context [serves be (Select ?q)] => destruct (serves be (Select q))
    end; [|split; [reflexivity|now left]].
    split; [reflexivity|]. right. split; [reflexivity|].
    eexists (fun f => Friends.or_unknown (option_map Profile.full_name _)),
            (fun f => Friends.or_unknown (option_map Profile.email _)).
    reflexivity.
Qed.

Lemma accepted_friendships_status user st f :
  In f (Friends.accepted_friendships user st) ->
  In f (friendships st) /\ Friendship.status f = accepted
  /\ (Friendship.user_id f = user \/ Friendship.friend_id f = user).
Proof.
  unfold Friends.accepted_friendships. intros H. apply filter_In in H.
  destruct H as [Hin H]. apply andb_prop in H. destruct H as [Hu Ha].
  repeat split; [exact Hin| |].
  - destruct (Friendship.status f); [discriminate|reflexivity|discriminate].
  - apply orb_prop in Hu. destruct Hu as [Hu|Hu]; apply String.eqb_eq in Hu; auto.
Qed.

(** X12: the friends page never shows a balance.  Whatever the backend
    serves, every friend in the list after [fetchFriends] has balance [0]
    and status [accepted]; with the reads served the list has one entry per
    accepted friendship of the user, in the order of the table, under the
    id of the other side. *)
Theorem fetchFriends_lists_accepted_with_zero_balance be user st :
  let w := exec (Friends.fetchFriends be user) (initial st) in
  Forall (fun f => friend_balance f = 0 /\ friend_status f = accepted) (friends w)
  /\ ((forall q, serves be (Select q) = true) ->
      map friend_id (friends w)
      = map (Friends.other_side user) (Friends.accepted_friendships user st)).
Proof.
  intros w. subst w. split.
  - destruct (fetchFriends_cases be user (initial st)) as [_ [[H _]|[_ [name [email H]]]]];
      rewrite H; [constructor|].
    apply Forall_forall. intros x Hx. apply in_map_iff in Hx. destruct Hx as [f [<- Hf]].
    cbn. split; [reflexivity|]. now apply accepted_friendships_status in Hf.
  - intros Hs. unfold Friends.fetchFriends, exec, try_catch, bind.
    rewrite select_served by apply Hs. cbn [db initial].
    destruct (Friends.accepted_friendships user st) as [|f fs] eqn:E; [reflexivity|].
    rewrite select_served by apply Hs. cbn [snd setFriends modify friends].
    rewrite map_map. reflexivity.
Qed.

Lemma fetchFriends_lists_accepted_with_zero_balance_witness :
  map friend_id (friends (exec (Friends.fetchFriends always "u") (initial circle))) = ["v"].
Proof.
  apply (proj2 (fetchFriends_lists_accepted_with_zero_balance always "u" circle)).
  reflexivity.
Defined.

(** ** After a friend request *)

(** A listed friend is linked to the user by an accepted friendship. *)
Lemma listed_friend_is_linked user st t :
  In t (map (Friends.other_side user) (Friends.accepted_friendships user st)) ->
  exists f, In f (friendships st) /\ Friendship.status f = accepted
            /\ Friends.between user t f = true.
Proof.
  intros Hin. apply in_map_iff in Hin. destruct Hin as [f [Hside Hf]].
  apply accepted_friendships_status in Hf. destruct Hf as [Hin [Hacc Hinv]].
  exists f. repeat split; [exact Hin|exact Hacc|].
  unfold Friends.between, Friends.other_side in *.
  destruct (String.eqb (Friendship.user_id f) user) eqn:Eu.
  - rewrite Hside, String.eqb_refl. reflexivity.
  - destruct Hinv as [Hu|Hu]; [rewrite Hu, String.eqb_refl in Eu; discriminate|].
    rewrite Hside, Hu, !String.eqb_refl. apply orb_true_r.
Qed.

(** X13: a friend request does not make a friend.  When [addFriend] has
    inserted the request for a target with no friendship row towards the
    user in either direction, the list it then reloads does not contain the
    target: the new row is [pending] and the list holds accepted
    friendships only. *)
Theorem requested_friend_is_not_listed be user newFriendEmail target st :
  let email := trim newFriendEmail in
  let t := Profile.id target in
  let w := exec (Friends.addFriend be user newFriendEmail) (initial st) in
  blank newFriendEmail = false ->
  serves be (Select (q_profile_by_email email)) = true ->
  Friends.profile_by_email email st = [target] ->
  t <> user ->
  existsb (Friends.between user t) (friendships st) = false ->
  serves be (InsertFriendship (Friendship.mk user t pending)) = true ->
  friendships (db w) = (friendships st ++ [Friendship.mk user t pending])%list
  /\ hd_error (toasts w) = Some Friends.request_sent
  /\ ~ In t (map friend_id (friends w)).
Proof.
  intros email t w Hb Hl Hfound Hother Hnone Hi. subst w.
  assert (He : str_truthy email = true) by (unfold email; now rewrite trim_truthy, Hb).
  destruct (no_link_is_fresh st user t Hnone) as [Hok Hempty].
  unfold Friends.addFriend. fold email. rewrite He. cbn [negb].
  unfold exec, try_catch, bind. rewrite select_served by assumption.
  cbn [db initial]. rewrite Hfound. cbn [Friends.single]. fold t.
  destruct (String.eqb t user) eqn:E; [apply String.eqb_eq in E; contradiction|].
  rewrite select_answer. cbn [db send initial].
  rewrite (unchecked_single be user t st)
    by (right; intros existing; congruence).
  rewrite insert_friendship_accepted by assumption.
  cbn [show modify].
  match goal with
  | |- context [Friends.fetchFriends be user ?x] =>
      pose proof (fetchFriends_cases be user x) as [Hdb Hcases];
      unfold exec in Hdb, Hcases;
      destruct (Friends.fetchFriends be user x) as [[a|] w'']
  end; cbn [snd show modify db toasts friends commit send initial] in *;
    rewrite Hdb; cbn [friendships]; (split; [reflexivity|]); split;
    try (destruct Hcases as [[_ ->]|[-> _]]; reflexivity);
    (destruct Hcases as [[-> _]|[_ [name [mail ->]]]]; [intros []|]);
    rewrite map_map; cbn [friend_id]; intros Hin;
    apply listed_friend_is_linked in Hin; destruct Hin as [f [Hin [Hacc Hbt]]];
    cbn [friendships] in Hin; apply in_app_or in Hin;
    (destruct Hin as [Hin|[<-|[]]]; [|discriminate]);
    assert (Hex : existsb (Friends.between user t) (friendships st) = true)
      by (apply existsb_exists; now exists f);
    congruence.
Qed.

Lemma requested_friend_is_not_listed_witness :
  ~ In "w" (map friend_id
              (friends (exec (Friends.addFriend always "u" " w@example.org ") (initial circle)))).
Proof.
  refine (proj2 (proj2 (requested_friend_is_not_listed always "u" " w@example.org "
                          (Profile.mk "w" "Wen" "w@example.org") circle _ _ _ _ _ _)));
    try reflexivity.
  discriminate.
Defined.


(** ** What the pages never change *)

Lemma handleSubmit_store rnd be user selectedGroup selectedParticipants form st :
  let st' := db (exec (AddExpense.handleSubmit rnd be user selectedGroup selectedParticipants
                         form) (initial st)) in
  expense_participants st' = expense_participants st
  \/ exists A e,
       expense_ok st e = true
       /\ expense_participants st'
          = (expense_participants st
             ++ AddExpense.participants rnd (Expense.id e) A selectedParticipants)%list.
Proof.
  intros st'. subst st'.
  destruct (handleSubmit_cases rnd be user selectedGroup selectedParticipants form (initial st))
    as [H|[A [Ha [H|[[_ H]|[Hok [_ H]]]]]]]; rewrite H; cbn; auto.
  right. eexists A, _. split; [exact Hok|reflexivity].
Qed.

Lemma perform_participants rnd be a st :
  expense_participants (perform rnd be a st) = expense_participants st
  \/ exists A e sel,
       expense_ok st e = true
       /\ expense_participants (perform rnd be a st)
          = (expense_participants st ++ AddExpense.participants rnd (Expense.id e) A sel)%list.
Proof.
  destruct a as [user g sel form|user d amt desc|user email]; cbn [perform].
  - destruct (handleSubmit_store rnd be user g sel form st) as [H|[A [e [Hok H]]]]; [now left|].
    right. now exists A, e, sel.
  - left. destruct (handleSettle_store rnd be user d amt desc (initial st))
      as [H|[selected [amount [_ [_ H]]]]]; rewrite H; reflexivity.
  - left. unfold Friends.addFriend.
    destruct (negb (str_truthy (trim email))); [reflexivity|].
    unfold exec, try_catch, bind. rewrite select_answer.
    destruct (match answer be _ _ with Data rows => Friends.single rows | Error => Error end)
      as [profileData|]; [|reflexivity].
    destruct (String.eqb (Profile.id profileData) user); [reflexivity|].
    rewrite select_answer.
    destruct (match answer be _ _ with Data rows => Friends.single rows | Error => Error end)
      as [existing|]; [reflexivity|].
    unfold insert_friendship, insert.
    destruct (serves be _); [|reflexivity].
    destruct (friendship_ok _ _); [|reflexivity].
    cbn [show modify bind].
    match goal with
    | |- context [Friends.fetchFriends be user ?x] =>
        pose proof (fetchFriends_read_only be user x) as [Hro _];
        destruct (Friends.fetchFriends be user x) as [[a|] w'']
    end; cbn [snd db commit send show modify] in *; rewrite Hro; reflexivity.
Qed.

(** X15: no page of the ledger ever marks a share as settled.  From a
    store whose shares are all unsettled, whatever expenses are added,
    payments recorded and friend requests sent, every share stays
    unsettled. *)
Theorem shares_stay_unsettled st0 st :
  all_unsettled st0 -> reachable st0 st -> all_unsettled st.
Proof.
  intros H0. induction 1 as [|rnd be a st _ IH]; [exact H0|].
  unfold all_unsettled in *.
  destruct (perform_participants rnd be a st) as [H|[A [e [sel [_ H]]]]]; rewrite H;
    [exact IH|].
  apply Forall_app. split; [exact IH|]. apply Forall_forall. intros p Hp.
  unfold AddExpense.participants in Hp. apply in_map_iff in Hp. destruct Hp as [i [<- _]].
  reflexivity.
Qed.

Lemma shares_stay_unsettled_witness :
  all_unsettled (perform exact always (Settle "v" (Some (mk_debt "u" "Uma" "u@example.org" 50 None))
                                         (Some 50) "cash")
                   (perform exact always (Submit "u" "g" ["u"; "v"; "w"] dinner) household)).
Proof.
  apply (shares_stay_unsettled household).
  - constructor.
  - apply reach_step. apply reach_step. apply reach_start.
Defined.

(** X16: every expense on the ledger stays split equally.  From a
    consistent store in which the shares of each expense are equal,
    whatever the pages do, any two shares of one expense hold the same
    amount. *)
Theorem shares_stay_equal st0 st :
  consistent st0 -> equal_shares st0 -> reachable st0 st -> equal_shares st.
Proof.
  intros Hc0 H0 Hr. induction Hr as [|rnd be a st Hr IH]; [exact H0|].
  pose proof (reachable_consistent st0 st Hc0 Hr) as [_ [Hfk _]].
  unfold equal_shares in *.
  destruct (perform_participants rnd be a st) as [H|[A [e [sel [Hok H]]]]]; rewrite H;
    [exact IH|].
  pose proof (expense_ok_fresh st e Hok) as Hfresh.
  assert (Hold : forall p, In p (expense_participants st) ->
                   ExpenseParticipant.expense_id p <> Expense.id e).
  { intros p Hp Heq. apply Hfresh. rewrite <- Heq.
    unfold foreign_key in Hfk. rewrite Forall_forall in Hfk. now apply Hfk. }
  assert (Hnew : forall p, In p (AddExpense.participants rnd (Expense.id e) A sel) ->
                   ExpenseParticipant.expense_id p = Expense.id e
                   /\ ExpenseParticipant.amount_owed p = AddExpense.amountPerPerson rnd A sel).
  { intros p Hp. unfold AddExpense.participants in Hp. apply in_map_iff in Hp.
    destruct Hp as [i [<- _]]. split; reflexivity. }
  intros p q Hp Hq Heq. apply in_app_or in Hp, Hq.
  destruct Hp as [Hp|Hp], Hq as [Hq|Hq].
  - now apply IH.
  - destruct (Hnew q Hq) as [Hid _]. exfalso. apply (Hold p Hp). congruence.
  - destruct (Hnew p Hp) as [Hid _]. exfalso. apply (Hold q Hq). congruence.
  - destruct (Hnew p Hp) as [_ ->]. destruct (Hnew q Hq) as [_ ->]. reflexivity.
Qed.

Lemma shares_stay_equal_witness :
  equal_shares (perform binary64 always (Submit "u" "g" ["u"; "v"; "w"] dinner) household).
Proof.
  apply (shares_stay_equal household).
  - repeat split; constructor.
  - intros p q [].
  - apply reach_step. apply reach_start.
Defined.

(** * The pages around the groups *)

(** ** Running a page *)

Lemma page_select_answer {S A} sv c (rows : Site.t -> A) (b : browser S) :
  Page.select sv c rows b
  = (Return (if accepts sv c then Data (rows (remote b)) else Error), Page.send c b).
Proof. unfold Page.select. now destruct (accepts sv c). Qed.

Lemma page_bind_select {S A B} sv c (rows : Site.t -> A) (k : response A -> PageM S B) b :
  Page.bind (Page.select sv c rows) k b
  = k (if accepts sv c then Data (rows (remote b)) else Error) (Page.send c b).
Proof. unfold Page.bind. now rewrite page_select_answer. Qed.

Lemma page_bind_set {S B} (f : S -> S) (k : unit -> PageM S B) b :
  Page.bind (Page.set f) k b
  = k tt (mk_browser (remote b) (sent b) (notices b) (f (page b))).
Proof. reflexivity. Qed.

(** ** The list of groups of the add-expense page *)

Lemma groups_in_In ids s g :
  In g (groups_in ids s)
  <-> exists row, In row (Site.groups s) /\ In (GroupRow.id row) ids /\ Site.id_name row = g.
Proof.
  unfold groups_in. rewrite in_map_iff. split.
  - intros [row [Heq Hin]]. apply filter_In in Hin. destruct Hin as [Hin Hm].
    apply mem_In in Hm. now exists row.
  - intros [row [Hin [Hm Heq]]]. exists row. split; [exact Heq|].
    apply filter_In. split; [exact Hin|now apply mem_In].
Qed.

Lemma memberships_In user s m :
  In m (memberships user s) <-> In m (Site.group_members s) /\ GroupMember.user_id m = user.
Proof.
  unfold memberships. rewrite filter_In. now rewrite String.eqb_eq.
Qed.

(** X17: [fetchUserGroups] never shows a notice and never writes.  When
    the read of the memberships or the read of the groups is refused the
    list of groups is emptied; when both are served the list holds, in the
    order of the table, the id and name of exactly the groups the user is a
    member of.  The answer to the connection test makes no difference. *)
Theorem fetchUserGroups_lists_own_groups sv user b :
  let b' := Page.exec (AddExpensePage.fetchUserGroups sv user) b in
  let groupIds := map GroupMember.group_id (memberships user (remote b)) in
  notices b' = notices b
  /\ remote b' = remote b
  /\ (accepts sv (SelectGroupIds user) = false -> AddExpensePage.groups (page b') = [])
  /\ (accepts sv (SelectGroups groupIds) = false -> AddExpensePage.groups (page b') = [])
  /\ (accepts sv (SelectGroupIds user) = true ->
      accepts sv (SelectGroups groupIds) = true ->
      AddExpensePage.groups (page b') = groups_in groupIds (remote b)
      /\ forall g, In g (AddExpensePage.groups (page b'))
           <-> exists row, In row (Site.groups (remote b))
                 /\ In (GroupMember.mk (GroupRow.id row) user) (Site.group_members (remote b))
                 /\ Site.id_name row = g).
Proof.
  intros b' groupIds. subst b'.
  unfold AddExpensePage.fetchUserGroups, Page.exec, Page.try_catch.
  rewrite !page_bind_select. cbn [remote Page.send].
  fold groupIds.
  destruct (accepts sv (SelectGroupIds user)) eqn:E1.
  2:{ cbn. repeat split; intros; try discriminate; auto. }
  assert (Hmember : forall row,
            In (GroupRow.id row) groupIds
            <-> In (GroupMember.mk (GroupRow.id row) user) (Site.group_members (remote b))).
  { intros row. unfold groupIds. rewrite in_map_iff. split.
    - intros [x [Hx Hxin]]. apply memberships_In in Hxin. destruct Hxin as [Hxin Hu].
      destruct x as [gid uid]. cbn in *. now subst.
    - intros Hin. exists (GroupMember.mk (GroupRow.id row) user). split; [reflexivity|].
      apply memberships_In. now split. }
  assert (Hspec : forall g,
            In g (groups_in groupIds (remote b))
            <-> exists row, In row (Site.groups (remote b))
                  /\ In (GroupMember.mk (GroupRow.id row) user) (Site.group_members (remote b))
                  /\ Site.id_name row = g).
  { intros g. rewrite groups_in_In. split; intros [row [H1 [H2 H3]]]; exists row;
      (split; [exact H1|split; [now apply Hmember|exact H3]]). }
  destruct (memberships user (remote b)) as [|m ms] eqn:Em.
  { assert (Hnone : groups_in groupIds (remote b) = []).
    { unfold groups_in, groupIds. cbn [map mem existsb]. clear.
      induction (Site.groups (remote b)) as [|x l IH]; [reflexivity|exact IH]. }
    cbn [snd Page.set notices remote page AddExpensePage.setGroups AddExpensePage.groups].
    split; [reflexivity|]. split; [reflexivity|]. split; [reflexivity|].
    split; [reflexivity|]. intros _ _. rewrite <- Hnone. split; [reflexivity|exact Hspec]. }
  rewrite page_bind_select. cbn [remote Page.send map].
  change (GroupMember.group_id m :: map GroupMember.group_id ms) with groupIds.
  destruct (accepts sv (SelectGroups groupIds)) eqn:E2.
  2:{ cbn. repeat split; intros; try discriminate; auto. }
  cbn [Page.set snd notices remote page AddExpensePage.setGroups AddExpensePage.groups].
  assert (Hid : map (fun group => Group.mk (Group.id group) (Group.name group))
                  (groups_in groupIds (remote b)) = groups_in groupIds (remote b)).
  { rewrite <- (map_id (groups_in groupIds (remote b))) at 2. apply map_ext.
    now intros []. }
  rewrite Hid.
  split; [reflexivity|]. split; [reflexivity|]. split; [discriminate|].
  split; [discriminate|]. intros _ _. split; [reflexivity|exact Hspec].
Qed.

(** ** Choosing a group on the add-expense page *)

Lemma profile_eta (l : list Profile.t) :
  map (fun profile => Profile.mk (Profile.id profile) (Profile.full_name profile)
                        (Profile.email profile)) l = l.
Proof. rewrite <- (map_id l) at 2. apply map_ext. now intros []. Qed.

Lemma members_of_In g s m :
  In m (members_of g s) <-> In m (Site.group_members s) /\ GroupMember.group_id m = g.
Proof. unfold members_of. rewrite filter_In. now rewrite String.eqb_eq. Qed.

Lemma NoDup_map_filter {A B} (f : A -> B) (p : A -> bool) l :
  NoDup (map f l) -> NoDup (map f (filter p l)).
Proof.
  induction l as [|x l IH]; intros H; [constructor|]. cbn [map] in H.
  inversion H as [|? ? Hx Hnd]; subst. cbn [filter].
  destruct (p x); [|now apply IH]. cbn [map]. constructor; [|now apply IH].
  intros Hin. apply Hx. apply in_map_iff in Hin. destruct Hin as [y [Hy Hin]].
  apply filter_In in Hin. apply in_map_iff. exists y. tauto.
Qed.

Section ChooseGroup.
Variable sv : service.
Variable groupId : string.
Variable b : browser AddExpensePage.state.
Hypothesis Hgroup : groupId <> "".

Let userIds := map GroupMember.user_id (members_of groupId (remote b)).
Let form := AddExpense.mk_form (AddExpense.description (AddExpensePage.formData (page b)))
              (AddExpense.amount (AddExpensePage.formData (page b)))
              (AddExpense.expenseDate (AddExpensePage.formData (page b))) groupId.

(** The effect runs [fetchGroupMembers] on the group just chosen. *)
Lemma chooseGroup_fetches :
  Page.exec (AddExpensePage.chooseGroup sv groupId) b
  = Page.exec (AddExpensePage.fetchGroupMembers sv groupId)
      (mk_browser (remote b) (sent b) (notices b)
         (AddExpensePage.mk_state (AddExpensePage.groups (page b)) groupId
            (AddExpensePage.groupMembers (page b))
            (AddExpensePage.selectedParticipants (page b)) form)).
Proof.
  assert (Hgt : str_truthy groupId = true) by (destruct groupId; [congruence|reflexivity]).
  unfold AddExpensePage.chooseGroup, AddExpensePage.handleGroupChange, Page.exec.
  unfold Page.bind at 1 2. unfold Page.set at 1 2. unfold AddExpensePage.selectedGroup_effect.
  cbn [page remote sent notices AddExpensePage.setSelectedGroup AddExpensePage.setFormData
       AddExpensePage.selectedGroup AddExpensePage.groups AddExpensePage.groupMembers
       AddExpensePage.selectedParticipants AddExpensePage.formData].
  now rewrite Hgt.
Qed.

Lemma chooseGroup_loaded :
  accepts sv (SelectUserIds groupId) = true ->
  members_of groupId (remote b) <> [] ->
  accepts sv (Ledger (Select (q_profiles userIds))) = true ->
  Page.exec (AddExpensePage.chooseGroup sv groupId) b
  = mk_browser (remote b)
      (sent b ++ [SelectUserIds groupId; Ledger (Select (q_profiles userIds))])
      (notices b)
      (AddExpensePage.mk_state (AddExpensePage.groups (page b)) groupId
         (SettleUp.profiles_in userIds (Site.ledger (remote b)))
         (map Profile.id (SettleUp.profiles_in userIds (Site.ledger (remote b))))
         form).
Proof.
  intros H1 Hne H2. rewrite chooseGroup_fetches.
  unfold AddExpensePage.fetchGroupMembers, Page.exec, Page.try_catch.
  rewrite page_bind_select, H1. cbn [remote].
  unfold userIds in *.
  destruct (members_of groupId (remote b)) as [|m ms] eqn:Em; [congruence|].
  rewrite page_bind_select. cbn [remote Page.send].
  rewrite H2, profile_eta. cbn. now rewrite <- app_assoc.
Qed.

Lemma chooseGroup_empty :
  accepts sv (SelectUserIds groupId) = true ->
  members_of groupId (remote b) = [] ->
  Page.exec (AddExpensePage.chooseGroup sv groupId) b
  = mk_browser (remote b) (sent b ++ [SelectUserIds groupId]) (notices b)
      (AddExpensePage.mk_state (AddExpensePage.groups (page b)) groupId []
         (AddExpensePage.selectedParticipants (page b)) form).
Proof.
  intros H1 He. rewrite chooseGroup_fetches.
  unfold AddExpensePage.fetchGroupMembers, Page.exec, Page.try_catch.
  rewrite page_bind_select, H1. cbn [remote]. rewrite He. reflexivity.
Qed.

Lemma chooseGroup_refused :
  accepts sv (SelectUserIds groupId) = false
  \/ (members_of groupId (remote b) <> []
      /\ accepts sv (Ledger (Select (q_profiles userIds))) = false) ->
  exists requests,
    Page.exec (AddExpensePage.chooseGroup sv groupId) b
    = mk_browser (remote b) (sent b ++ requests)
        (notices b ++ [AddExpensePage.failure_members])
        (AddExpensePage.mk_state (AddExpensePage.groups (page b)) groupId
           (AddExpensePage.groupMembers (page b))
           (AddExpensePage.selectedParticipants (page b)) form).
Proof.
  intros H. rewrite chooseGroup_fetches.
  unfold AddExpensePage.fetchGroupMembers, Page.exec, Page.try_catch.
  rewrite page_bind_select. cbn [remote].
  destruct (accepts sv (SelectUserIds groupId)) eqn:E1.
  - destruct H as [H|[Hne H]]; [discriminate|]. unfold userIds in *.
    destruct (members_of groupId (remote b)) as [|m ms] eqn:Em; [congruence|].
    rewrite page_bind_select. cbn [remote Page.send]. rewrite H.
    eexists [_; _]. cbn. now rewrite <- app_assoc.
  - now exists [SelectUserIds groupId].
Qed.
End ChooseGroup.





(** ** Creating a group *)

Section CreateGroup.
Variable rnd : arithmetic.
Variable sv : service.
Variable user : uuid.
Variables (name description : string).
Variable b : browser GroupsPage.state.

Let s := remote b.
Let g := GroupRow.mk (group_uuid sv) (trim name) (trim description) user.
Let m := GroupMember.mk (group_uuid sv) user.
Let a := ActivityRow.mk user "group_created" (GroupsPage.created_group name)
           (Some (group_uuid sv)).
Let s1 := Site.mk (Site.profiles s) (Site.groups s ++ [g]) (Site.group_members s)
            (Site.friendships s) (Site.expenses s) (Site.expense_participants s)
            (Site.settlements s) (Site.activities s).
Let s2 := Site.mk (Site.profiles s) (Site.groups s ++ [g]) (Site.group_members s ++ [m])
            (Site.friendships s) (Site.expenses s) (Site.expense_participants s)
            (Site.settlements s) (Site.activities s).
Let s3 := Site.mk (Site.profiles s) (Site.groups s ++ [g]) (Site.group_members s ++ [m])
            (Site.friendships s) (Site.expenses s) (Site.expense_participants s)
            (Site.settlements s) (Site.activities s ++ [a]).
Let insert_g := InsertGroup (trim name) (trim description) user.

Lemma handleCreateGroup_blank :
  blank name = true ->
  Page.exec (GroupsPage.handleCreateGroup rnd sv user name description) b
  = mk_browser s (sent b) (notices b ++ [GroupsPage.name_required]) (page b).
Proof.
  intros Hb. unfold GroupsPage.handleCreateGroup. rewrite trim_truthy, Hb. reflexivity.
Qed.

Lemma handleCreateGroup_no_group :
  blank name = false ->
  accepts sv insert_g = false \/ group_ok s g = false ->
  Page.exec (GroupsPage.handleCreateGroup rnd sv user name description) b
  = mk_browser s (sent b ++ [insert_g]) (notices b ++ [GroupsPage.failure_create]) (page b).
Proof.
  intros Hb H. unfold GroupsPage.handleCreateGroup. rewrite trim_truthy, Hb. cbn [negb].
  unfold Page.exec, Page.try_catch, Page.bind, GroupsPage.insert_group, Page.insert.
  fold insert_g. fold s. fold g.
  destruct (accepts sv insert_g); [|reflexivity].
  destruct H as [H|H]; [discriminate|]. rewrite H. reflexivity.
Qed.

Lemma handleCreateGroup_no_member :
  blank name = false ->
  accepts sv insert_g = true -> group_ok s g = true ->
  accepts sv (InsertGroupMember m) = false \/ member_ok s1 m = false ->
  Page.exec (GroupsPage.handleCreateGroup rnd sv user name description) b
  = mk_browser s1 (sent b ++ [insert_g; InsertGroupMember m])
      (notices b ++ [GroupsPage.failure_create]) (page b).
Proof.
  intros Hb H1 H2 H. unfold GroupsPage.handleCreateGroup. rewrite trim_truthy, Hb. cbn [negb].
  unfold Page.exec, Page.try_catch, Page.bind, GroupsPage.insert_group,
    GroupsPage.insert_group_member, Page.insert.
  fold insert_g. fold s. fold g. rewrite H1, H2. cbn [GroupRow.id g remote Page.send].
  fold m. fold s1.
  destruct (accepts sv (InsertGroupMember m)).
  - destruct H as [H|H]; [discriminate|]. rewrite H. cbn. now rewrite <- app_assoc.
  - cbn. now rewrite <- app_assoc.
Qed.

Lemma fetchGroups_reads (b0 : browser GroupsPage.state) :
  let b1 := Page.exec (GroupsPage.fetchGroups rnd sv user) b0 in
  remote b1 = remote b0
  /\ sent b1 = (sent b0 ++ [SelectGroupCards user])%list
  /\ GroupsPage.newGroup (page b1) = GroupsPage.newGroup (page b0)
  /\ GroupsPage.isCreateDialogOpen (page b1) = GroupsPage.isCreateDialogOpen (page b0)
  /\ (notices b1 = notices b0
      \/ notices b1 = (notices b0 ++ [GroupsPage.failure_load])%list)
  /\ fst (GroupsPage.fetchGroups rnd sv user b0) = Return tt.
Proof.
  unfold GroupsPage.fetchGroups, Page.exec, Page.try_catch. rewrite page_bind_select.
  destruct (accepts sv (SelectGroupCards user)); cbn; auto 10.
Qed.

Lemma insert_activity_any row (b0 : browser GroupsPage.state) :
  exists r,
    GroupsPage.insert_activity sv row b0
    = (Return r,
       mk_browser
         (if accepts sv (InsertActivity row) && activity_ok (remote b0) row
          then Site.mk (Site.profiles (remote b0)) (Site.groups (remote b0))
                 (Site.group_members (remote b0)) (Site.friendships (remote b0))
                 (Site.expenses (remote b0)) (Site.expense_participants (remote b0))
                 (Site.settlements (remote b0)) (Site.activities (remote b0) ++ [row])
          else remote b0)
         (sent b0 ++ [InsertActivity row]) (notices b0) (page b0)).
Proof.
  unfold GroupsPage.insert_activity, Page.insert.
  destruct (accepts sv (InsertActivity row)); [|now exists Error].
  destruct (activity_ok (remote b0) row); [now exists (Data tt)|now exists Error].
Qed.

Lemma handleCreateGroup_refreshes :
  blank name = false ->
  accepts sv insert_g = true -> group_ok s g = true ->
  accepts sv (InsertGroupMember m) = true -> member_ok s1 m = true ->
  Page.exec (GroupsPage.handleCreateGroup rnd sv user name description) b
  = Page.exec (GroupsPage.fetchGroups rnd sv user)
      (mk_browser (if accepts sv (InsertActivity a) && activity_ok s2 a then s3 else s2)
         (sent b ++ [insert_g; InsertGroupMember m; InsertActivity a])
         (notices b ++ [GroupsPage.success])
         (GroupsPage.mk_state (GroupsPage.groups (page b)) ("", "") false)).
Proof.
  intros Hb H1 H2 H3 H4.
  unfold GroupsPage.handleCreateGroup. rewrite trim_truthy, Hb. cbn [negb].
  unfold Page.exec, Page.try_catch. unfold Page.bind at 1.
  unfold GroupsPage.insert_group, Page.insert. fold insert_g. fold s. fold g.
  rewrite H1, H2. cbn [GroupRow.id g remote Page.send]. fold m.
  unfold Page.bind at 1. unfold GroupsPage.insert_group_member, Page.insert.
  cbn [remote Page.send sent notices page]. fold s1. rewrite H3, H4.
  unfold Page.bind at 1. fold a.
  match goal with
  | |- context [GroupsPage.insert_activity sv a ?b0] =>
      destruct (insert_activity_any a b0) as [r ->]
  end.
  cbn [remote sent notices page]. fold s2. fold s3.
  unfold Page.bind, Page.show, Page.set. cbn [remote sent notices page].
  unfold GroupsPage.setIsCreateDialogOpen, GroupsPage.setNewGroup.
  cbn [GroupsPage.groups GroupsPage.newGroup GroupsPage.isCreateDialogOpen].
  rewrite <- !app_assoc. cbn [app].
  match goal with
  | |- context [GroupsPage.fetchGroups rnd sv user ?b0] =>
      change b0 with
        (mk_browser (if accepts sv (InsertActivity a) && activity_ok s2 a then s3 else s2)
           (sent b ++ [insert_g; InsertGroupMember m; InsertActivity a])
           (notices b ++ [GroupsPage.success])
           (GroupsPage.mk_state (GroupsPage.groups (page b)) ("", "") false))
  end.
  match goal with
  | |- context [GroupsPage.fetchGroups rnd sv user ?b0] =>
      pose proof (fetchGroups_reads b0) as [_ [_ [_ [_ [_ F6]]]]];
      destruct (GroupsPage.fetchGroups rnd sv user b0) as [[[]|] b1]
  end; cbn [fst] in F6; [reflexivity|discriminate].
Qed.

Lemma handleCreateGroup_created :
  blank name = false ->
  accepts sv insert_g = true -> group_ok s g = true ->
  accepts sv (InsertGroupMember m) = true -> member_ok s1 m = true ->
  let b' := Page.exec (GroupsPage.handleCreateGroup rnd sv user name description) b in
  remote b' = (if accepts sv (InsertActivity a) && activity_ok s2 a then s3 else s2)
  /\ sent b' = (sent b ++ [insert_g; InsertGroupMember m; InsertActivity a;
                           SelectGroupCards user])%list
  /\ (notices b' = (notices b ++ [GroupsPage.success])%list
      \/ notices b' = (notices b ++ [GroupsPage.success; GroupsPage.failure_load])%list)
  /\ GroupsPage.newGroup (page b') = ("", "")
  /\ GroupsPage.isCreateDialogOpen (page b') = false.
Proof.
  intros Hb H1 H2 H3 H4 b'. subst b'.
  rewrite handleCreateGroup_refreshes by assumption.
  match goal with
  | |- context [Page.exec (GroupsPage.fetchGroups rnd sv user) ?b0] =>
      pose proof (fetchGroups_reads b0) as [F1 [F2 [F3 [F4 [F5 _]]]]]
  end.
  cbv zeta in F1, F2, F3, F4, F5. rewrite F1, F2, F3, F4.
  cbn [remote sent notices page GroupsPage.newGroup GroupsPage.isCreateDialogOpen] in *.
  rewrite <- !app_assoc. cbn [app]. repeat split.
  destruct F5 as [->| ->]; [now left|right]. now rewrite <- app_assoc.
Qed.
End CreateGroup.

Lemma group_ok_fresh s g :
  group_ok s g = true -> ~ In (GroupRow.id g) (map GroupRow.id (Site.groups s)).
Proof.
  unfold group_ok. intros H Hin. apply mem_In in Hin. rewrite Hin in H. discriminate.
Qed.

(** The creator's row is taken for a group that is new. *)
Lemma creator_member_ok s g user :
  members_refer s -> group_ok s g = true ->
  member_ok
    (Site.mk (Site.profiles s) (Site.groups s ++ [g]) (Site.group_members s)
       (Site.friendships s) (Site.expenses s) (Site.expense_participants s)
       (Site.settlements s) (Site.activities s))
    (GroupMember.mk (GroupRow.id g) user) = true.
Proof.
  intros Hfk Hok. pose proof (group_ok_fresh s g Hok) as Hfresh.
  unfold member_ok. cbn [Site.groups Site.group_members GroupMember.group_id].
  apply andb_true_intro. split.
  - apply mem_In. rewrite map_app. apply in_or_app. right. now left.
  - apply negb_true_iff. destruct (existsb _ _) eqn:E; [|reflexivity].
    apply existsb_exists in E. destruct E as [x [Hx Hsame]].
    unfold same_member in Hsame. cbn in Hsame. apply andb_prop in Hsame.
    destruct Hsame as [Hg _]. apply String.eqb_eq in Hg.
    exfalso. apply Hfresh. rewrite Hg.
    unfold members_refer in Hfk. rewrite Forall_forall in Hfk. now apply Hfk.
Qed.




(** X22: the activity of a new group is written on a best-effort basis.
    Once the group and the membership of its creator are in, the page
    reports success, closes the dialog and clears the form whether or not
    the row of the activity feed is taken: the row is in the table exactly
    when the backend served its insert. *)
Theorem group_is_created_with_or_without_activity rnd sv user name description s page0 :
  let g := GroupRow.mk (group_uuid sv) (trim name) (trim description) user in
  let m := GroupMember.mk (group_uuid sv) user in
  let a := ActivityRow.mk user "group_created" (GroupsPage.created_group name)
             (Some (group_uuid sv)) in
  let b' := Page.exec (GroupsPage.handleCreateGroup rnd sv user name description)
              (open s page0) in
  blank name = false ->
  members_refer s ->
  accepts sv (InsertGroup (trim name) (trim description) user) = true ->
  group_ok s g = true ->
  accepts sv (InsertGroupMember m) = true ->
  Site.groups (remote b') = (Site.groups s ++ [g])%list
  /\ Site.group_members (remote b') = (Site.group_members s ++ [m])%list
  /\ Site.activities (remote b')
     = (if accepts sv (InsertActivity a) then Site.activities s ++ [a] else Site.activities s)%list
  /\ hd_error (notices b') = Some GroupsPage.success
  /\ GroupsPage.newGroup (page b') = ("", "")
  /\ GroupsPage.isCreateDialogOpen (page b') = false
  /\ GroupsPage.visible user (remote b') g = true.
Proof.
  intros g m a b' Hb Hfk H1 H2 H3. subst b'.
  pose proof (creator_member_ok s g user Hfk H2) as H4.
  destruct (handleCreateGroup_created rnd sv user name description (open s page0)
              Hb H1 H2 H3 H4) as [Hr [_ [Hn [Hng Hd]]]].
  cbn [remote open] in Hr. rewrite Hr, Hng, Hd. fold g m a.
  assert (Hok : activity_ok
                  (Site.mk (Site.profiles s) (Site.groups s ++ [g]) (Site.group_members s ++ [m])
                     (Site.friendships s) (Site.expenses s) (Site.expense_participants s)
                     (Site.settlements s) (Site.activities s)) a = true).
  { unfold activity_ok. cbn [ActivityRow.activity_type ActivityRow.group_id a Site.groups].
    apply andb_true_intro. split; [reflexivity|].
    apply mem_In. rewrite map_app. apply in_or_app. right. now left. }
  rewrite Hok, andb_true_r.
  assert (Hv : forall acts,
            GroupsPage.visible user
              (Site.mk (Site.profiles s) (Site.groups s ++ [g]) (Site.group_members s ++ [m])
                 (Site.friendships s) (Site.expenses s) (Site.expense_participants s)
                 (Site.settlements s) acts) g = true).
  { intros acts. unfold GroupsPage.visible. cbn [Site.group_members].
    apply existsb_exists. exists m. split; [apply in_or_app; right; now left|].
    cbn. now rewrite !String.eqb_refl. }
  destruct (accepts sv (InsertActivity a)); cbn [Site.groups Site.group_members Site.activities];
    (repeat split; auto; [destruct Hn as [->| ->]; cbn [open notices]; reflexivity]).
Qed.

Lemma group_is_created_with_or_without_activity_witness :
  hd_error (notices (Page.exec (GroupsPage.handleCreateGroup exact drops_activities "u" "Band" "")
                       (open flat no_groups)))
  = Some GroupsPage.success.
Proof.
  refine (proj1 (proj2 (proj2 (proj2
            (group_is_created_with_or_without_activity exact drops_activities "u" "Band" ""
               flat no_groups _ _ _ _ _))))); try reflexivity.
  repeat (apply Forall_cons; [cbn; auto|]). apply Forall_nil.
Defined.

(** ** The cards of the groups page *)

Lemma same_member_eq m n :
  same_member m n = true
  <-> GroupMember.group_id m = GroupMember.group_id n
      /\ GroupMember.user_id m = GroupMember.user_id n.
Proof.
  unfold same_member. rewrite andb_true_iff, !String.eqb_eq. tauto.
Qed.

(** Under the UNIQUE constraint a user is a member of a group at most once. *)
Lemma one_membership g user l :
  distinct same_member l = true ->
  (List.length (filter (fun m => String.eqb (GroupMember.group_id m) g
                                 && String.eqb (GroupMember.user_id m) user) l) <= 1)%nat.
Proof.
  induction l as [|x l IH]; intros Hd; [cbn; lia|].
  cbn [distinct] in Hd. apply andb_prop in Hd. destruct Hd as [Hx Hd].
  cbn [filter].
  destruct (String.eqb (GroupMember.group_id x) g && String.eqb (GroupMember.user_id x) user)
    eqn:E; [|now apply IH].
  apply andb_prop in E. destruct E as [Eg Eu]. apply String.eqb_eq in Eg, Eu.
  cbn [List.length].
  destruct (filter _ l) as [|y ys] eqn:F; [cbn; lia|].
  exfalso. assert (Hy : In y (filter (fun m => String.eqb (GroupMember.group_id m) g
                                     && String.eqb (GroupMember.user_id m) user) l))
    by (rewrite F; now left).
  apply filter_In in Hy. destruct Hy as [Hin Hy]. apply andb_prop in Hy.
  destruct Hy as [Yg Yu]. apply String.eqb_eq in Yg, Yu.
  apply negb_true_iff in Hx.
  assert (Hex : existsb (same_member x) l = true).
  { apply existsb_exists. exists y. split; [exact Hin|]. apply same_member_eq. split; congruence. }
  congruence.
Qed.

Lemma visible_membership user s g :
  GroupsPage.visible user s g = true ->
  (1 <= List.length (filter (fun m => String.eqb (GroupMember.group_id m) (GroupRow.id g)
                                      && String.eqb (GroupMember.user_id m) user)
                       (Site.group_members s)))%nat.
Proof.
  unfold GroupsPage.visible. intros H. apply existsb_exists in H. destruct H as [m [Hin Hm]].
  assert (Hf : In m (filter (fun m => String.eqb (GroupMember.group_id m) (GroupRow.id g)
                                      && String.eqb (GroupMember.user_id m) user)
                       (Site.group_members s)))
    by (apply filter_In; now split).
  destruct (filter _ _); [destruct Hf|cbn; lia].
Qed.

(** X23: every card of the groups page counts one member.  The read
    counts the rows of group_members left by its filter on the user's own
    id, so with the read served and memberships unique the page lists the
    groups the user belongs to, each with [member_count] 1, whatever the
    number of members of the group. *)
Theorem fetchGroups_counts_one_member rnd sv user s page0 :
  let b' := Page.exec (GroupsPage.fetchGroups rnd sv user) (open s page0) in
  accepts sv (SelectGroupCards user) = true ->
  unique_member s ->
  map GroupsPage.id (GroupsPage.groups (page b'))
  = map GroupRow.id (filter (GroupsPage.visible user s) (Site.groups s))
  /\ Forall (fun card => GroupsPage.member_count card == 1) (GroupsPage.groups (page b'))
  /\ notices b' = [].
Proof.
  intros b' Ha Hu. subst b'.
  unfold GroupsPage.fetchGroups, Page.exec, Page.try_catch. rewrite page_bind_select, Ha.
  cbn [Page.set snd remote open page notices Page.send GroupsPage.setGroups GroupsPage.groups].
  unfold GroupsPage.group_cards. rewrite !map_map. cbn [GroupsPage.id GroupsPage.group].
  split; [reflexivity|]. split; [|reflexivity].
  apply Forall_forall. intros card Hc. apply in_map_iff in Hc. destruct Hc as [g [<- Hg]].
  apply filter_In in Hg. destruct Hg as [_ Hv].
  cbn [GroupsPage.member_count GroupsPage.member_count_of GroupsPage.group_members_count].
  pose proof (visible_membership user s g Hv) as H1.
  pose proof (one_membership (GroupRow.id g) user (Site.group_members s) Hu) as H2.
  replace (List.length _) with 1%nat by lia. reflexivity.
Qed.

Lemma fetchGroups_counts_one_member_witness :
  Forall (fun card => GroupsPage.member_count card == 1)
    (GroupsPage.groups (page (Page.exec (GroupsPage.fetchGroups exact serving "u")
                                (open flat no_groups)))).
Proof.
  refine (proj1 (proj2 (fetchGroups_counts_one_member exact serving "u" flat no_groups _ _)));
    reflexivity.
Defined.

(** The flat has three members; its card counts one. *)
Example flat_card :
  map (fun card => (GroupsPage.name card, GroupsPage.member_count card))
    (GroupsPage.groups (page (Page.exec (GroupsPage.fetchGroups exact serving "u")
                                (open flat no_groups))))
  = [("Flat", 1); ("Trip", 1)].
Proof. reflexivity. Qed.

(** ** Group ids on the wire *)

Lemma string_app_assoc (a b c : string) : ((a ++ b) ++ c = a ++ (b ++ c))%string.
Proof. induction a as [|x a IH]; [reflexivity|]. cbn. now rewrite IH. Qed.

Lemma string_app_nil (a : string) : (a ++ "" = a)%string.
Proof. induction a as [|x a IH]; [reflexivity|]. cbn. now rewrite IH. Qed.

Lemma items_item x rest cur :
  no_comma x = true -> items (x ++ rest) cur = items rest (cur ++ x).
Proof.
  revert cur. induction x as [|c x IH]; intros cur H.
  - cbn. now rewrite string_app_nil.
  - cbn [no_comma] in H. apply andb_prop in H. destruct H as [Hc Hx].
    apply negb_true_iff in Hc. cbn [append items]. rewrite Hc.
    rewrite (IH _ Hx), string_app_assoc. reflexivity.
Qed.

(** X24: the list of group ids survives the text of the filter.  The
    pages send the ids of the user's groups joined by commas inside
    [group_id.in.(...)]; for ids that are not empty and hold no comma, as
    uuids are, the items read back from that text are the ids, in order. *)
Theorem group_ids_round_trip ids :
  Forall listable ids -> in_list (join ids) = ids.
Proof.
  unfold in_list. induction 1 as [|x l [Hne Hx] Hl IH]; [reflexivity|].
  destruct l as [|y l].
  - cbn [join]. replace (items x "") with (items (x ++ "") "") by now rewrite string_app_nil.
    rewrite items_item by exact Hx.
    cbn. destruct x; [congruence|reflexivity].
  - change (join (x :: y :: l)) with (x ++ "," ++ join (y :: l))%string.
    rewrite items_item by exact Hx. cbn [append items].
    change (is_comma ","%char) with true. cbv iota. cbn [append]. now rewrite IH.
Qed.

Lemma group_ids_round_trip_witness : in_list (join ["g"; "h"]) = ["g"; "h"].
Proof.
  apply (group_ids_round_trip ["g"; "h"]).
  repeat (apply Forall_cons; [split; [discriminate|reflexivity]|]). apply Forall_nil.
Defined.

(** ** The activity feed *)

Lemma firstn_length_le {A} n (l : list A) : (List.length (firstn n l) <= n)%nat.
Proof. rewrite length_firstn. lia. Qed.

Lemma format_feed_ids user text limit s :
  map item_id (format_feed (feed user text limit s))
  = map Expense.id (firstn limit (rev (filter (in_feed user text) (Site.expenses s)))).
Proof. unfold format_feed, feed. rewrite !map_map. reflexivity. Qed.

(** X25: what the activity page lists.  With the feed read served the
    page holds at most 50 items and shows no notice; they are, newest
    first, the expenses the user paid or that belong to a group of the
    user.  When the read of the memberships is refused no notice is shown
    either: the page then lists the expenses the user paid and nothing
    else.  When the feed read itself is refused the list is left as it was
    and the failure is reported. *)
Theorem fetchActivities_lists_the_feed sv user s page0 :
  let b' := Page.exec (ActivityPage.fetchActivities sv user) (open s page0) in
  let ids := map GroupMember.group_id (memberships user s) in
  let text := if accepts sv (SelectGroupIds user) then join ids else "" in
  Forall listable ids ->
  (accepts sv (SelectFeed user text 50) = false ->
   page b' = page0 /\ notices b' = [ActivityPage.failure_load])
  /\ (accepts sv (SelectFeed user text 50) = true ->
      notices b' = [] /\ (List.length (page b') <= 50)%nat
      /\ (accepts sv (SelectGroupIds user) = true ->
          map item_id (page b')
          = map Expense.id
              (firstn 50 (rev (filter (fun e => String.eqb (Expense.paid_by e) user
                                                || match Expense.group_id e with
                                                   | Some g => mem g ids
                                                   | None => false
                                                   end)
                                 (Site.expenses s)))))
      /\ (accepts sv (SelectGroupIds user) = false ->
          map item_id (page b')
          = map Expense.id
              (firstn 50 (rev (filter (fun e => String.eqb (Expense.paid_by e) user)
                                 (Site.expenses s)))))).
Proof.
  intros b' ids text Hids. subst b'.
  unfold ActivityPage.fetchActivities, Page.exec, Page.try_catch.
  rewrite !page_bind_select. cbn [remote open Page.send].
  destruct (accepts sv (SelectGroupIds user)) eqn:Ea; fold ids; subst text; cbv iota.
  - destruct (accepts sv (SelectFeed user (join ids) 50)) eqn:Ef.
    + split; [discriminate|]. intros _.
      cbn [Page.set snd notices page sent remote]. split; [reflexivity|]. split.
      * unfold format_feed, feed. rewrite !length_map. apply firstn_length_le.
      * rewrite format_feed_ids. split; [intros _|discriminate].
        f_equal. f_equal. f_equal. apply filter_ext. intros e. unfold in_feed.
        now rewrite (group_ids_round_trip ids Hids).
    + split; [|discriminate]. intros _. split; reflexivity.
  - change (join []) with "". destruct (accepts sv (SelectFeed user "" 50)) eqn:Ef.
    + split; [discriminate|]. intros _.
      cbn [Page.set snd notices page sent remote]. split; [reflexivity|]. split.
      * unfold format_feed, feed. rewrite !length_map. apply firstn_length_le.
      * rewrite format_feed_ids. split; [discriminate|intros _].
        f_equal. f_equal. f_equal. apply filter_ext. intros e. unfold in_feed.
        cbn. destruct (Expense.group_id e); now rewrite orb_false_r.
    + split; [|discriminate]. intros _. split; reflexivity.
Qed.

Lemma fetchActivities_lists_the_feed_witness :
  notices (Page.exec (ActivityPage.fetchActivities serving "u") (open flat [])) = [].
Proof.
  refine (proj1 (proj2 (fetchActivities_lists_the_feed serving "u" flat [] _) _)).
  - repeat (apply Forall_cons; [split; [discriminate|reflexivity]|]). apply Forall_nil.
  - reflexivity.
Defined.

(** ** The dashboard, in full *)

Lemma page_send_fields {S} c (b : browser S) :
  remote (Page.send c b) = remote b /\ notices (Page.send c b) = notices b
  /\ page (Page.send c b) = page b /\ sent (Page.send c b) = (sent b ++ [c])%list.
Proof. repeat split. Qed.

(** The page after [fetchDashboardData]. *)
Lemma fetchDashboardData_exec rnd sv user (b : browser DashboardPage.state) :
  let s := remote b in
  let owedData := if accepts sv (Ledger (Select (q_owed user)))
                  then Data (Dashboard.owed_rows user (Site.ledger s)) else Error in
  let owingData := if accepts sv (Ledger (Select (q_owing user)))
                   then Data (Dashboard.owing_rows user (Site.ledger s)) else Error in
  let totalOwed := Dashboard.total rnd owedData in
  let totalOwing := Dashboard.total rnd owingData in
  let userGroupIds := if accepts sv (SelectGroupIds user)
                      then join (map GroupMember.group_id (memberships user s)) else "" in
  Page.exec (DashboardPage.fetchDashboardData rnd sv user) b
  = mk_browser s
      (sent b ++ [Ledger (Select (q_owed user)); Ledger (Select (q_owing user));
                  SelectGroupIds user; SelectFeed user userGroupIds 5; CountGroups user])
      (notices b)
      (DashboardPage.mk_state
         (mk_balance totalOwed totalOwing (js_sub rnd totalOwed totalOwing))
         (if accepts sv (SelectFeed user userGroupIds 5)
          then format_feed (feed user userGroupIds 5 s) else [])
         (if accepts sv (CountGroups user) then DashboardPage.group_count user s else 0%nat)).
Proof.
  intros s owedData owingData totalOwed totalOwing userGroupIds.
  unfold DashboardPage.fetchDashboardData, DashboardPage.getUserGroupIds, Page.exec,
    Page.try_catch.
  rewrite !page_bind_select. cbn [remote Page.send].
  fold s. fold owedData. fold owingData. fold totalOwed. fold totalOwing.
  unfold Page.bind at 1. unfold Page.set at 1. cbn [remote sent notices page].
  unfold Page.bind at 1. unfold Page.bind at 1. rewrite page_select_answer.
  unfold Page.ret. cbn [remote sent notices page Page.send].
  fold s.
  replace (match (if accepts sv (SelectGroupIds user) then Data (memberships user s) else Error)
           with
           | Data rows => join (map GroupMember.group_id rows)
           | Error => ""
           end) with userGroupIds
    by (unfold userGroupIds; now destruct (accepts sv (SelectGroupIds user))).
  rewrite page_bind_select. cbn [remote sent notices page Page.send].
  unfold Page.bind at 1. unfold Page.set at 1. cbn [remote sent notices page].
  rewrite page_bind_select. cbn [remote sent notices page Page.send].
  unfold Page.set. cbn [snd remote sent notices page DashboardPage.setBalances
    DashboardPage.setRecentExpenses DashboardPage.setGroupCount DashboardPage.balances
    DashboardPage.recentExpenses DashboardPage.groupCount].
  destruct (accepts sv (SelectFeed user userGroupIds 5)), (accepts sv (CountGroups user));
    unfold Page.send; cbn [snd remote sent notices page DashboardPage.setBalances
      DashboardPage.setRecentExpenses DashboardPage.setGroupCount DashboardPage.balances
      DashboardPage.recentExpenses DashboardPage.groupCount];
    rewrite <- !app_assoc; reflexivity.
Qed.

(** X26: the dashboard never reports a failed read.  Whatever the
    backend serves, [fetchDashboardData] writes nothing and shows no notice;
    a read that is refused counts as no rows, so that the total behind it
    is shown as [0] and the number of groups as [0].  The balances are the
    ones of the two ledger reads alone, and at most 5 recent expenses are
    kept. *)
Theorem fetchDashboardData_never_reports rnd sv user s page0 :
  let b' := Page.exec (DashboardPage.fetchDashboardData rnd sv user) (open s page0) in
  notices b' = []
  /\ remote b' = s
  /\ existsb is_insert (sent b') = false
  /\ DashboardPage.balances (page b')
     = balances (exec (Dashboard.fetchDashboardData rnd (ledger_backend sv) user)
                   (initial (Site.ledger s)))
  /\ (accepts sv (Ledger (Select (q_owed user))) = false ->
      total_owed (DashboardPage.balances (page b')) = 0)
  /\ (accepts sv (Ledger (Select (q_owing user))) = false ->
      total_owing (DashboardPage.balances (page b')) = 0)
  /\ DashboardPage.groupCount (page b')
     = (if accepts sv (CountGroups user) then List.length (memberships user s) else 0%nat)
  /\ (List.length (DashboardPage.recentExpenses (page b')) <= 5)%nat.
Proof.
  intros b'. subst b'. rewrite fetchDashboardData_exec.
  cbn [remote open sent notices page app DashboardPage.balances DashboardPage.recentExpenses
       DashboardPage.groupCount total_owed total_owing].
  rewrite fetchDashboardData_balances. unfold answer, ledger_backend.
  cbn [serves db initial].
  split; [reflexivity|]. split; [reflexivity|]. split; [reflexivity|].
  split; [reflexivity|]. split; [intros ->; reflexivity|]. split; [intros ->; reflexivity|].
  split; [reflexivity|].
  match goal with |- context [accepts sv (SelectFeed ?u ?t ?n)] =>
    destruct (accepts sv (SelectFeed u t n)) end; [|cbn; lia].
  unfold format_feed, feed. rewrite !length_map. apply firstn_length_le.
Qed.

(** ** From the group to the rows *)

Lemma toggle_keeps_NoDup prev participantId :
  NoDup prev -> NoDup (AddExpense.toggleParticipant prev participantId).
Proof.
  intros Hnd. unfold AddExpense.toggleParticipant.
  destruct (mem participantId prev) eqn:Em; [now apply NoDup_filter|].
  apply NoDup_app; [exact Hnd|repeat constructor; auto|].
  intros x Hx [<-|[]]. apply mem_In in Hx. congruence.
Qed.

Lemma toggles_keep_NoDup ticks prev :
  NoDup prev -> NoDup (fold_left AddExpense.toggleParticipant ticks prev).
Proof.
  revert prev. induction ticks as [|x ticks IH]; intros prev H; [exact H|].
  cbn [fold_left]. apply IH. now apply toggle_keeps_NoDup.
Qed.



(** The members of the flat stay selected when the members of the trip do
    not load: the dinner is saved under the trip and split among the flat. *)
Example stale_selection_is_submitted :
  let b1 := Page.exec (AddExpensePage.chooseGroup serving "g")
              (open flat (AddExpensePage.mounted "2025-01-01")) in
  let b2 := Page.exec (AddExpensePage.chooseGroup no_memberships "h") b1 in
  issued (exec (AddExpense.handleSubmit exact always "u"
                  (AddExpensePage.selectedGroup (page b2))
                  (AddExpensePage.selectedParticipants (page b2)) dinner)
            (initial (Site.ledger (remote b2))))
  = [InsertExpense "Dinner" 300 "2025-01-01" "h" "u";
     InsertExpenseParticipants
       (AddExpense.participants exact "e1" 300 ["u"; "v"; "w"])].
Proof. reflexivity. Qed.

(** ** More on rounding to binary64 *)

Lemma two_power_le (a b : Z) : (a <= b)%Z -> 2 ^ a <= 2 ^ b.
Proof.
  intros H. replace b with (a + (b - a))%Z by lia. rewrite two_power_plus.
  pose proof (two_power_pos a) as Ha.
  assert (H1 : 1 <= 2 ^ (b - a)).
  { rewrite <- two_power_Z by lia. change 1 with (inject_Z 1). rewrite <- Zle_Qle.
    apply (Z.pow_le_mono_r 2 0 (b - a)); lia. }
  setoid_replace (2 ^ a) with (2 ^ a * 1) at 1 by ring.
  apply Qmult_le_l; assumption.
Qed.

Lemma two_power_lt_inv (a b : Z) : 2 ^ a < 2 ^ b -> (a < b)%Z.
Proof.
  intros H. destruct (Z_lt_le_dec a b) as [Hlt|Hle]; [exact Hlt|].
  pose proof (two_power_le b a Hle). lra.
Qed.

Lemma ilog2_above (x : Q) : 0 < x -> x < 2 ^ (ilog2 x + 1).
Proof.
  intros Hx. unfold ilog2.
  set (e0 := (Z.log2 (Qnum x) - Z.log2 (Z.pos (Qden x)) - 1)%Z).
  destruct (Qle_bool (2 ^ (e0 + 1)) x) eqn:E.
  2:{ apply Qle_bool_false in E. exact E. }
  destruct x as [n d]. cbn [Qnum Qden] in *.
  assert (Hn : (0 < n)%Z) by (unfold Qlt in Hx; cbn in Hx; lia).
  pose proof (Z.log2_spec n Hn) as [_ Hn2].
  pose proof (Z.log2_spec (Z.pos d) (Pos2Z.is_pos d)) as [Hd1 _].
  pose proof (Z.log2_nonneg n) as Hn0.
  pose proof (Z.log2_nonneg (Z.pos d)) as Hd0.
  (* n < 2^(ln+1) = 2^(e0+2) * 2^ld and 2^ld <= d *)
  assert (Hsplit : 2 ^ (Z.log2 n + 1) == 2 ^ (e0 + 1 + 1) * 2 ^ Z.log2 (Z.pos d)).
  { rewrite <- two_power_plus. unfold e0.
    replace (Z.log2 n - Z.log2 (Z.pos d) - 1 + 1 + 1 + Z.log2 (Z.pos d))%Z
      with (Z.log2 n + 1)%Z by lia.
    reflexivity. }
  assert (HnQ : inject_Z n < 2 ^ (Z.log2 n + 1)).
  { rewrite <- two_power_Z by lia. rewrite <- Zlt_Qlt.
    replace (Z.log2 n + 1)%Z with (Z.succ (Z.log2 n)) by lia. exact Hn2. }
  assert (HdQ : 2 ^ Z.log2 (Z.pos d) <= inject_Z (Z.pos d)).
  { rewrite <- two_power_Z by lia. rewrite <- Zle_Qle. exact Hd1. }
  assert (Hxd : n # d == inject_Z n / inject_Z (Z.pos d)) by apply Qmake_Qdiv.
  rewrite Hxd. apply Qlt_shift_div_r; [reflexivity|].
  pose proof (two_power_pos (e0 + 1 + 1)) as He0.
  apply Qlt_le_trans with (2 ^ (e0 + 1 + 1) * 2 ^ Z.log2 (Z.pos d)).
  - rewrite <- Hsplit. exact HnQ.
  - apply Qmult_le_l; [exact He0|exact HdQ].
Qed.

(** [ilog2] is the one exponent of the binade. *)
Lemma ilog2_unique (x : Q) (k : Z) : 2 ^ k <= x -> x < 2 ^ (k + 1) -> ilog2 x = k.
Proof.
  intros H1 H2. pose proof (two_power_pos k) as Hk.
  assert (Hx : 0 < x) by lra.
  pose proof (ilog2_below x Hx) as L1. pose proof (ilog2_above x Hx) as L2.
  assert (A : (k < ilog2 x + 1)%Z) by (apply two_power_lt_inv; lra).
  assert (B : (ilog2 x < k + 1)%Z) by (apply two_power_lt_inv; lra).
  lia.
Qed.

Lemma ilog2_mono (x y : Q) : 0 < x -> x <= y -> (ilog2 x <= ilog2 y)%Z.
Proof.
  intros Hx Hxy. assert (Hy : 0 < y) by lra.
  pose proof (ilog2_below x Hx) as L1. pose proof (ilog2_above y Hy) as L2.
  assert (A : (ilog2 x < ilog2 y + 1)%Z) by (apply two_power_lt_inv; lra).
  lia.
Qed.

Lemma round_half_even_Z (n : Z) : round_half_even (inject_Z n) = n.
Proof.
  unfold round_half_even. rewrite Qfloor_Z.
  assert (H : Qcompare (inject_Z n - inject_Z n) (1 # 2) = Lt).
  { apply Qlt_alt. setoid_replace (inject_Z n - inject_Z n) with 0 by ring. reflexivity. }
  now rewrite H.
Qed.

Lemma round_half_even_mono (m1 m2 : Q) : m1 <= m2 -> (round_half_even m1 <= round_half_even m2)%Z.
Proof.
  intros H. unfold round_half_even.
  pose proof (Qfloor_resp_le _ _ H) as Hf.
  pose proof (Qfloor_le m1) as L1. pose proof (Qlt_floor m1) as U1.
  pose proof (Qfloor_le m2) as L2. pose proof (Qlt_floor m2) as U2.
  rewrite inject_Z_plus in U1, U2. change (inject_Z 1) with 1 in U1, U2.
  set (f1 := Qfloor m1) in *. set (f2 := Qfloor m2) in *. clearbody f1 f2.
  destruct (Z.eq_dec f1 f2) as [Heq|Hne].
  - subst f2.
    destruct (Qcompare (m1 - inject_Z f1) (1 # 2)) eqn:C1;
      destruct (Qcompare (m2 - inject_Z f1) (1 # 2)) eqn:C2;
      first [apply Qeq_alt in C1 | apply Qlt_alt in C1 | apply Qgt_alt in C1];
      first [apply Qeq_alt in C2 | apply Qlt_alt in C2 | apply Qgt_alt in C2];
      try (exfalso; lra); destruct (Z.even f1); lia.
  - assert (Hlt : (f1 + 1 <= f2)%Z) by lia.
    destruct (Qcompare (m1 - inject_Z f1) (1 # 2));
      destruct (Qcompare (m2 - inject_Z f2) (1 # 2));
      destruct (Z.even f1); destruct (Z.even f2); lia.
Qed.

Lemma round_half_even_comp (m1 m2 : Q) : m1 == m2 -> round_half_even m1 = round_half_even m2.
Proof.
  intros H. apply Z.le_antisymm; apply round_half_even_mono; rewrite H; apply Qle_refl.
Qed.

Lemma Qabs_pos_eq (x : Q) : 0 < x -> Qabs x = x.
Proof.
  destruct x as [n d]. unfold Qlt. cbn. intros H. f_equal. lia.
Qed.

Lemma binary64_zero (x : Q) : x == 0 -> binary64 x = 0.
Proof.
  intros H. unfold binary64. apply Qeq_bool_iff in H. now rewrite H.
Qed.

(** [binary64] on a positive number. *)
Lemma binary64_pos (x : Q) :
  0 < x ->
  binary64 x = inject_Z (round_half_even (x / 2 ^ (ilog2 x - 52))) * 2 ^ (ilog2 x - 52).
Proof.
  intros Hx. unfold binary64, ulp. rewrite (Qabs_pos_eq x Hx).
  destruct (Qeq_bool x 0) eqn:E.
  { apply Qeq_bool_iff in E. lra. }
  destruct (Qle_bool 0 x) eqn:L; [reflexivity|].
  apply Qle_bool_false in L. lra.
Qed.

Lemma scaled_bounds (x : Q) (k : Z) :
  2 ^ k <= x -> x < 2 ^ (k + 1) ->
  2 ^ 52 <= x / 2 ^ (k - 52) /\ x / 2 ^ (k - 52) <= 2 ^ 53.
Proof.
  intros H1 H2. pose proof (two_power_pos (k - 52)) as Hu.
  assert (E1 : 2 ^ k == 2 ^ 52 * 2 ^ (k - 52)).
  { rewrite <- two_power_plus. replace (52 + (k - 52))%Z with k by lia. reflexivity. }
  assert (E2 : 2 ^ (k + 1) == 2 ^ 53 * 2 ^ (k - 52)).
  { rewrite <- two_power_plus. replace (53 + (k - 52))%Z with (k + 1)%Z by lia. reflexivity. }
  split.
  - apply Qle_shift_div_l; [exact Hu|]. rewrite <- E1. exact H1.
  - apply Qle_shift_div_r; [exact Hu|]. rewrite <- E2. lra.
Qed.

(** The rounded significand stays in [[2^52, 2^53]]. *)
Lemma significand_bounds (x : Q) (k : Z) :
  2 ^ k <= x -> x < 2 ^ (k + 1) ->
  (2 ^ 52 <= round_half_even (x / 2 ^ (k - 52)) <= 2 ^ 53)%Z.
Proof.
  intros H1 H2. destruct (scaled_bounds x k H1 H2) as [L U].
  rewrite <- (two_power_Z 52) in L by lia. rewrite <- (two_power_Z 53) in U by lia.
  apply round_half_even_mono in L, U. rewrite round_half_even_Z in L, U. lia.
Qed.

Lemma binary64_binade (x : Q) (k : Z) :
  2 ^ k <= x -> x < 2 ^ (k + 1) ->
  binary64 x = inject_Z (round_half_even (x / 2 ^ (k - 52))) * 2 ^ (k - 52)
  /\ 2 ^ k <= binary64 x /\ binary64 x <= 2 ^ (k + 1).
Proof.
  intros H1 H2. pose proof (two_power_pos k) as Hk.
  assert (Hx : 0 < x) by lra.
  rewrite (binary64_pos x Hx), (ilog2_unique x k H1 H2).
  split; [reflexivity|].
  destruct (significand_bounds x k H1 H2) as [L U].
  pose proof (two_power_pos (k - 52)) as Hu.
  assert (E1 : 2 ^ k == 2 ^ 52 * 2 ^ (k - 52)).
  { rewrite <- two_power_plus. replace (52 + (k - 52))%Z with k by lia. reflexivity. }
  assert (E2 : 2 ^ (k + 1) == 2 ^ 53 * 2 ^ (k - 52)).
  { rewrite <- two_power_plus. replace (53 + (k - 52))%Z with (k + 1)%Z by lia. reflexivity. }
  rewrite E1, E2. rewrite <- (two_power_Z 52), <- (two_power_Z 53) by lia.
  split; apply Qmult_le_compat_r; try lra; rewrite <- Zle_Qle; assumption.
Qed.

Lemma binary64_nonneg (x : Q) : 0 <= x -> 0 <= binary64 x.
Proof.
  intros H. destruct (Qeq_dec x 0) as [E|E].
  - rewrite (binary64_zero x E). apply Qle_refl.
  - assert (Hx : 0 < x) by (apply Qle_lteq in H; destruct H as [H|H]; [exact H|]; exfalso; apply E; now symmetry).
    pose proof (ilog2_below x Hx) as L. pose proof (ilog2_above x Hx) as U.
    destruct (binary64_binade x _ L U) as [_ [B _]].
    pose proof (two_power_pos (ilog2 x)). lra.
Qed.

(** Rounding is monotone on the non-negative numbers. *)
Lemma binary64_mono (x y : Q) : 0 <= x -> x <= y -> binary64 x <= binary64 y.
Proof.
  intros H0 Hxy. destruct (Qeq_dec x 0) as [E|E].
  { rewrite (binary64_zero x E). apply binary64_nonneg. lra. }
  assert (Hx : 0 < x) by (apply Qle_lteq in H0; destruct H0 as [H|H]; [exact H|]; exfalso; apply E; now symmetry).
  assert (Hy : 0 < y) by lra.
  pose proof (ilog2_below x Hx) as Lx. pose proof (ilog2_above x Hx) as Ux.
  pose proof (ilog2_below y Hy) as Ly. pose proof (ilog2_above y Hy) as Uy.
  destruct (binary64_binade x _ Lx Ux) as [Ex [Bx1 Bx2]].
  destruct (binary64_binade y _ Ly Uy) as [Ey [By1 By2]].
  pose proof (ilog2_mono x y Hx Hxy) as Hk.
  destruct (Z.eq_dec (ilog2 x) (ilog2 y)) as [Heq|Hne].
  - rewrite Ex, Ey, Heq. pose proof (two_power_pos (ilog2 y - 52)) as Hu.
    apply Qmult_le_compat_r; [|lra]. rewrite <- Zle_Qle.
    apply round_half_even_mono. apply Qmult_le_compat_r; [exact Hxy|].
    apply Qlt_le_weak, Qinv_lt_0_compat, Hu.
  - assert (Hlt : (ilog2 x + 1 <= ilog2 y)%Z) by lia.
    pose proof (two_power_le _ _ Hlt). lra.
Qed.

Lemma binary64_comp (x y : Q) : 0 <= x -> x == y -> binary64 x == binary64 y.
Proof.
  intros H0 H. apply Qle_antisym; apply binary64_mono; lra.
Qed.

(** A rounded number is a double: rounding it again changes nothing. *)
Lemma binary64_idem (x : Q) : 0 <= x -> binary64 (binary64 x) == binary64 x.
Proof.
  intros H0. destruct (Qeq_dec x 0) as [E|E].
  { rewrite (binary64_zero x E). reflexivity. }
  assert (Hx : 0 < x) by (apply Qle_lteq in H0; destruct H0 as [H|H]; [exact H|]; exfalso; apply E; now symmetry).
  pose proof (ilog2_below x Hx) as Lx. pose proof (ilog2_above x Hx) as Ux.
  set (k := ilog2 x) in *.
  destruct (binary64_binade x k Lx Ux) as [Ex [B1 B2]].
  destruct (significand_bounds x k Lx Ux) as [S1 S2].
  set (n := round_half_even (x / 2 ^ (k - 52))) in *.
  pose proof (two_power_pos (k - 52)) as Hu.
  destruct (Z.eq_dec n (2 ^ 53)) as [Htop|Hin].
  - (* the significand was rounded up to the next binade *)
    assert (Er : binary64 x == 2 ^ (k + 1)).
    { rewrite Ex, Htop, (two_power_Z 53) by lia. rewrite <- two_power_plus.
      replace (53 + (k - 52))%Z with (k + 1)%Z by lia. reflexivity. }
    assert (L' : 2 ^ (k + 1) <= binary64 x) by (rewrite Er; apply Qle_refl).
    assert (U' : binary64 x < 2 ^ (k + 1 + 1)).
    { assert (E2 : 2 ^ (k + 1 + 1) == 2 * 2 ^ (k + 1)).
      { replace (k + 1 + 1)%Z with (1 + (k + 1))%Z by lia. now rewrite two_power_plus. }
      rewrite Er, E2. pose proof (two_power_pos (k + 1)) as Hp. lra. }
    destruct (binary64_binade _ _ L' U') as [E' _]. rewrite E'.
    assert (Es : binary64 x / 2 ^ (k + 1 - 52) == inject_Z (2 ^ 52)).
    { rewrite Er, (two_power_Z 52) by lia.
      pose proof (two_power_pos (k + 1 - 52)) as Hp.
      assert (E3 : 2 ^ (k + 1) == 2 ^ 52 * 2 ^ (k + 1 - 52)).
      { rewrite <- two_power_plus.
        replace (52 + (k + 1 - 52))%Z with (k + 1)%Z by lia. reflexivity. }
      rewrite E3. field. lra. }
    rewrite (round_half_even_comp _ _ Es), round_half_even_Z.
    rewrite Er, (two_power_Z 52) by lia. rewrite <- two_power_plus.
    replace (52 + (k + 1 - 52))%Z with (k + 1)%Z by lia. reflexivity.
  - assert (U' : binary64 x < 2 ^ (k + 1)).
    { rewrite Ex. 
      assert (E2 : 2 ^ (k + 1) == 2 ^ 53 * 2 ^ (k - 52)).
      { rewrite <- two_power_plus. replace (53 + (k - 52))%Z with (k + 1)%Z by lia. reflexivity. }
      rewrite E2. apply Qmult_lt_compat_r; [exact Hu|].
      rewrite <- (two_power_Z 53) by lia. rewrite <- Zlt_Qlt. lia. }
    destruct (binary64_binade _ _ B1 U') as [E' _]. rewrite E'.
    assert (Es : binary64 x / 2 ^ (k - 52) == inject_Z n).
    { rewrite Ex. field. lra. }
    rewrite (round_half_even_comp _ _ Es), round_half_even_Z. rewrite Ex. reflexivity.
Qed.

(** ** The dashboard in binary64 *)

(** The sum of a selection of the rows never exceeds, addition by rounded
    addition, the sum of a larger selection of the same rows. *)
Lemma reduce_filter_le (p q : ExpenseParticipant.t -> bool) rows (a a' : Q) :
  (forall x, p x = true -> q x = true) ->
  Forall (fun x => 0 <= ExpenseParticipant.amount_owed x) rows ->
  0 <= a -> a <= a' -> binary64 a == a ->
  let f := fun sum item => js_add binary64 sum (ExpenseParticipant.amount_owed item) in
  0 <= fold_left f (filter p rows) a
  /\ fold_left f (filter p rows) a <= fold_left f (filter q rows) a'.
Proof.
  intros Hpq Hrows. cbv zeta. revert a a'.
  induction Hrows as [|x rows Hx Hrows IH]; intros a a' H0 Hle Hrep.
  - cbn. split; assumption.
  - cbn [filter]. destruct (p x) eqn:P.
    + rewrite (Hpq x P). cbn [fold_left]. apply IH.
      * apply binary64_nonneg. lra.
      * apply binary64_mono; lra.
      * apply binary64_idem. lra.
    + destruct (q x) eqn:Q0; [|now apply IH].
      cbn [fold_left]. apply IH; [assumption| |assumption].
      unfold js_add. rewrite <- Hrep. apply binary64_mono; lra.
Qed.



(** The balances of u after the dinner, as doubles: the share of the
    dinner is the double nearest to 100/3. *)
Example dinner_on_the_dashboard :
  let b := DashboardPage.balances
             (page (Page.exec (DashboardPage.fetchDashboardData binary64 serving "u")
                      (open flat_after_dinner DashboardPage.mounted))) in
  total_owing b == double_value (100 / 3)%float
  /\ total_owed b == double_value (100 / 3 + 20)%float
  /\ net_balance b == 20.
Proof. vm_compute. repeat split. Qed.

(** When the read behind [total_owed] is refused and the other one is
    served, the net balance shown is negative. *)
Example refused_read_shows_a_negative_net :
  net_balance
    (DashboardPage.balances
       (page (Page.exec (DashboardPage.fetchDashboardData binary64 no_owed_rows "u")
                (open flat_after_dinner DashboardPage.mounted)))) < 0.
Proof. vm_compute. reflexivity. Qed.

(** ** The settle-up page in any arithmetic *)

Section Running.
Variable rnd : arithmetic.

Lemma amount_at_add_rounded k a m k' :
  SettleUp.has k m = true ->
  amount_at k' (SettleUp.add_amount rnd k a m)
  = if String.eqb k k' then js_add rnd (amount_at k' m) a else amount_at k' m.
Proof.
  induction m as [|[k0 d] m IH]; [discriminate|].
  unfold SettleUp.has. cbn [existsb fst SettleUp.add_amount]. intros H.
  destruct (String.eqb k0 k) eqn:E0.
  - apply String.eqb_eq in E0. subst k0.
    unfold amount_at. cbn [find fst]. destruct (String.eqb k k') eqn:E1; reflexivity.
  - cbn [orb] in H. unfold amount_at. cbn [find fst].
    destruct (String.eqb k0 k') eqn:E1; cbn [snd debt_amount].
    + destruct (String.eqb k k') eqn:E2; [|reflexivity].
      apply String.eqb_eq in E1, E2. subst. now rewrite String.eqb_refl in E0.
    + apply IH. exact H.
Qed.

Lemma amount_at_set_new k d m k' :
  SettleUp.has k m = false ->
  amount_at k' (SettleUp.set k d m)
  = if String.eqb k k' then debt_amount d else amount_at k' m.
Proof.
  unfold SettleUp.set, amount_at, SettleUp.has. intros H.
  destruct (find (fun kv => String.eqb (fst kv) k') m) as [kv|] eqn:F.
  - rewrite (find_app_some _ _ _ _ F).
    destruct (String.eqb k k') eqn:E; [|reflexivity].
    apply String.eqb_eq in E. subst k'. apply find_some in F.
    assert (Hex : existsb (fun kv => String.eqb (fst kv) k) m = true)
      by (apply existsb_exists; now exists kv).
    congruence.
  - rewrite (find_app_none _ _ _ F). cbn [find fst].
    destruct (String.eqb k k'); reflexivity.
Qed.

Lemma has_contribute k m c :
  SettleUp.has k (contribute rnd m c) = SettleUp.has k m || String.eqb (who c) k.
Proof.
  apply eq_true_iff_eq. rewrite orb_true_iff, !has_keys. unfold contribute.
  rewrite merge_keys, String.eqb_eq. unfold who. intuition.
Qed.

Lemma amount_at_contribute_rounded m c k :
  amount_at k (contribute rnd m c)
  = if String.eqb (who c) k
    then (if SettleUp.has k m then js_add rnd (amount_at k m) (how_much c) else how_much c)
    else amount_at k m.
Proof.
  unfold contribute, SettleUp.merge. fold (who c).
  destruct (SettleUp.has (who c) m) eqn:E.
  - rewrite amount_at_add_rounded by exact E.
    destruct (String.eqb (who c) k) eqn:Ek; [|reflexivity].
    apply String.eqb_eq in Ek. subst k. now rewrite E.
  - rewrite amount_at_set_new by exact E. cbn [debt_amount].
    destruct (String.eqb (who c) k) eqn:Ek; [|reflexivity].
    apply String.eqb_eq in Ek. subst k. now rewrite E.
Qed.

Lemma amount_at_filed cs m k :
  SettleUp.has k m = true ->
  amount_at k (fold_left (contribute rnd) cs m)
  = fold_left (js_add rnd) (amounts_for k cs) (amount_at k m).
Proof.
  revert m. induction cs as [|c cs IH]; intros m Hm; [reflexivity|].
  cbn [fold_left]. rewrite IH by (rewrite has_contribute, Hm; reflexivity).
  rewrite amount_at_contribute_rounded, Hm. unfold amounts_for. cbn [filter].
  destruct (String.eqb (who c) k); reflexivity.
Qed.

(** The entry of [k] holds its first contribution, to which the further
    ones are added with rounded additions, in their order. *)
Lemma amount_at_running cs m k :
  SettleUp.has k m = false ->
  amount_at k (fold_left (contribute rnd) cs m) = running rnd (amounts_for k cs).
Proof.
  revert m. induction cs as [|c cs IH]; intros m Hm.
  - cbn. unfold amount_at. unfold SettleUp.has in Hm.
    destruct (find (fun kv => String.eqb (fst kv) k) m) as [kv|] eqn:F; [|reflexivity].
    apply find_some in F.
    assert (Hex : existsb (fun kv => String.eqb (fst kv) k) m = true)
      by (apply existsb_exists; now exists kv).
    congruence.
  - cbn [fold_left]. unfold amounts_for. cbn [filter].
    destruct (String.eqb (who c) k) eqn:E.
    + cbn [map running]. rewrite amount_at_filed by (rewrite has_contribute, E; apply orb_true_r).
      rewrite amount_at_contribute_rounded, E, Hm. reflexivity.
    + apply IH. rewrite has_contribute, Hm, E. reflexivity.
Qed.
End Running.

Lemma amounts_for_app k cs cs' :
  amounts_for k (cs ++ cs') = (amounts_for k cs ++ amounts_for k cs')%list.
Proof. unfold amounts_for. now rewrite filter_app, map_app. Qed.

Section Terms.
Variable user : uuid.
Variable st : store.
Variable k : uuid.

Lemma first_pass_terms rows :
  has_profile st k = true -> k <> user ->
  amounts_for k (contributions (owes user st)
                   (filter (fun p => String.eqb (ExpenseParticipant.user_id p) user
                                     && Bool.eqb (ExpenseParticipant.is_settled p) false) rows))
  = map ExpenseParticipant.amount_owed
      (filter (fun p => String.eqb (ExpenseParticipant.user_id p) user
                        && Spec.paid_by st p k
                        && negb (ExpenseParticipant.is_settled p)) rows).
Proof.
  intros Hk Hne. induction rows as [|p rows IH]; [reflexivity|]. cbn [filter].
  destruct (String.eqb (ExpenseParticipant.user_id p) user); cbn [andb]; [|exact IH].
  destruct (ExpenseParticipant.is_settled p); cbn [Bool.eqb negb];
    [rewrite andb_false_r; exact IH|].
  rewrite andb_true_r, contributions_cons.
  destruct (owes user st p) as [c|] eqn:Ho.
  - destruct (owes_who user st p c Ho) as [_ [_ [Hpaid Hamt]]].
    unfold amounts_for in *. cbn [filter].
    destruct (String.eqb (who c) k) eqn:E.
    + apply String.eqb_eq in E. rewrite E in Hpaid.
      rewrite Hpaid. cbn [map]. now rewrite IH, Hamt.
    + destruct (Spec.paid_by st p k) eqn:Ek; [|exact IH].
      rewrite (paid_by_functional st p _ _ Hpaid Ek), String.eqb_refl in E. discriminate.
  - rewrite (owes_none user st k p Ho Hk Hne). exact IH.
Qed.

Lemma second_pass_terms rows :
  has_profile st k = true ->
  amounts_for k (contributions (owed user st)
                   (filter (fun p => Bool.eqb (ExpenseParticipant.is_settled p) false) rows))
  = map (fun p => js_neg (ExpenseParticipant.amount_owed p))
      (filter (fun p => String.eqb (ExpenseParticipant.user_id p) k
                        && Spec.paid_by st p user
                        && negb (ExpenseParticipant.is_settled p)) rows).
Proof.
  intros Hk. induction rows as [|p rows IH]; [reflexivity|]. cbn [filter].
  destruct (ExpenseParticipant.is_settled p); cbn [Bool.eqb negb];
    [rewrite andb_false_r; exact IH|].
  rewrite andb_true_r, contributions_cons.
  destruct (owed user st p) as [c|] eqn:Ho.
  - destruct (owed_who user st p c Ho) as [Hw [Hpaid Hamt]].
    unfold amounts_for in *. cbn [filter]. rewrite Hw, Hpaid, andb_true_r.
    destruct (String.eqb (ExpenseParticipant.user_id p) k); [|exact IH].
    cbn [map]. now rewrite IH, Hamt.
  - destruct (String.eqb (ExpenseParticipant.user_id p) k) eqn:E; cbn [andb]; [|exact IH].
    apply String.eqb_eq in E. rewrite <- E in Hk. rewrite (owed_none user st p Ho Hk). exact IH.
Qed.
End Terms.

(** In any arithmetic the entry of a counterparty with a profile holds
    the running sum of its terms. *)
Lemma netted_running rnd user st k :
  has_profile st k = true -> k <> user ->
  amount_at k (netted rnd user st) = running rnd (terms user k st).
Proof.
  intros Hk Hne. unfold netted. rewrite amount_at_running by reflexivity.
  rewrite amounts_for_app. unfold SettleUp.debt_rows, SettleUp.unsettled_rows.
  rewrite first_pass_terms, second_pass_terms by assumption. reflexivity.
Qed.

(** X29: whatever the rounding of the additions, with its reads served
    the settle-up page shows for a counterparty the running sum of that
    person's rows: the user's unsettled shares of the expenses they paid, in
    table order, then minus their unsettled shares of the expenses the user
    paid; the first term is taken as it is and every further one is added
    with one rounded addition.  A counterparty with a profile is listed
    exactly when that running sum is not zero. *)
Theorem settle_up_amount_is_the_running_sum rnd be user st :
  (forall q, serves be (Select q) = true) ->
  primary_key st ->
  let listed := debts (exec (SettleUp.fetchDebtsAndSettlements rnd be user) (initial st)) in
  (forall d, In d listed -> debt_user_id d <> user ->
     debt_amount d = running rnd (terms user (debt_user_id d) st))
  /\ (forall k, k <> user -> has_profile st k = true ->
        (In k (map debt_user_id listed) <-> ~ running rnd (terms user k st) == 0)).
Proof.
  intros Hs Hpk listed. unfold listed. rewrite fetchDebtsAndSettlements_debts by assumption.
  pose proof (netted_well_keyed rnd user st) as Hwk.
  assert (Hentry : forall d, In d (SettleUp.debtsList (netted rnd user st)) ->
                     debt_user_id d <> user ->
                     debt_amount d = running rnd (terms user (debt_user_id d) st)).
  { intros d Hd Hne. apply debtsList_In in Hd. destruct Hd as [Hd _].
    unfold SettleUp.values in Hd. apply in_map_iff in Hd. destruct Hd as [[k d'] [Heq Hin]].
    cbn [snd] in Heq. subst d'.
    destruct (amount_at_entry _ _ _ Hwk Hin) as [Ha Hid]. rewrite Hid in *.
    rewrite <- Ha. apply netted_running; [|exact Hne].
    apply (netted_key_has_profile rnd user). change k with (fst (k, d)). now apply in_map. }
  split; [exact Hentry|].
  intros k Hne Hk. split.
  - intros Hin. apply in_map_iff in Hin. destruct Hin as [d [Hid Hd]]. subst k.
    rewrite <- (Hentry d Hd Hne). now apply debtsList_In in Hd.
  - intros Hnz. pose proof (netted_running rnd user st k Hk Hne) as Ha.
    assert (Hkey : In k (map fst (netted rnd user st))).
    { destruct (in_dec string_dec k (map fst (netted rnd user st))) as [H|H]; [exact H|].
      exfalso. apply Hnz. rewrite <- Ha, (amount_at_absent _ _ H). reflexivity. }
    apply in_map_iff in Hkey. destruct Hkey as [[k' d] [Hfst Hin]]. cbn [fst] in Hfst. subst k'.
    destruct (amount_at_entry _ _ _ Hwk Hin) as [Hd Hid].
    apply in_map_iff. exists d. split; [exact Hid|].
    apply debtsList_In. split.
    + unfold SettleUp.values. change d with (snd (k, d)). now apply in_map.
    + rewrite <- Hd, Ha. exact Hnz.
Qed.

Lemma settle_up_amount_is_the_running_sum_witness :
  In "v" (map debt_user_id
            (debts (exec (SettleUp.fetchDebtsAndSettlements binary64 always "u")
                      (initial rides_and_coffee)))).
Proof.
  refine (proj2 (proj2 (settle_up_amount_is_the_running_sum binary64 always "u" rides_and_coffee
                          _ _) "v" _ _) _).
  - reflexivity.
  - repeat (apply NoDup_cons; [cbn; intuition discriminate|]). apply NoDup_nil.
  - discriminate.
  - reflexivity.
  - vm_compute. discriminate.
Defined.

(** With doubles, debts that cancel as decimals stay listed: for
    0.1 and 0.2 owed to v and 0.3 owed by v the page shows v with the
    double 0.1 + 0.2 - 0.3, which is not zero. *)
Example rides_and_coffee_in_binary64 :
  exists d,
    debts (exec (SettleUp.fetchDebtsAndSettlements binary64 always "u")
             (initial rides_and_coffee)) = [d]
    /\ debt_user_id d = "v"
    /\ debt_amount d == double_value (1 / 10 + 2 / 10 - 3 / 10)%float
    /\ 0 < debt_amount d.
Proof.
  eexists. split; [vm_compute; reflexivity|].
  split; [reflexivity|]. split; vm_compute; reflexivity.
Qed.

(** X30: with doubles as well, one debt each way of the same amount
    between the user and a counterparty leaves no entry: the second amount
    is added to the first with one addition, whose exact result is zero and
    is not rounded away from it. *)
Theorem opposite_debts_cancel_in_binary64 be user st k (a b : Q) :
  (forall q, serves be (Select q) = true) ->
  primary_key st ->
  k <> user ->
  terms user k st = [a; b] ->
  a + b == 0 ->
  ~ In k (map debt_user_id
            (debts (exec (SettleUp.fetchDebtsAndSettlements binary64 be user) (initial st)))).
Proof.
  intros Hs Hpk Hne Hterms Hzero Hin.
  rewrite fetchDebtsAndSettlements_debts in Hin by assumption.
  apply in_map_iff in Hin. destruct Hin as [d [Hid Hd]].
  apply debtsList_In in Hd. destruct Hd as [Hd Hnz].
  unfold SettleUp.values in Hd. apply in_map_iff in Hd. destruct Hd as [[k' d'] [Heq Hd]].
  cbn [snd] in Heq. subst d'.
  destruct (amount_at_entry _ _ _ (netted_well_keyed binary64 user st) Hd) as [Ha Hk'].
  rewrite Hid in Hk'. subst k'.
  assert (Hk : has_profile st k = true).
  { apply (netted_key_has_profile binary64 user). change k with (fst (k, d)). now apply in_map. }
  apply Hnz. rewrite <- Ha, (netted_running binary64 user st k Hk Hne), Hterms.
  cbn [running fold_left]. unfold js_add. now rewrite (binary64_zero _ Hzero).
Qed.

Lemma opposite_debts_cancel_in_binary64_witness :
  ~ In "v" (map debt_user_id
              (debts (exec (SettleUp.fetchDebtsAndSettlements binary64 always "u")
                        (initial taxi_and_lunch)))).
Proof.
  refine (opposite_debts_cancel_in_binary64 always "u" taxi_and_lunch "v" 50 (-50) _ _ _ _ _).
  - reflexivity.
  - repeat (apply NoDup_cons; [cbn; intuition discriminate|]). apply NoDup_nil.
  - discriminate.
  - reflexivity.
  - reflexivity.
Defined.
